(** * Forum backend: vote ledger, reputation, reply tree and tag bookkeeping

    A shallow embedding of the route handlers of the forum backend (the
    vote routes of routes/votes.js, the reply routes of routes/replies.js,
    the thread routes, which the source tree carries at the end of
    routes/users.js, and the tag routes of routes/tags.js), of the request
    validation in front of them (middleware/validation.js) and of the
    documents they work on (the tag schema and, after it in models/Tag.js,
    the vote, reply and thread schemas), followed by the properties of the
    design document, each proved or refuted on the embedding.

    Conventions of the embedding.
    - An ObjectId is represented by the string that [toString()] yields for
      it; every comparison of ids in the handlers goes through that string.
    - A string stands for a JavaScript string of ASCII characters, and its
      length is the number of its characters.  Where a property depends on
      it, it says so ([plainText]).
    - A Mongoose document array is a list; [push] appends, [splice(i, 1)]
      deletes position [i], an assignment to a field of an element rewrites
      that position.
    - A handler that mutates a loaded document and saves it is a function
      from the database to the new database and the response; a handler
      that returns before [save()] leaves the database as it was, and one
      that throws after a [save()] leaves what was saved.
    - A recursive helper that mutates the reply tree in place returns the
      tree it leaves behind next to its JavaScript result; a helper that
      can throw has the throw among its results.
    - The thread schema declares the replies of a reply as
      [replies: [this]].  At that place [this] is the export object of
      the module, not the reply schema, so the array is an array of plain
      values.  The replies of a thread (its top level) are Mongoose
      documents: they get an [_id], they are validated, and Mongoose
      records what is changed in them, in their [votes], and what is
      pushed to or spliced from their [replies] array.  A reply below the
      top level is a plain object: it has an [_id] only if it was stored
      with one, it is not validated, and what is changed inside it is not
      recorded, so that [thread.save()] does not write it.
    - Counters and scores are integers ([Z]); dates are numbers ([N]), and
      the clock reads the same date throughout a request. *)

From stdpp Require Import base option list strings gmap.
From Stdlib Require Import ZArith Lia.

Local Open Scope Z_scope.

(** ** Documents *)

Definition ObjectId := string.

(** [voteSchema.type], an enum of two strings. *)
Inductive VoteType := upvote | downvote.

#[global] Instance VoteType_eq_dec : EqDecision VoteType.
Proof. solve_decision. Defined.

(** [voteSchema]: one vote of one user. *)
Record Vote := mkVote { v_user : ObjectId; v_type : VoteType }.

#[global] Instance Vote_eq_dec : EqDecision Vote.
Proof. solve_decision. Defined.

(** The scalar fields of a reply; the [replies] array is the second
    component of [Reply] below.  [f_id] is the [_id]: a document of
    [thread.replies] always has one, a reply below the top level only if
    it was stored with one.  For a reply below the top level
    [f_isEdited = false] also stands for a missing [isEdited]. *)
Record ReplyFields := mkReplyFields {
  f_id : option ObjectId;
  f_author : ObjectId;
  f_content : string;
  f_votes : list Vote;
  f_parentReply : option ObjectId;
  f_isEdited : bool;
  f_editedAt : option N;
  f_createdAt : N
}.

(** A reply owns the array of the replies below it.  The array is a list
    type of its own, declared together with [Reply], so that the searches
    of the handlers recurse on it the way the source does: into
    [reply.replies] and on through the rest of the array. *)
Inductive Reply :=
| mkReply (fields : ReplyFields) (replies : Replies)
with Replies :=
| rnil
| rcons (reply : Reply) (rest : Replies).

Definition r_fields (r : Reply) : ReplyFields :=
  match r with mkReply f _ => f end.
Definition r_replies (r : Reply) : Replies :=
  match r with mkReply _ rs => rs end.
Definition r_id (r : Reply) : option ObjectId := f_id (r_fields r).
Definition r_author (r : Reply) : ObjectId := f_author (r_fields r).
Definition r_content (r : Reply) : string := f_content (r_fields r).
Definition r_votes (r : Reply) : list Vote := f_votes (r_fields r).

Definition set_replies (r : Reply) (rs : Replies) : Reply :=
  mkReply (r_fields r) rs.

Definition set_votes (r : Reply) (vs : list Vote) : Reply :=
  let f := r_fields r in
  mkReply (mkReplyFields (f_id f) (f_author f) (f_content f) vs
             (f_parentReply f) (f_isEdited f) (f_editedAt f) (f_createdAt f))
          (r_replies r).

(** [reply.content = content; reply.isEdited = true; reply.editedAt = now]. *)
Definition set_edited (r : Reply) (content : string) (now : N) : Reply :=
  let f := r_fields r in
  mkReply (mkReplyFields (f_id f) (f_author f) content (f_votes f)
             (f_parentReply f) true (Some now) (f_createdAt f))
          (r_replies r).

(** [replies.push(r)]. *)
Fixpoint push (rs : Replies) (r : Reply) : Replies :=
  match rs with
  | rnil => rcons r rnil
  | rcons x rest => rcons x (push rest r)
  end.

(** [replies.length > 0]. *)
Definition nonEmpty (rs : Replies) : bool :=
  match rs with rnil => false | rcons _ _ => true end.

Inductive Role := role_user | role_moderator | role_admin.

#[global] Instance Role_eq_dec : EqDecision Role.
Proof. solve_decision. Defined.

(** Modelled from the spec: the user document.  models/User.js is not in
    the source tree; the design document and the README give a user a
    reputation (an integer, default 0) and a role.  These are the two
    fields the handlers read or write. *)
Record User := mkUser { u_reputation : Z; u_role : Role }.

(** [threadSchema]. *)
Record Thread := mkThread {
  t_title : string;
  t_content : string;
  t_author : ObjectId;
  t_category : ObjectId;
  t_tags : list ObjectId;
  t_votes : list Vote;
  t_replies : Replies;
  t_views : Z;
  t_isPinned : bool;
  t_isLocked : bool;
  t_lastActivity : N
}.

(** [tagSchema]. *)
Record Tag := mkTag { tag_id : ObjectId; tag_name : string; tag_usageCount : Z }.

(** The part of a category document the handlers read or write. *)
Record Category := mkCategory { c_name : string; c_threadCount : Z }.

(** The collections.  Threads, users and categories are only ever reached
    by [_id]; tags are also searched by name, so the tag collection keeps
    its documents in their natural order. *)
Record DB := mkDB {
  threads : gmap ObjectId Thread;
  users : gmap ObjectId User;
  categories : gmap ObjectId Category;
  tags : list Tag
}.

(** Modelled from the spec: [req.user], the identity the authentication
    middleware (middleware/auth.js, not in the source tree) resolves a
    request to: a user id and a role. *)
Record Requester := mkRequester { q_id : ObjectId; q_role : Role }.

(** ** Responses *)

Inductive Payload :=
| NoPayload
| VotePayload (voteScore : Z) (userVote : option VoteType)
| ReplyPayload (reply : ReplyFields)
| TagPayload (id : ObjectId) (name : string) (usageCount : Z)
| ThreadPayload (id : ObjectId) (tagIds : list ObjectId).

Record Response := mkResponse {
  status : nat;
  message : string;
  payload : Payload
}.

(** The failure kinds of the design document, read off the status code. *)
Definition NotFound (r : Response) : Prop := status r = 404%nat.
Definition Forbidden (r : Response) : Prop := status r = 403%nat.
Definition InvalidInput (r : Response) : Prop := status r = 400%nat.

(** ** Vote ledger (routes/votes.js) *)

(** [['upvote', 'downvote'].includes(type)], with the enum value the
    string stands for. *)
Definition parseVoteType (type : string) : option VoteType :=
  if String.eqb type "upvote" then Some upvote
  else if String.eqb type "downvote" then Some downvote
  else None.

Definition showVoteType (t : VoteType) : string :=
  match t with upvote => "upvote" | downvote => "downvote" end.

(** [votes.findIndex(vote => vote.user.toString() === id)]; [None] is the
    [-1] of JavaScript. *)
Fixpoint findIndex (id : ObjectId) (votes : list Vote) : option nat :=
  match votes with
  | [] => None
  | vote :: rest =>
      if String.eqb (v_user vote) id then Some 0%nat
      else S <$> findIndex id rest
  end.

(** [votes.find(v => v.user.toString() === id)]. *)
Fixpoint findVote (id : ObjectId) (votes : list Vote) : option Vote :=
  match votes with
  | [] => None
  | vote :: rest =>
      if String.eqb (v_user vote) id then Some vote else findVote id rest
  end.

(** The branching on the voter's existing vote, written out twice in
    votes.js (lines 22-48 for a thread, 96-122 for a reply): the vote
    array it leaves and [voteChange]. *)
Definition castVote (votes : list Vote) (voter : ObjectId) (type : VoteType)
  : list Vote * Z :=
  match findIndex voter votes with
  | Some existingVoteIndex =>
      match votes !! existingVoteIndex with
      | Some existingVote =>
          if decide (v_type existingVote = type) then
            (* Remove vote if same type *)
            (delete existingVoteIndex votes,
             if decide (type = upvote) then -1 else 1)
          else
            (* Change vote type *)
            (<[existingVoteIndex := mkVote (v_user existingVote) type]> votes,
             if decide (type = upvote) then 2 else -2)
      | None => (votes, 0) (* findIndex only returns positions of the array *)
      end
  | None =>
      (* Add new vote *)
      (votes ++ [mkVote voter type],
       if decide (type = upvote) then 1 else -1)
  end.

Definition upvotes (votes : list Vote) : Z :=
  Z.of_nat (length (filter (λ v, v_type v = upvote) votes)).
Definition downvotes (votes : list Vote) : Z :=
  Z.of_nat (length (filter (λ v, v_type v = downvote) votes)).

(** [voteScore = upvotes - downvotes]. *)
Definition voteScore (votes : list Vote) : Z := upvotes votes - downvotes votes.

(** [author.reputation = Math.max(0, author.reputation + voteChange)]. *)
Definition adjustReputation (author : User) (voteChange : Z) : User :=
  mkUser (Z.max 0 (u_reputation author + voteChange)) (u_role author).

(** [User.findById(id)] followed by the guarded update and [author.save()]. *)
Definition updateAuthorReputation (id : ObjectId) (voteChange : Z)
    (us : gmap ObjectId User) : gmap ObjectId User :=
  match us !! id with
  | Some author => <[id := adjustReputation author voteChange]> us
  | None => us
  end.

Definition set_thread_votes (t : Thread) (vs : list Vote) : Thread :=
  mkThread (t_title t) (t_content t) (t_author t) (t_category t) (t_tags t)
    vs (t_replies t) (t_views t) (t_isPinned t) (t_isLocked t)
    (t_lastActivity t).

(** [thread.replies = rs] and [thread.lastActivity = now]; every handler
    that saves a changed reply tree ends with this date, either set by the
    handler or by the [pre('save')] hook of the schema. *)
Definition set_thread_replies (t : Thread) (rs : Replies) (now : N) : Thread :=
  mkThread (t_title t) (t_content t) (t_author t) (t_category t) (t_tags t)
    (t_votes t) rs (t_views t) (t_isPinned t) (t_isLocked t) now.

Definition set_thread_tags (t : Thread) (ts : list ObjectId) : Thread :=
  mkThread (t_title t) (t_content t) (t_author t) (t_category t) ts
    (t_votes t) (t_replies t) (t_views t) (t_isPinned t) (t_isLocked t)
    (t_lastActivity t).

Definition set_threads (db : DB) (ts : gmap ObjectId Thread) : DB :=
  mkDB ts (users db) (categories db) (tags db).
Definition set_users (db : DB) (us : gmap ObjectId User) : DB :=
  mkDB (threads db) us (categories db) (tags db).
Definition set_tags (db : DB) (tg : list Tag) : DB :=
  mkDB (threads db) (users db) (categories db) tg.
Definition set_categories (db : DB) (cs : gmap ObjectId Category) : DB :=
  mkDB (threads db) (users db) cs (tags db).

(** [POST /threads/:threadId] of votes.js. *)
Definition voteOnThread (db : DB) (user : Requester) (threadId : ObjectId)
    (type : string) : DB * Response :=
  match parseVoteType type with
  | None => (db, mkResponse 400 "Invalid vote type" NoPayload)
  | Some ty =>
      match threads db !! threadId with
      | None => (db, mkResponse 404 "Thread not found" NoPayload)
      | Some thread =>
          let '(votes', voteChange) := castVote (t_votes thread) (q_id user) ty in
          let thread' := set_thread_votes thread votes' in
          (* await thread.save() *)
          let db1 := set_threads db (<[threadId := thread']> (threads db)) in
          (* Update author reputation *)
          let db2 :=
            set_users db1
              (updateAuthorReputation (t_author thread') voteChange (users db1)) in
          (* Get user's current vote *)
          let userVote := findVote (q_id user) votes' in
          (db2, mkResponse 200 "Vote recorded successfully"
                  (VotePayload (voteScore votes') (v_type <$> userVote)))
      end
  end.

(** ** Request validation (middleware/validation.js) *)

(** White space as [trim()] removes it, among the ASCII characters: tab,
    line feed, vertical tab, form feed, carriage return and space. *)
Definition isSpace (c : Ascii.ascii) : bool :=
  let n := Ascii.nat_of_ascii c in
  (Nat.leb 9 n && Nat.leb n 13) || Nat.eqb n 32.

Fixpoint trimStart (s : string) : string :=
  match s with
  | EmptyString => EmptyString
  | String c rest => if isSpace c then trimStart rest else s
  end.

Fixpoint trimEnd (s : string) : string :=
  match s with
  | EmptyString => EmptyString
  | String c rest =>
      match trimEnd rest with
      | EmptyString => if isSpace c then EmptyString else String c EmptyString
      | rest' => String c rest'
      end
  end.

(** [trim()], of the validation chains and of the schemas. *)
Definition trim (s : string) : string := trimEnd (trimStart s).

(** [isLength({ min, max })], on the value as the request carries it. *)
Definition isLength (min max : N) (s : string) : bool :=
  N.leb min (N.of_nat (String.length s))
  && N.leb (N.of_nat (String.length s)) max.

(** [validateReply]: the content has 1 to 5000 characters.  A request that
    fails is answered 400 by [handleValidationErrors]; for one that passes
    the chain goes on to [trim()], so the handler reads the content
    trimmed. *)
Definition validateReply (content : string) : bool := isLength 1 5000 content.

(** [validateThread]: title of 5 to 200 and content of 10 to 10000
    characters, the category a Mongo id (which ids are here), and [tags],
    if the body has them, an array of at most 5. *)
Definition validateThread (title content : string)
    (tags : option (list string)) : bool :=
  isLength 5 200 title && isLength 10 10000 content
  && match tags with
     | Some names => Nat.leb (length names) 5
     | None => true
     end.

(** ** Reply tree (routes/replies.js, routes/votes.js) *)

(** A value of the request body used as a condition: [null], a missing
    field and the empty string are falsy. *)
Definition truthy (v : option string) : option string :=
  match v with
  | Some s => if String.eqb s "" then None else Some s
  | None => None
  end.

(** What [findAndAddReply] comes to: [true], [false], or the TypeError of
    [reply._id.toString()] at a reply without [_id]. *)
Inductive AddResult := add_true | add_false | add_thrown.

(** [findAndAddReply] of the add-reply handler: the JavaScript result and
    the array as the call leaves it. *)
Fixpoint findAndAddReply (parentReplyId : string) (newReply : Reply)
    (replies : Replies) : AddResult * Replies :=
  match replies with
  | rnil => (add_false, rnil)
  | rcons reply rest =>
      match r_id reply with
      | None => (add_thrown, rcons reply rest)
      | Some id =>
          if String.eqb id parentReplyId then
            (add_true,
             rcons (set_replies reply (push (r_replies reply) newReply)) rest)
          else
            let '(found, nested) :=
              if nonEmpty (r_replies reply)
              then findAndAddReply parentReplyId newReply (r_replies reply)
              else (add_false, r_replies reply) in
            match found with
            | add_false =>
                let '(found', rest') :=
                  findAndAddReply parentReplyId newReply rest in
                (found', rcons (set_replies reply nested) rest')
            | _ => (found, rcons (set_replies reply nested) rest)
            end
      end
  end.

(** What [findReply] comes to: the reply, [null], or the TypeError of
    [reply.author._id] at a reply whose populated author is [null]. *)
Inductive FindResult := find_reply (r : Reply) | find_null | find_thrown.

(** [findReply] of the add-reply handler: the first reply, in document
    order, with the author, content and creation date of the new one.  It
    runs after [thread.populate('replies.author')], which has replaced the
    author of every document of [thread.replies] by the user document, or
    by [null] when there is none: [populated id] says that user [id] has a
    document.  [top] says that the array is [thread.replies]; below it the
    author of a reply is still the ObjectId. *)
Fixpoint findReply (populated : ObjectId → bool) (author : ObjectId)
    (content : string) (createdAt : N) (top : bool) (replies : Replies)
  : FindResult :=
  match replies with
  | rnil => find_null
  | rcons reply rest =>
      if top && negb (populated (r_author reply)) then find_thrown
      else if String.eqb (r_author reply) author
              && String.eqb (r_content reply) content
              && N.eqb (f_createdAt (r_fields reply)) createdAt
      then find_reply reply
      else
        match (if nonEmpty (r_replies reply)
               then findReply populated author content createdAt false
                      (r_replies reply)
               else find_null) with
        | find_null => findReply populated author content createdAt top rest
        | found => found
        end
  end.

(** [replies[replies.length - 1]]. *)
Fixpoint lastReply (rs : Replies) : option Reply :=
  match rs with
  | rnil => None
  | rcons r rnil => Some r
  | rcons _ rest => lastReply rest
  end.

(** Where the searches of the handlers come to for an id: they walk the
    tree in document order, throw at the first reply without [_id], and
    stop at the first reply with the id; [depth] is 0 for a document of
    [thread.replies], 1 for an element of the [replies] array of such a
    document, and so on. *)
Inductive Located :=
| loc_hit (depth : nat) (reply : Reply)
| loc_none
| loc_thrown.

Fixpoint locate (replyId : string) (depth : nat) (replies : Replies)
  : Located :=
  match replies with
  | rnil => loc_none
  | rcons reply rest =>
      match r_id reply with
      | None => loc_thrown
      | Some id =>
          if String.eqb id replyId then loc_hit depth reply
          else
            match locate replyId (S depth) (r_replies reply) with
            | loc_none => locate replyId depth rest
            | found => found
            end
      end
  end.

(** What [thread.save()] writes after a search has changed the tree,
    by the depth of the reply the search stopped at.  A change of a field
    or of the votes of a reply is recorded when the reply is a document
    (depth 0); a [push] to the [replies] array of a reply when that reply
    is a document (depth 0); a [splice] of a reply from its array when the
    array is [thread.replies] or the [replies] array of a document (depth
    0 or 1). *)
Definition savesFieldsAt (depth : nat) : bool := Nat.eqb depth 0.
Definition savesPushBelow (depth : nat) : bool := Nat.eqb depth 0.
Definition savesSpliceAt (depth : nat) : bool := Nat.leb depth 1.

(** Whether Mongoose has recorded the change of the search for [replyId]. *)
Definition recorded (saves : nat → bool) (replyId : string)
    (replies : Replies) : bool :=
  match locate replyId 0 replies with
  | loc_hit depth _ => saves depth
  | _ => false
  end.

(** [User.findById(id)] finds a document: what [populate] puts in place
    of the id is not [null]. *)
Definition hasUser (db : DB) (id : ObjectId) : bool :=
  bool_decide (is_Some (users db !! id)).

(** [POST /:threadId] of replies.js, behind [validateReply].  [newId] is
    the [_id] a new document of [thread.replies] receives and [now] the
    value of [new Date()].  A reply pushed below another is stored as the
    plain object the handler built, without [_id].  The replySchema
    requires a content, so [thread.save()] throws for a new top-level
    reply whose trimmed content is empty. *)
Definition addReply (db : DB) (user : Requester) (threadId : ObjectId)
    (content : string) (parentReplyId : option string)
    (newId : ObjectId) (now : N) : DB * Response :=
  if negb (validateReply content) then
    (db, mkResponse 400 "Validation failed" NoPayload)
  else
    let content := trim content in
    match threads db !! threadId with
    | None => (db, mkResponse 404 "Thread not found" NoPayload)
    | Some thread =>
        if t_isLocked thread then
          (db, mkResponse 403 "Thread is locked" NoPayload)
        else
          let newReply (id : option ObjectId) :=
            mkReply (mkReplyFields id (q_id user) content []
                       (truthy parentReplyId) false None now) rnil in
          match truthy parentReplyId with
          | Some pid =>
              (* Find parent reply and add as nested reply *)
              match findAndAddReply pid (newReply None) (t_replies thread) with
              | (add_thrown, _) =>
                  (db, mkResponse 500 "Server error" NoPayload)
              | (add_false, _) =>
                  (db, mkResponse 404 "Parent reply not found" NoPayload)
              | (add_true, replies') =>
                  (* thread.lastActivity = new Date(); await thread.save() *)
                  let saved :=
                    if recorded savesPushBelow pid (t_replies thread)
                    then replies' else t_replies thread in
                  let db' :=
                    set_threads db
                      (<[threadId := set_thread_replies thread saved now]>
                         (threads db)) in
                  (* Find the newly added reply *)
                  match findReply (hasUser db) (q_id user) content now true
                          replies' with
                  | find_reply r =>
                      (db', mkResponse 201 "Reply added successfully"
                              (ReplyPayload (r_fields r)))
                  | _ => (db', mkResponse 500 "Server error" NoPayload)
                  end
              end
          | None =>
              (* Add as top-level reply *)
              if String.eqb content "" then
                (db, mkResponse 500 "Server error" NoPayload)
              else
                let replies' := push (t_replies thread) (newReply (Some newId)) in
                let db' :=
                  set_threads db
                    (<[threadId := set_thread_replies thread replies' now]>
                       (threads db)) in
                match lastReply replies' with
                | Some r =>
                    (db', mkResponse 201 "Reply added successfully"
                            (ReplyPayload (r_fields r)))
                | None => (db', mkResponse 500 "Server error" NoPayload)
                end
          end
    end.

(** [reply.author.toString() !== req.user._id.toString() &&
     req.user.role !== 'admin']. *)
Definition notAuthorized (user : Requester) (reply : Reply) : bool :=
  negb (String.eqb (r_author reply) (q_id user))
  && negb (bool_decide (q_role user = role_admin)).

(** What [findAndUpdateReply] comes to: the reply, [null], or a throw:
    the ['Not authorized'] error or the TypeError of [reply._id.toString()]
    at a reply without [_id]. *)
Inductive UpdateResult :=
| update_reply (r : Reply)
| update_null
| update_thrown.

Fixpoint findAndUpdateReply (user : Requester) (replyId : string)
    (content : string) (now : N) (replies : Replies)
  : UpdateResult * Replies :=
  match replies with
  | rnil => (update_null, rnil)
  | rcons reply rest =>
      match r_id reply with
      | None => (update_thrown, rcons reply rest)
      | Some id =>
          if String.eqb id replyId then
            (* Check if user is author or admin *)
            if notAuthorized user reply then (update_thrown, rcons reply rest)
            else
              let reply' := set_edited reply content now in
              (update_reply reply', rcons reply' rest)
          else
            let '(found, nested) :=
              if nonEmpty (r_replies reply)
              then findAndUpdateReply user replyId content now (r_replies reply)
              else (update_null, r_replies reply) in
            match found with
            | update_null =>
                let '(found', rest') :=
                  findAndUpdateReply user replyId content now rest in
                (found', rcons (set_replies reply nested) rest')
            | _ => (found, rcons (set_replies reply nested) rest)
            end
      end
  end.

(** [PUT /:threadId/replies/:replyId] of replies.js, behind
    [validateReply].  The inner [try] holds the search and
    [thread.save()], and its [catch] answers 403 whatever was thrown: the
    ['Not authorized'] error, the TypeError of the search, or the
    validation error of [thread.save()] for a document of [thread.replies]
    whose content has become empty. *)
Definition updateReply (db : DB) (user : Requester) (threadId : ObjectId)
    (replyId : string) (content : string) (now : N) : DB * Response :=
  if negb (validateReply content) then
    (db, mkResponse 400 "Validation failed" NoPayload)
  else
    let content := trim content in
    match threads db !! threadId with
    | None => (db, mkResponse 404 "Thread not found" NoPayload)
    | Some thread =>
        match findAndUpdateReply user replyId content now (t_replies thread) with
        | (update_thrown, _) =>
            (db, mkResponse 403 "Not authorized to edit this reply" NoPayload)
        | (update_null, _) => (db, mkResponse 404 "Reply not found" NoPayload)
        | (update_reply updatedReply, replies') =>
            (* await thread.save() *)
            if recorded savesFieldsAt replyId (t_replies thread) then
              if String.eqb content "" then
                (db, mkResponse 403 "Not authorized to edit this reply"
                       NoPayload)
              else
                (set_threads db
                   (<[threadId := set_thread_replies thread replies' now]>
                      (threads db)),
                 mkResponse 200 "Reply updated successfully"
                   (ReplyPayload (r_fields updatedReply)))
            else
              (db, mkResponse 200 "Reply updated successfully"
                     (ReplyPayload (r_fields updatedReply)))
        end
    end.

(** What [findAndRemoveReply] comes to: [true], [false], or a throw: the
    ['Not authorized'] error or the TypeError of [reply._id.toString()] at
    a reply without [_id]. *)
Inductive RemoveResult := remove_true | remove_false | remove_thrown.

#[global] Instance RemoveResult_eq_dec : EqDecision RemoveResult.
Proof. solve_decision. Defined.

Fixpoint findAndRemoveReply (user : Requester) (replyId : string)
    (replies : Replies) : RemoveResult * Replies :=
  match replies with
  | rnil => (remove_false, rnil)
  | rcons reply rest =>
      match r_id reply with
      | None => (remove_thrown, rcons reply rest)
      | Some id =>
          if String.eqb id replyId then
            (* Check if user is author or admin *)
            if notAuthorized user reply then (remove_thrown, rcons reply rest)
            else
              (* Remove the reply: replies.splice(i, 1) *)
              (remove_true, rest)
          else
            let '(removed, nested) :=
              if nonEmpty (r_replies reply)
              then findAndRemoveReply user replyId (r_replies reply)
              else (remove_false, r_replies reply) in
            match removed with
            | remove_false =>
                let '(removed', rest') :=
                  findAndRemoveReply user replyId rest in
                (removed', rcons (set_replies reply nested) rest')
            | _ => (removed, rcons (set_replies reply nested) rest)
            end
      end
  end.

(** [DELETE /:threadId/replies/:replyId] of replies.js; the inner [catch]
    answers 403 whatever was thrown. *)
Definition deleteReply (db : DB) (user : Requester) (threadId : ObjectId)
    (replyId : string) (now : N) : DB * Response :=
  match threads db !! threadId with
  | None => (db, mkResponse 404 "Thread not found" NoPayload)
  | Some thread =>
      match findAndRemoveReply user replyId (t_replies thread) with
      | (remove_thrown, _) =>
          (db, mkResponse 403 "Not authorized to delete this reply" NoPayload)
      | (remove_false, _) => (db, mkResponse 404 "Reply not found" NoPayload)
      | (remove_true, replies') =>
          (* await thread.save() *)
          if recorded savesSpliceAt replyId (t_replies thread) then
            (set_threads db
               (<[threadId := set_thread_replies thread replies' now]>
                  (threads db)),
             mkResponse 200 "Reply deleted successfully" NoPayload)
          else (db, mkResponse 200 "Reply deleted successfully" NoPayload)
      end
  end.

(** What [findAndVoteReply] comes to: [{ reply, voteChange }], [null], or
    the TypeError of [reply._id.toString()] at a reply without [_id]. *)
Inductive VoteResult :=
| vote_found (reply : Reply) (voteChange : Z)
| vote_null
| vote_thrown.

(** [findAndVoteReply] of the reply-vote handler, and the array as the
    call leaves it. *)
Fixpoint findAndVoteReply (user : Requester) (replyId : string)
    (type : VoteType) (replies : Replies) : VoteResult * Replies :=
  match replies with
  | rnil => (vote_null, rnil)
  | rcons reply rest =>
      match r_id reply with
      | None => (vote_thrown, rcons reply rest)
      | Some id =>
          if String.eqb id replyId then
            let '(votes', voteChange) :=
              castVote (r_votes reply) (q_id user) type in
            let reply' := set_votes reply votes' in
            (vote_found reply' voteChange, rcons reply' rest)
          else
            let '(result, nested) :=
              if nonEmpty (r_replies reply)
              then findAndVoteReply user replyId type (r_replies reply)
              else (vote_null, r_replies reply) in
            match result with
            | vote_null =>
                let '(result', rest') :=
                  findAndVoteReply user replyId type rest in
                (result', rcons (set_replies reply nested) rest')
            | _ => (result, rcons (set_replies reply nested) rest)
            end
      end
  end.

(** [POST /threads/:threadId/replies/:replyId] of votes.js.  The score and
    the voter's vote of the response are read from the reply in memory,
    and the author's reputation is updated, whether or not
    [thread.save()] has written the vote. *)
Definition voteOnReply (db : DB) (user : Requester) (threadId : ObjectId)
    (replyId : string) (type : string) (now : N) : DB * Response :=
  match parseVoteType type with
  | None => (db, mkResponse 400 "Invalid vote type" NoPayload)
  | Some ty =>
      match threads db !! threadId with
      | None => (db, mkResponse 404 "Thread not found" NoPayload)
      | Some thread =>
          match findAndVoteReply user replyId ty (t_replies thread) with
          | (vote_thrown, _) => (db, mkResponse 500 "Server error" NoPayload)
          | (vote_null, _) => (db, mkResponse 404 "Reply not found" NoPayload)
          | (vote_found reply voteChange, replies') =>
              (* await thread.save() *)
              let db1 :=
                if recorded savesFieldsAt replyId (t_replies thread) then
                  set_threads db
                    (<[threadId := set_thread_replies thread replies' now]>
                       (threads db))
                else db in
              (* Update reply author reputation *)
              let db2 :=
                set_users db1
                  (updateAuthorReputation (r_author reply) voteChange (users db1)) in
              let userVote := findVote (q_id user) (r_votes reply) in
              (db2, mkResponse 200 "Vote recorded successfully"
                      (VotePayload (voteScore (r_votes reply)) (v_type <$> userVote)))
          end
      end
  end.


(** [calculateReplyStats] of the statistics handler:
    [{ upvotes, downvotes }] summed over every reply of the array and,
    recursively, over the replies below it. *)
Fixpoint calculateReplyStats (replies : Replies) : Z * Z :=
  match replies with
  | rnil => (0, 0)
  | rcons reply rest =>
      let '(nestedUp, nestedDown) :=
        if nonEmpty (r_replies reply)
        then calculateReplyStats (r_replies reply)
        else (0, 0) in
      let '(restUp, restDown) := calculateReplyStats rest in
      (upvotes (r_votes reply) + nestedUp + restUp,
       downvotes (r_votes reply) + nestedDown + restDown)
  end.

(** ** Tags (the thread routes, routes/tags.js) *)

(** [String.prototype.toLowerCase], on ASCII text: the letters A to Z. *)
Definition lowerAscii (c : Ascii.ascii) : Ascii.ascii :=
  let n := Ascii.nat_of_ascii c in
  if Nat.leb 65 n && Nat.leb n 90 then Ascii.ascii_of_nat (n + 32) else c.

Fixpoint toLowerCase (s : string) : string :=
  match s with
  | EmptyString => EmptyString
  | String c rest => String (lowerAscii c) (toLowerCase rest)
  end.

(** The setters of [name] in [tagSchema], [trim: true] and
    [lowercase: true].  Mongoose runs them on the name given to [new Tag]
    and on the name of the condition of [Tag.findOne]. *)
Definition tagNameSetters (name : string) : string :=
  toLowerCase (trim name).

(** The validators of [name] in [tagSchema], [required: true] and
    [maxlength: 30], which [tag.save()] runs on the name of a new tag: a
    name that fails them makes [save] throw. *)
Definition validTagName (name : string) : bool :=
  negb (String.eqb name "") && Nat.leb (String.length name) 30.

(** [Tag.findOne({ name })]: the first document of that name. *)
Fixpoint findOneByName (name : string) (docs : list Tag) : option Tag :=
  match docs with
  | [] => None
  | doc :: rest =>
      if String.eqb (tag_name doc) name then Some doc
      else findOneByName name rest
  end.

(** [Tag.findById(id)]. *)
Fixpoint findTagById (id : ObjectId) (docs : list Tag) : option Tag :=
  match docs with
  | [] => None
  | doc :: rest =>
      if String.eqb (tag_id doc) id then Some doc else findTagById id rest
  end.

(** [tag.save()]: replaces the stored document of the same [_id], or
    inserts the document when it is new. *)
Fixpoint saveTag (tag : Tag) (docs : list Tag) : list Tag :=
  match docs with
  | [] => [tag]
  | doc :: rest =>
      if String.eqb (tag_id doc) (tag_id tag) then tag :: rest
      else doc :: saveTag tag rest
  end.

(** [Tag.findByIdAndDelete(id)]. *)
Fixpoint deleteTagById (id : ObjectId) (docs : list Tag) : list Tag :=
  match docs with
  | [] => []
  | doc :: rest =>
      if String.eqb (tag_id doc) id then rest else doc :: deleteTagById id rest
  end.

Definition set_usageCount (tag : Tag) (n : Z) : Tag :=
  mkTag (tag_id tag) (tag_name tag) n.

(** The body of the tag loop of the create-thread handler ("Process
    tags"): find the tag of the lower-cased name or create and
    save it, add one to its usage counter, save it.  [newId k] is the
    [_id] of the k-th document created with [new Tag] during the request,
    [created] the number created so far.  [None] when the first [save] of
    a new tag throws; nothing is written then. *)
Definition processTag (newId : nat → ObjectId) (created : nat)
    (tagName : string) (docs : list Tag) : option (Tag * list Tag * nat) :=
  let name := tagNameSetters (toLowerCase tagName) in
  let bump (found : Tag * list Tag * nat) :=
    let '(tag, docs1, created') := found in
    let tag' := set_usageCount tag (tag_usageCount tag + 1) in
    (tag', saveTag tag' docs1, created') in
  match findOneByName name docs with
  | Some tag => Some (bump (tag, docs, created))
  | None =>
      if validTagName name then
        let tag := mkTag (newId created) name 0 in
        Some (bump (tag, saveTag tag docs, S created))
      else None
  end.

(** The tag loop: the tag collection it leaves, and [tagIds], or [None]
    when a [save] has thrown; what the turns before have saved stays. *)
Fixpoint processTags (newId : nat → ObjectId) (created : nat)
    (tagNames : list string) (docs : list Tag)
  : list Tag * option (list ObjectId) :=
  match tagNames with
  | [] => (docs, Some [])
  | tagName :: more =>
      match processTag newId created tagName docs with
      | None => (docs, None)
      | Some (tag, docs', created') =>
          let '(docs'', tagIds) := processTags newId created' more docs' in
          (docs'', cons (tag_id tag) <$> tagIds)
      end
  end.

(** [POST /] of the thread routes, behind [validateThread].  [threadId] is
    the [_id] of the new thread; [tagNames] is the [tags] of the body, the
    empty list also when the body has none.  The handler reads the title
    and the content trimmed.  The threadSchema requires both, so
    [thread.save()] throws when one of them is empty; the tags are saved
    by then. *)
Definition createThread (db : DB) (user : Requester) (title content : string)
    (category : ObjectId) (tagNames : list string)
    (threadId : ObjectId) (newTagId : nat → ObjectId) (now : N)
  : DB * Response :=
  if negb (validateThread title content (Some tagNames)) then
    (db, mkResponse 400 "Validation failed" NoPayload)
  else
    let title := trim title in
    let content := trim content in
    (* Verify category exists *)
    match categories db !! category with
    | None => (db, mkResponse 400 "Invalid category" NoPayload)
    | Some categoryDoc =>
        (* Process tags *)
        match processTags newTagId 0 tagNames (tags db) with
        | (docs', None) =>
            (set_tags db docs', mkResponse 500 "Server error" NoPayload)
        | (docs', Some tagIds) =>
            let db1 := set_tags db docs' in
            (* Create thread *)
            if String.eqb title "" || String.eqb content "" then
              (db1, mkResponse 500 "Server error" NoPayload)
            else
              let thread :=
                mkThread title content (q_id user) category tagIds [] rnil 0
                  false false now in
              let db2 := set_threads db1 (<[threadId := thread]> (threads db1)) in
              (* Update category thread count *)
              let categoryDoc' :=
                mkCategory (c_name categoryDoc) (c_threadCount categoryDoc + 1) in
              let db3 :=
                set_categories db2
                  (<[category := categoryDoc']> (categories db2)) in
              (db3, mkResponse 201 "Thread created successfully"
                      (ThreadPayload threadId tagIds))
        end
    end.

(** The update [{ $set: { "tags.$": target } }] on a thread matched by
    [{ tags: source }]: the positional operator stands for the first
    element of the array that matches the query. *)
Fixpoint setFirstMatch (source target : ObjectId) (ids : list ObjectId)
  : list ObjectId :=
  match ids with
  | [] => []
  | id :: rest =>
      if String.eqb id source then target :: rest
      else id :: setFirstMatch source target rest
  end.

(** [Thread.updateMany({ tags: source }, { $set: { "tags.$": target } })]. *)
Definition repointThreads (source target : ObjectId)
    (ts : gmap ObjectId Thread) : gmap ObjectId Thread :=
  (λ t, set_thread_tags t (setFirstMatch source target (t_tags t))) <$> ts.

(** [POST /:tagId/merge] of tags.js, behind the admin-only middleware. *)
Definition mergeTags (db : DB) (tagId : ObjectId)
    (targetTagId : option string) : DB * Response :=
  match truthy targetTagId with
  | None => (db, mkResponse 400 "Target tag ID is required" NoPayload)
  | Some targetId =>
      match findTagById tagId (tags db), findTagById targetId (tags db) with
      | Some sourceTag, Some targetTag =>
          if String.eqb (tag_id sourceTag) (tag_id targetTag) then
            (db, mkResponse 400 "Cannot merge tag with itself" NoPayload)
          else
            (* Update all threads using source tag to use target tag *)
            let db1 :=
              set_threads db
                (repointThreads (tag_id sourceTag) (tag_id targetTag) (threads db)) in
            (* Update target tag usage count *)
            let targetTag' :=
              set_usageCount targetTag
                (tag_usageCount targetTag + tag_usageCount sourceTag) in
            let db2 := set_tags db1 (saveTag targetTag' (tags db1)) in
            (* Delete source tag *)
            let db3 := set_tags db2 (deleteTagById (tag_id sourceTag) (tags db2)) in
            (db3, mkResponse 200 "Tags merged successfully"
                    (TagPayload (tag_id targetTag') (tag_name targetTag')
                       (tag_usageCount targetTag')))
      | _, _ => (db, mkResponse 404 "One or both tags not found" NoPayload)
      end
  end.

(** ** Further handlers *)

(** One of the three blocks of the statistics response:
    [{ upvotes, downvotes, score }]. *)
Record VoteStats := mkVoteStats {
  s_upvotes : Z;
  s_downvotes : Z;
  s_score : Z
}.

Inductive StatsResponse :=
| stats_error (status : nat) (message : string)
| stats_ok (thread replies total : VoteStats).

(** [GET /threads/:threadId/stats] of votes.js; it writes nothing. *)
Definition getVoteStats (db : DB) (threadId : ObjectId) : StatsResponse :=
  match threads db !! threadId with
  | None => stats_error 404 "Thread not found"
  | Some thread =>
      let up := upvotes (t_votes thread) in
      let down := downvotes (t_votes thread) in
      (* Calculate reply vote stats *)
      let replyStats := calculateReplyStats (t_replies thread) in
      stats_ok
        (mkVoteStats up down (up - down))
        (mkVoteStats replyStats.1 replyStats.2 (replyStats.1 - replyStats.2))
        (mkVoteStats (up + replyStats.1) (down + replyStats.2)
           ((up - down) + (replyStats.1 - replyStats.2)))
  end.

(** [replies.length]: the [replyCount] virtual of the thread schema and the
    [replyCount] of the thread lists. *)
Fixpoint repliesLength (rs : Replies) : nat :=
  match rs with
  | rnil => 0%nat
  | rcons _ rest => S (repliesLength rest)
  end.

(** [thread.author.toString() !== req.user._id.toString() &&
     req.user.role !== 'admin']. *)
Definition threadNotAuthorized (user : Requester) (thread : Thread) : bool :=
  negb (String.eqb (t_author thread) (q_id user))
  && negb (bool_decide (q_role user = role_admin)).

(** The loop "Update tag usage counts" of the delete-thread handler (the
    edit-thread handler has the same loop under "Decrease usage count for
    old tags"): every id of the thread's tag array takes one off the
    counter of its tag, not below 0; an id without a tag is skipped. *)
Fixpoint releaseTags (tagIds : list ObjectId) (docs : list Tag) : list Tag :=
  match tagIds with
  | [] => docs
  | tagId :: more =>
      let docs' :=
        match findTagById tagId docs with
        | Some tag =>
            saveTag (set_usageCount tag (Z.max 0 (tag_usageCount tag - 1))) docs
        | None => docs
        end in
      releaseTags more docs'
  end.

(** [DELETE /:threadId] of the thread routes. *)
Definition deleteThread (db : DB) (user : Requester) (threadId : ObjectId)
  : DB * Response :=
  match threads db !! threadId with
  | None => (db, mkResponse 404 "Thread not found" NoPayload)
  | Some thread =>
      (* Check permissions *)
      if threadNotAuthorized user thread then
        (db, mkResponse 403 "Not authorized to delete this thread" NoPayload)
      else
        (* Update category thread count *)
        let db1 :=
          match categories db !! t_category thread with
          | Some category =>
              set_categories db
                (<[t_category thread :=
                     mkCategory (c_name category)
                       (Z.max 0 (c_threadCount category - 1))]> (categories db))
          | None => db
          end in
        (* Update tag usage counts *)
        let db2 := set_tags db1 (releaseTags (t_tags thread) (tags db1)) in
        let db3 := set_threads db2 (delete threadId (threads db2)) in
        (db3, mkResponse 200 "Thread deleted successfully" NoPayload)
  end.

(** [DELETE /:tagId] of tags.js, behind the admin-only middleware. *)
Definition deleteTag (db : DB) (tagId : ObjectId) : DB * Response :=
  match findTagById tagId (tags db) with
  | None => (db, mkResponse 404 "Tag not found" NoPayload)
  | Some tag =>
      if Z.ltb 0 (tag_usageCount tag) then
        (db, mkResponse 400 "Cannot delete tag that is currently in use" NoPayload)
      else
        (set_tags db (deleteTagById tagId (tags db)),
         mkResponse 200 "Tag deleted successfully" NoPayload)
  end.

(** [DELETE /:categoryId] of the category routes (which the source tree
    carries at the end of routes/replies.js), behind the admin-only
    middleware. *)
Definition deleteCategory (db : DB) (categoryId : ObjectId) : DB * Response :=
  match categories db !! categoryId with
  | None => (db, mkResponse 404 "Category not found" NoPayload)
  | Some category =>
      if Z.ltb 0 (c_threadCount category) then
        (db, mkResponse 400
               "Cannot delete category with existing threads. Move threads to another category first."
               NoPayload)
      else
        (set_categories db (delete categoryId (categories db)),
         mkResponse 200 "Category deleted successfully" NoPayload)
  end.

(** One reply as the thread page returns it: the object [processReplies]
    builds, without the array of the replies below it.  [rv_id] is [None]
    for a reply stored without [_id]; [rv_author] is what [populate] has
    left in [author]: for a document of [thread.replies] the user document
    (which stands as its id) or [null], below it the id as stored. *)
Record ReplyViewFields := mkReplyViewFields {
  rv_id : option ObjectId;
  rv_content : string;
  rv_author : option ObjectId;
  rv_voteScore : Z;
  rv_userVote : option VoteType;
  rv_parentReply : option ObjectId;
  rv_isEdited : bool;
  rv_editedAt : option N;
  rv_createdAt : N
}.

Inductive ReplyView :=
| mkReplyView (fields : ReplyViewFields) (replies : ReplyViews)
with ReplyViews :=
| vnil
| vcons (reply : ReplyView) (rest : ReplyViews).

Definition v_fields (v : ReplyView) : ReplyViewFields :=
  match v with mkReplyView f _ => f end.
Definition v_replies (v : ReplyView) : ReplyViews :=
  match v with mkReplyView _ vs => vs end.

(** [userVote]: [null] without a requester, else the type of the
    requester's vote found with [votes.find], or [null]. *)
Definition userVoteOf (user : option Requester) (votes : list Vote)
  : option VoteType :=
  match user with
  | Some u => v_type <$> findVote (q_id u) votes
  | None => None
  end.

(** What [populate] leaves in a path that refers to a user. *)
Definition populateUser (db : DB) (id : ObjectId) : option ObjectId :=
  if hasUser db id then Some id else None.

(** [processReplies] of the thread page ("Process replies with vote
    scores").  [top] says that the array is [thread.replies], whose
    authors [populate('replies.author')] has replaced. *)
Fixpoint processReplies (db : DB) (user : option Requester) (top : bool)
    (replies : Replies) : ReplyViews :=
  match replies with
  | rnil => vnil
  | rcons reply rest =>
      let replyVoteScore := upvotes (r_votes reply) - downvotes (r_votes reply) in
      let replyUserVote := userVoteOf user (r_votes reply) in
      vcons
        (mkReplyView
           (mkReplyViewFields (r_id reply) (r_content reply)
              (if top then populateUser db (r_author reply)
               else Some (r_author reply))
              replyVoteScore replyUserVote
              (f_parentReply (r_fields reply)) (f_isEdited (r_fields reply))
              (f_editedAt (r_fields reply)) (f_createdAt (r_fields reply)))
           (processReplies db user false (r_replies reply)))
        (processReplies db user top rest)
  end.

(** The thread as the thread page returns it.  A populated document
    stands as its id: the author and the category are [None] when
    [populate] has found no document, and of the tags those without a
    document are left out.  Of the fields of the thread the object carries
    those of [Thread]. *)
Record ThreadView := mkThreadView {
  tv_id : ObjectId;
  tv_title : string;
  tv_content : string;
  tv_author : option ObjectId;
  tv_category : option ObjectId;
  tv_tags : list ObjectId;
  tv_voteScore : Z;
  tv_userVote : option VoteType;
  tv_replies : ReplyViews;
  tv_views : Z;
  tv_isPinned : bool;
  tv_isLocked : bool;
  tv_lastActivity : N
}.

Inductive ThreadResponse :=
| thread_error (status : nat) (message : string)
| thread_ok (thread : ThreadView).

Definition set_thread_views (t : Thread) (views : Z) : Thread :=
  mkThread (t_title t) (t_content t) (t_author t) (t_category t) (t_tags t)
    (t_votes t) (t_replies t) views (t_isPinned t) (t_isLocked t)
    (t_lastActivity t).


(** [!req.user || thread.author._id.toString() !== req.user._id.toString()],
    on the thread with its author populated: [None] is the TypeError of
    reading [_id] of [null], for a requester and an author without user
    document. *)
Definition countsAsView (db : DB) (thread : Thread) (user : option Requester)
  : option bool :=
  match user with
  | None => Some true
  | Some u =>
      match populateUser db (t_author thread) with
      | None => None
      | Some author => Some (negb (String.eqb author (q_id u)))
      end
  end.

(** [GET /:threadId] of the thread routes, behind [optionalAuth]: [user]
    is the requester, if the request carries one. *)
Definition getThread (db : DB) (user : option Requester) (threadId : ObjectId)
  : DB * ThreadResponse :=
  match threads db !! threadId with
  | None => (db, thread_error 404 "Thread not found")
  | Some thread =>
      (* Increment view count (only if not the author) *)
      match countsAsView db thread user with
      | None => (db, thread_error 500 "Server error")
      | Some counted =>
          let '(db', thread') :=
            if counted then
              let thread' := set_thread_views thread (t_views thread + 1) in
              (set_threads db (<[threadId := thread']> (threads db)), thread')
            else (db, thread) in
          (* Calculate vote scores and user votes *)
          let voteScore :=
            upvotes (t_votes thread') - downvotes (t_votes thread') in
          let userVote := userVoteOf user (t_votes thread') in
          (db',
           thread_ok
             (mkThreadView threadId (t_title thread') (t_content thread')
                (populateUser db (t_author thread'))
                (if bool_decide (is_Some (categories db !! t_category thread'))
                 then Some (t_category thread') else None)
                (filter (λ id, is_Some (findTagById id (tags db)))
                   (t_tags thread'))
                voteScore userVote
                (processReplies db user true (t_replies thread'))
                (t_views thread') (t_isPinned thread') (t_isLocked thread')
                (t_lastActivity thread')))
      end
  end.

(** The body of the tag loop of the edit-thread handler ("Process new
    tags"): as in the create-thread handler, but a tag that is new is
    saved once, with its counter already raised.  [None] when that [save]
    throws. *)
Definition processTagOnEdit (newId : nat → ObjectId) (created : nat)
    (tagName : string) (docs : list Tag) : option (Tag * list Tag * nat) :=
  let name := tagNameSetters (toLowerCase tagName) in
  let bump (found : Tag * nat) :=
    let '(tag, created') := found in
    let tag' := set_usageCount tag (tag_usageCount tag + 1) in
    (tag', saveTag tag' docs, created') in
  match findOneByName name docs with
  | Some tag => Some (bump (tag, created))
  | None =>
      if validTagName name
      then Some (bump (mkTag (newId created) name 0, S created))
      else None
  end.

Fixpoint processTagsOnEdit (newId : nat → ObjectId) (created : nat)
    (tagNames : list string) (docs : list Tag)
  : list Tag * option (list ObjectId) :=
  match tagNames with
  | [] => (docs, Some [])
  | tagName :: more =>
      match processTagOnEdit newId created tagName docs with
      | None => (docs, None)
      | Some (tag, docs', created') =>
          let '(docs'', tagIds) := processTagsOnEdit newId created' more docs' in
          (docs'', cons (tag_id tag) <$> tagIds)
      end
  end.

(** [PUT /:threadId] of the thread routes, behind [validateThread].
    [tagNames] is [None] when the body carries no [tags]; an array, also
    an empty one, is truthy.  The handler changes the thread in memory and
    saves it at the end, after the categories and the tags: a request
    refused before them has written nothing, and one that throws later
    leaves what was saved.  Reading [oldCategory.threadCount] of a
    category that is gone throws, as does the [save] of a new tag whose
    name the tagSchema refuses, and [thread.save()] when the trimmed title
    or content is empty; the handler answers 500.  [isEdited] and
    [editedAt], which the handler sets, are not among the fields of
    [Thread]. *)
Definition updateThread (db : DB) (user : Requester) (threadId : ObjectId)
    (title content : string) (category : ObjectId)
    (tagNames : option (list string)) (newTagId : nat → ObjectId)
  : DB * Response :=
  if negb (validateThread title content tagNames) then
    (db, mkResponse 400 "Validation failed" NoPayload)
  else
    let title := trim title in
    let content := trim content in
    match threads db !! threadId with
    | None => (db, mkResponse 404 "Thread not found" NoPayload)
    | Some thread =>
        (* Check permissions *)
        if threadNotAuthorized user thread then
          (db, mkResponse 403 "Not authorized to edit this thread" NoPayload)
        else
          (* Update category if changed *)
          let moved : Response + DB :=
            if negb (String.eqb category (t_category thread)) then
              match categories db !! category with
              | None => inl (mkResponse 400 "Invalid category" NoPayload)
              | Some newCategory =>
                  match categories db !! t_category thread with
                  | None => inl (mkResponse 500 "Server error" NoPayload)
                  | Some oldCategory =>
                      let db1 :=
                        set_categories db
                          (<[t_category thread :=
                               mkCategory (c_name oldCategory)
                                 (c_threadCount oldCategory - 1)]>
                             (categories db)) in
                      inr (set_categories db1
                             (<[category :=
                                  mkCategory (c_name newCategory)
                                    (c_threadCount newCategory + 1)]>
                                (categories db1)))
                  end
              end
            else inr db in
          match moved with
          | inl response => (db, response)
          | inr db1 =>
              (* Update tags *)
              let '(docs', tagIds) :=
                match tagNames with
                | Some names =>
                    (* Decrease usage count for old tags *)
                    let docs1 := releaseTags (t_tags thread) (tags db1) in
                    (* Process new tags *)
                    processTagsOnEdit newTagId 0 names docs1
                | None => (tags db1, Some (t_tags thread))
                end in
              let db2 := set_tags db1 docs' in
              match tagIds with
              | None => (db2, mkResponse 500 "Server error" NoPayload)
              | Some tagIds =>
                  (* await thread.save() *)
                  if String.eqb title "" || String.eqb content "" then
                    (db2, mkResponse 500 "Server error" NoPayload)
                  else
                    let thread' :=
                      mkThread title content (t_author thread) category tagIds
                        (t_votes thread) (t_replies thread) (t_views thread)
                        (t_isPinned thread) (t_isLocked thread)
                        (t_lastActivity thread) in
                    (set_threads db2 (<[threadId := thread']> (threads db2)),
                     mkResponse 200 "Thread updated successfully" NoPayload)
              end
          end
    end.

(** ** Notions the properties are stated with *)

(** The voters of a ledger, in the order of their votes. *)
Definition voters (votes : list Vote) : list ObjectId := v_user <$> votes.

(** At most one vote per voter. *)
Definition oneVotePerVoter (votes : list Vote) : Prop := NoDup (voters votes).

(** [voteChange] as the design document gives it for the three cases. *)
Definition deltaAdd (type : VoteType) : Z :=
  match type with upvote => 1 | downvote => -1 end.
Definition deltaToggleOff (type : VoteType) : Z :=
  match type with upvote => -1 | downvote => 1 end.
Definition deltaFlip (type : VoteType) : Z :=
  match type with upvote => 2 | downvote => -2 end.

Definition opposite (type : VoteType) : VoteType :=
  match type with upvote => downvote | downvote => upvote end.

(** The three-case rule of the design document, in its words: a relation
    between the ledger before the cast and the ledger and delta after it.
    "The voter's existing vote" is the first vote of the voter in the
    array. *)
Inductive ThreeCaseRule (votes : list Vote) (voter : ObjectId)
    (type : VoteType) : list Vote → Z → Prop :=
| rule_add :
    voter ∉ voters votes →
    ThreeCaseRule votes voter type (votes ++ [mkVote voter type]) (deltaAdd type)
| rule_toggle_off before after :
    votes = before ++ mkVote voter type :: after →
    voter ∉ voters before →
    ThreeCaseRule votes voter type (before ++ after) (deltaToggleOff type)
| rule_flip before after old :
    votes = before ++ mkVote voter old :: after →
    old ≠ type →
    voter ∉ voters before →
    ThreeCaseRule votes voter type
      (before ++ mkVote voter type :: after) (deltaFlip type).

(** A sequence of casts on one ledger. *)
Fixpoint castVotes (votes : list Vote) (casts : list (ObjectId * VoteType))
  : list Vote :=
  match casts with
  | [] => votes
  | (voter, type) :: more => castVotes (castVote votes voter type).1 more
  end.

(** A sequence of vote requests on one thread, each by its own requester. *)
Fixpoint voteRequests (db : DB) (threadId : ObjectId)
    (casts : list (Requester * VoteType)) : DB :=
  match casts with
  | [] => db
  | (user, type) :: more =>
      voteRequests (voteOnThread db user threadId (showVoteType type)).1
        threadId more
  end.

(** The casts of a sequence of vote requests: voter and type. *)
Definition ledgerCasts (casts : list (Requester * VoteType))
  : list (ObjectId * VoteType) :=
  (λ c, (q_id c.1, c.2)) <$> casts.

(** The author's reputation as the database has it. *)
Definition reputationOf (db : DB) (id : ObjectId) : option Z :=
  u_reputation <$> users db !! id.

(** The replies of a tree in document order (a reply before the replies
    below it, these before its later siblings), each with its depth: the
    tree without its brackets.  Two trees with the same outline are the
    same tree. *)
Fixpoint outline (depth : nat) (rs : Replies) : list (nat * ReplyFields) :=
  match rs with
  | rnil => []
  | rcons r rest =>
      (depth, r_fields r) :: outline (S depth) (r_replies r) ++ outline depth rest
  end.

(** The ids of the replies of a tree that have one, in document order. *)
Fixpoint replyIds (rs : Replies) : list ObjectId :=
  match rs with
  | rnil => []
  | rcons r rest =>
      option_list (r_id r) ++ replyIds (r_replies r) ++ replyIds rest
  end.

(** What follows the outline of an array of depth [d] inside a longer
    outline starts at a smaller depth, or is empty. *)
Definition startsAbove (d : nat) (l : list (nat * ReplyFields)) : Prop :=
  match l with
  | [] => True
  | (d', _) :: _ => (d' < d)%nat
  end.

(** The outline of one reply with everything below it. *)
Definition outlineOf (depth : nat) (r : Reply) : list (nat * ReplyFields) :=
  (depth, r_fields r) :: outline (S depth) (r_replies r).

Definition idsOf (l : list (nat * ReplyFields)) : list ObjectId :=
  omap (λ p, f_id p.2) l.

(** Every reply of the outline, or of the tree, has an [_id]. *)
Definition haveIds (l : list (nat * ReplyFields)) : Prop :=
  Forall (λ p, is_Some (f_id p.2)) l.
Definition allHaveIds (replies : Replies) : Prop :=
  haveIds (outline 0 replies).

(** The four searches of the handlers ([findAndAddReply],
    [findAndUpdateReply], [findAndRemoveReply], [findAndVoteReply]) share
    one shape: walk the tree in document order, act on the first reply
    with the id, stop; throw at a reply without [_id].  [visit] is that
    shape, with the action as a parameter: what the search returns at the
    reply, and what it does to the reply's place in its array. *)
Inductive Edit := edit_keep | edit_replace (r : Reply) | edit_remove.

Definition applyEdit (e : Edit) (reply : Reply) (rest : Replies) : Replies :=
  match e with
  | edit_keep => rcons reply rest
  | edit_replace r => rcons r rest
  | edit_remove => rest
  end.

Inductive Found (R : Type) :=
| found_at (res : R)
| found_none
| found_thrown.
Arguments found_at {R} res.
Arguments found_none {R}.
Arguments found_thrown {R}.

Fixpoint visit {R : Type} (replyId : string) (atHit : Reply → R * Edit)
    (replies : Replies) : Found R * Replies :=
  match replies with
  | rnil => (found_none, rnil)
  | rcons reply rest =>
      match r_id reply with
      | None => (found_thrown, rcons reply rest)
      | Some id =>
          if String.eqb id replyId then
            (found_at (atHit reply).1, applyEdit (atHit reply).2 reply rest)
          else
            match visit replyId atHit (r_replies reply) with
            | (found_none, nested) =>
                let '(res, rest') := visit replyId atHit rest in
                (res, rcons (set_replies reply nested) rest')
            | (res, nested) => (res, rcons (set_replies reply nested) rest)
            end
      end
  end.

(** The actions of the four searches. *)
Definition addAction (newReply : Reply) (reply : Reply) : unit * Edit :=
  (tt, edit_replace (set_replies reply (push (r_replies reply) newReply))).

Definition updateAction (user : Requester) (content : string) (now : N)
    (reply : Reply) : UpdateResult * Edit :=
  if notAuthorized user reply then (update_thrown, edit_keep)
  else (update_reply (set_edited reply content now),
        edit_replace (set_edited reply content now)).

Definition removeAction (user : Requester) (reply : Reply)
  : RemoveResult * Edit :=
  if notAuthorized user reply then (remove_thrown, edit_keep)
  else (remove_true, edit_remove).

Definition voteAction (user : Requester) (type : VoteType) (reply : Reply)
  : (Reply * Z) * Edit :=
  let cast := castVote (r_votes reply) (q_id user) type in
  ((set_votes reply cast.1, cast.2), edit_replace (set_votes reply cast.1)).

(** What the searches return, from what [visit] has found. *)
Definition addResultOf (o : Found unit) : AddResult :=
  match o with
  | found_at _ => add_true
  | found_none => add_false
  | found_thrown => add_thrown
  end.
Definition updateResultOf (o : Found UpdateResult) : UpdateResult :=
  match o with
  | found_at res => res
  | found_none => update_null
  | found_thrown => update_thrown
  end.
Definition removeResultOf (o : Found RemoveResult) : RemoveResult :=
  match o with
  | found_at res => res
  | found_none => remove_false
  | found_thrown => remove_thrown
  end.
Definition voteResultOf (o : Found (Reply * Z)) : VoteResult :=
  match o with
  | found_at res => vote_found res.1 res.2
  | found_none => vote_null
  | found_thrown => vote_thrown
  end.

(** The requester passes the author-or-admin check of a reply. *)
Definition mayChange (user : Requester) (f : ReplyFields) : Prop :=
  f_author f = q_id user ∨ q_role user = role_admin.

Definition set_thread_locked (t : Thread) (locked : bool) : Thread :=
  mkThread (t_title t) (t_content t) (t_author t) (t_category t) (t_tags t)
    (t_votes t) (t_replies t) (t_views t) (t_isPinned t) locked
    (t_lastActivity t).

(** The database with the thread stored under [threadId] with the lock
    flag [locked]. *)
Definition withLock (db : DB) (threadId : ObjectId) (thread : Thread)
    (locked : bool) : DB :=
  set_threads db (<[threadId := set_thread_locked thread locked]> (threads db)).

(** The outline an edit leaves in place of the reply it is applied to. *)
Definition editOutline (e : Edit) (depth : nat) (reply : Reply)
  : list (nat * ReplyFields) :=
  match e with
  | edit_keep => outlineOf depth reply
  | edit_replace r => outlineOf depth r
  | edit_remove => []
  end.

(** Pairwise sum of two [{ upvotes, downvotes }] tallies. *)
Definition addStats (a b : Z * Z) : Z * Z := (a.1 + b.1, a.2 + b.2).

(** The tallies of the ledgers of an outline, summed. *)
Fixpoint tally (l : list (nat * ReplyFields)) : Z * Z :=
  match l with
  | [] => (0, 0)
  | (_, f) :: rest =>
      addStats (upvotes (f_votes f), downvotes (f_votes f)) (tally rest)
  end.

(** Every ledger of the tree has at most one vote per voter. *)
Fixpoint repliesOneVotePerVoter (rs : Replies) : Prop :=
  match rs with
  | rnil => True
  | rcons r rest =>
      oneVotePerVoter (r_votes r)
      ∧ repliesOneVotePerVoter (r_replies r)
      ∧ repliesOneVotePerVoter rest
  end.

(** Every votable entity of the database, thread or reply, has at most
    one vote per voter. *)
Definition dbOneVotePerVoter (db : DB) : Prop :=
  ∀ id t, threads db !! id = Some t →
    oneVotePerVoter (t_votes t) ∧ repliesOneVotePerVoter (t_replies t).

(** A vote request on a thread or on one of its replies. *)
Inductive VoteRequest :=
| VoteThread (user : Requester) (threadId : ObjectId) (type : string)
| VoteReply (user : Requester) (threadId : ObjectId) (replyId : string)
    (type : string) (now : N).

Definition serveVote (db : DB) (req : VoteRequest) : DB :=
  match req with
  | VoteThread user threadId type => (voteOnThread db user threadId type).1
  | VoteReply user threadId replyId type now =>
      (voteOnReply db user threadId replyId type now).1
  end.

(** The name under which the tag loops look a submitted name up, and
    store it when it is new. *)
Definition tagKey (tagName : string) : string :=
  tagNameSetters (toLowerCase tagName).

(** The number of names of a list that normalise to [name]. *)
Definition occurrences (name : string) (tagNames : list string) : Z :=
  Z.of_nat (length (filter (λ n, tagKey n = name) tagNames)).

(** The usage counter of the tag called [name], 0 when there is none. *)
Definition usageOf (name : string) (docs : list Tag) : Z :=
  match findOneByName name docs with
  | Some tag => tag_usageCount tag
  | None => 0
  end.

(** The ids and names of a tag collection. *)
Definition idsOfTags (docs : list Tag) : list ObjectId := tag_id <$> docs.
Definition namesOfTags (docs : list Tag) : list string := tag_name <$> docs.

(** The ids [newId] hands out from the k-th on are not in the collection,
    and the ids of the collection are unique. *)
Definition freshFrom (newId : nat → ObjectId) (k : nat) (docs : list Tag)
  : Prop :=
  NoDup (idsOfTags docs) ∧ ∀ j, (k ≤ j)%nat → newId j ∉ idsOfTags docs.

(** A submitted name resolves to the tag of its normalised form. *)
Definition resolvesTo (docs : list Tag) (tagName : string) (id : ObjectId)
  : Prop :=
  ∃ tag, findOneByName (tagKey tagName) docs = Some tag ∧ tag_id tag = id.

(** The votes of everyone but [voter], in their order. *)
Definition otherVotes (voter : ObjectId) (votes : list Vote) : list Vote :=
  filter (λ v, v_user v ≠ voter) votes.

(** No user of the database has a negative reputation. *)
Definition reputationsNonneg (db : DB) : Prop :=
  map_Forall (λ _ u, 0 ≤ u_reputation u) (users db).

(** The reply the add-reply handler builds from a request whose content
    it reads as [content]; [id] is the [_id] the reply is stored with. *)
Definition newReplyFields (user : Requester) (content : string)
    (parentReplyId : option string) (id : option ObjectId) (now : N)
  : ReplyFields :=
  mkReplyFields id (q_id user) content [] (truthy parentReplyId)
    false None now.


(** The ids of the replies of every thread are pairwise different. *)
Definition dbUniqueReplyIds (db : DB) : Prop :=
  map_Forall (λ _ t, NoDup (replyIds (t_replies t))) (threads db).

(** The number of vote records in the ledgers of an outline. *)
Fixpoint votesIn (l : list (nat * ReplyFields)) : nat :=
  match l with
  | [] => 0%nat
  | (_, f) :: rest => (length (f_votes f) + votesIn rest)%nat
  end.

(** What the reply and vote handlers never write of a thread: its title,
    content, author, category, tags, view counter, pin and lock. *)
Definition sameThreadData (t t' : Thread) : Prop :=
  t_title t' = t_title t ∧ t_content t' = t_content t
  ∧ t_author t' = t_author t ∧ t_category t' = t_category t
  ∧ t_tags t' = t_tags t ∧ t_views t' = t_views t
  ∧ t_isPinned t' = t_isPinned t ∧ t_isLocked t' = t_isLocked t.

(** The same threads, each with the same data. *)
Definition sameThreads (db db' : DB) : Prop :=
  ∀ id,
    match threads db !! id, threads db' !! id with
    | Some t, Some t' => sameThreadData t t'
    | None, None => True
    | _, _ => False
    end.

(** A request to one of the reply or vote handlers. *)
Inductive ForumRequest :=
| AddReply (user : Requester) (threadId : ObjectId) (content : string)
    (parentReplyId : option string) (newId : ObjectId) (now : N)
| UpdateReply (user : Requester) (threadId : ObjectId)
    (replyId content : string) (now : N)
| DeleteReply (user : Requester) (threadId : ObjectId) (replyId : string)
    (now : N)
| VoteOn (req : VoteRequest).

Definition serve (db : DB) (req : ForumRequest) : DB :=
  match req with
  | AddReply user threadId content parentReplyId newId now =>
      (addReply db user threadId content parentReplyId newId now).1
  | UpdateReply user threadId replyId content now =>
      (updateReply db user threadId replyId content now).1
  | DeleteReply user threadId replyId now =>
      (deleteReply db user threadId replyId now).1
  | VoteOn req => serveVote db req
  end.

(** [score] of a [{ upvotes, downvotes }] pair. *)
Definition scoreOf (stats : Z * Z) : Z := stats.1 - stats.2.

(** The documents of [thread.replies], in their order. *)
Fixpoint topLevel (replies : Replies) : list Reply :=
  match replies with
  | rnil => []
  | rcons reply rest => reply :: topLevel rest
  end.

(** The author of every document of [thread.replies] has a user
    document. *)
Definition topAuthorsKnown (db : DB) (replies : Replies) : Prop :=
  Forall (λ r, is_Some (users db !! r_author r)) (topLevel replies).

(** ASCII text: every character is below 128.  On such text
    [toLowerCase], [trim] and [length] are those of JavaScript. *)
Fixpoint plainText (s : string) : bool :=
  match s with
  | EmptyString => true
  | String c rest => Nat.ltb (Ascii.nat_of_ascii c) 128 && plainText rest
  end.

(** A reply content the add and edit handlers go on with: ASCII text
    that passes [validateReply]. *)
Definition acceptedReply (content : string) : bool :=
  plainText content && validateReply content.

(** A tag name the tag loops can always save: ASCII text whose
    normalised form passes the validators of the tagSchema. *)
Definition acceptedTagName (tagName : string) : bool :=
  plainText tagName && validTagName (tagKey tagName).

(** A thread body the create and edit handlers save: ASCII text that
    passes [validateThread], title and content not empty when trimmed,
    and every tag name accepted. *)
Definition acceptedThread (title content : string)
    (tagNames : option (list string)) : bool :=
  plainText title && plainText content
  && validateThread title content tagNames
  && negb (String.eqb (trim title) "") && negb (String.eqb (trim content) "")
  && forallb acceptedTagName (default [] tagNames).

(** How often a thread's tag array lists an id. *)
Definition timesListed (id : ObjectId) (tagIds : list ObjectId) : nat :=
  length (filter (λ x, x = id) tagIds).

(** A counter after [n] rounds of [Math.max(0, counter - 1)]. *)
Definition lowered (n : nat) (c : Z) : Z :=
  match n with
  | O => c
  | S _ => Z.max 0 (c - Z.of_nat n)
  end.

(** The collection with the counter of every tag rewritten by [g], which
    sees the tag's id and its counter. *)
Definition withCounters (g : ObjectId → Z → Z) (docs : list Tag) : list Tag :=
  (λ t, set_usageCount t (g (tag_id t) (tag_usageCount t))) <$> docs.

(** No usage counter of a tag and no thread counter of a category is
    negative. *)
Definition countersNonneg (db : DB) : Prop :=
  Forall (λ t, 0 ≤ tag_usageCount t) (tags db)
  ∧ map_Forall (λ _ c, 0 ≤ c_threadCount c) (categories db).

(** The sum of the usage counters of a collection. *)
Definition totalUsage (docs : list Tag) : Z :=
  foldr (λ t acc, tag_usageCount t + acc) 0 docs.

(** A request to one of the handlers that write the database. *)
Inductive StoreRequest :=
| CreateThread (user : Requester) (title content : string)
    (category : ObjectId) (tagNames : list string) (threadId : ObjectId)
    (newTagId : nat → ObjectId) (now : N)
| DeleteThread (user : Requester) (threadId : ObjectId)
| MergeTags (tagId : ObjectId) (targetTagId : option string)
| DeleteTag (tagId : ObjectId)
| DeleteCategory (categoryId : ObjectId)
| RepliesAndVotes (req : ForumRequest).

Definition serveStore (db : DB) (req : StoreRequest) : DB :=
  match req with
  | CreateThread user title content category tagNames threadId newTagId now =>
      (createThread db user title content category tagNames threadId
         newTagId now).1
  | DeleteThread user threadId => (deleteThread db user threadId).1
  | MergeTags tagId targetTagId => (mergeTags db tagId targetTagId).1
  | DeleteTag tagId => (deleteTag db tagId).1
  | DeleteCategory categoryId => (deleteCategory db categoryId).1
  | RepliesAndVotes req => serve db req
  end.

(** The number of references to a tag id in the tag arrays of the
    threads. *)
Definition references (id : ObjectId) (ts : gmap ObjectId Thread) : nat :=
  map_fold (λ _ ids acc, (timesListed id ids + acc)%nat) 0%nat (t_tags <$> ts).

(** The tags and the threads agree: tag ids are unique, the usage counter
    of every tag is the number of references to it, and every reference
    is to a tag of the collection. *)
Definition tagsConsistent (db : DB) : Prop :=
  NoDup (idsOfTags (tags db))
  ∧ Forall (λ t, tag_usageCount t
                 = Z.of_nat (references (tag_id t) (threads db))) (tags db)
  ∧ map_Forall (λ _ th, Forall (λ id, id ∈ idsOfTags (tags db)) (t_tags th))
      (threads db).

(** The first reply with the id on the thread page, in document order. *)
Fixpoint locateView (replyId : string) (views : ReplyViews)
  : option ReplyView :=
  match views with
  | vnil => None
  | vcons view rest =>
      if bool_decide (rv_id (v_fields view) = Some replyId) then Some view
      else
        match locateView replyId (v_replies view) with
        | Some found => Some found
        | None => locateView replyId rest
        end
  end.

(** The sum of the vote scores the thread page shows for the replies. *)
Fixpoint shownScores (views : ReplyViews) : Z :=
  match views with
  | vnil => 0
  | vcons view rest =>
      rv_voteScore (v_fields view) + shownScores (v_replies view)
      + shownScores rest
  end.

(** The thread page requested by each of [readers] in turn. *)
Definition readBy (db : DB) (threadId : ObjectId)
    (readers : list (option Requester)) : DB :=
  foldl (λ d user, (getThread d user threadId).1) db readers.

(** The readers who are not the author [author]: those without a login
    and those with another id. *)
Definition otherReaders (author : ObjectId)
    (readers : list (option Requester)) : list (option Requester) :=
  filter (λ user, (q_id <$> user) ≠ Some author) readers.

(** The number of threads of a category. *)
Definition threadsIn (category : ObjectId) (ts : gmap ObjectId Thread) : nat :=
  map_fold (λ _ c acc, ((if decide (c = category) then 1 else 0) + acc)%nat)
    0%nat (t_category <$> ts).

(** The categories and the threads agree: the thread counter of every
    category is the number of its threads, and the category of every
    thread exists. *)
Definition categoriesConsistent (db : DB) : Prop :=
  map_Forall (λ id c, c_threadCount c = Z.of_nat (threadsIn id (threads db)))
    (categories db)
  ∧ map_Forall (λ _ th, is_Some (categories db !! t_category th)) (threads db).

(** ** Example data *)

(** The reply tree A -> [B -> [C]]. *)
Definition replyC : Reply :=
  mkReply (mkReplyFields (Some "C") "u1" "third" [mkVote "u2" upvote] (Some "B")
             false None 3) rnil.
Definition replyB : Reply :=
  mkReply (mkReplyFields (Some "B") "u2" "second" [mkVote "u1" downvote] (Some "A")
             false None 2) (rcons replyC rnil).
Definition replyA : Reply :=
  mkReply (mkReplyFields (Some "A") "u1" "first" [mkVote "u2" upvote] None
             false None 1) (rcons replyB rnil).

(** A thread with the votes [[{u1, upvote}, {u2, upvote}]] whose author
    has reputation 10. *)
Definition exampleThread : Thread :=
  mkThread "A question" "How does it work?" "author" "general"
    ["tag-js"; "tag-reactjs"]
    [mkVote "u1" upvote; mkVote "u2" upvote] (rcons replyA rnil) 0
    false false 0.

Definition lockedThread : Thread :=
  mkThread "A question" "How does it work?" "author" "general" []
    [mkVote "u1" upvote; mkVote "u2" upvote] (rcons replyA rnil) 0
    false true 0.

(** A thread without votes whose author has reputation 0. *)
Definition freshThread : Thread :=
  mkThread "Another question" "And this?" "newcomer" "general" ["tag-js"]
    [] rnil 0 false false 0.

Definition exampleDB : DB :=
  mkDB {[ "t1" := exampleThread; "t2" := freshThread; "t3" := lockedThread ]}
       {[ "author" := mkUser 10 role_user; "newcomer" := mkUser 0 role_user ]}
       {[ "general" := mkCategory "General" 3 ]}
       [mkTag "tag-js" "javascript" 2; mkTag "tag-reactjs" "reactjs" 1].

Definition user1 : Requester := mkRequester "u1" role_user.
Definition user2 : Requester := mkRequester "u2" role_user.
Definition user3 : Requester := mkRequester "u3" role_user.

(** Ids for new tags in the examples: "#", "#i", "#ii", ... *)
Fixpoint marks (k : nat) : string :=
  match k with
  | O => EmptyString
  | S k' => String.append "i" (marks k')
  end.
Definition exampleNewId (k : nat) : ObjectId := String.append "#" (marks k).

(** The example database after a thread with the tags ["React", "react"]
    has been created. *)
Definition reactDB : DB :=
  (createThread exampleDB user1 "Hooks" "How do hooks work?" "general"
     ["React"; "react"] "t9" exampleNewId 9).1.

(** The example database with a user document for every author and
    voter of its threads. *)
Definition seededDB : DB :=
  set_users exampleDB
    (<["u1" := mkUser 3 role_user]>
       (<["u2" := mkUser 0 role_user]>
          (<["u3" := mkUser 7 role_user]> (users exampleDB)))).

(** Thread "t2" after three add-reply requests: a reply by u1, a reply by
    u2 below it, and a second top-level reply by u1. *)
Definition firstAdded : DB :=
  (addReply seededDB user1 "t2" "first" None "r1" 11).1.
Definition secondAdded : DB :=
  (addReply firstAdded user2 "t2" "second" (Some "r1") "r2" 12).1.
Definition builtDB : DB :=
  (addReply secondAdded user1 "t2" "third" None "r3" 13).1.

(** * Properties *)

Example toLowerCase_React : toLowerCase "React" = "react".
Proof. reflexivity. Qed.

(** ** The vote ledger *)

(** Appending an element that is not in a duplicate-free list. *)
Lemma NoDup_snoc_fresh {A} (l : list A) (x : A) :
  NoDup l → x ∉ l → NoDup (l ++ [x]).
Proof.
  intros Hnd Hx. apply NoDup_app. split_and!; [done | | apply NoDup_singleton].
  intros y Hy Hy'. apply list_elem_of_singleton in Hy'. by subst.
Qed.

Lemma parseVoteType_show (ty : VoteType) : parseVoteType (showVoteType ty) = Some ty.
Proof. by destruct ty. Qed.

Lemma parseVoteType_Some (type : string) (ty : VoteType) :
  parseVoteType type = Some ty → type = showVoteType ty.
Proof.
  unfold parseVoteType.
  destruct (String.eqb_spec type "upvote") as [->|_]; [by intros [= <-]|].
  destruct (String.eqb_spec type "downvote") as [->|_]; [by intros [= <-]|].
  done.
Qed.

Lemma parseVoteType_None (type : string) :
  type ≠ "upvote" → type ≠ "downvote" → parseVoteType type = None.
Proof.
  intros Hu Hd. unfold parseVoteType.
  destruct (String.eqb_spec type "upvote"); [done|].
  by destruct (String.eqb_spec type "downvote").
Qed.

Lemma findIndex_None (id : ObjectId) (votes : list Vote) :
  findIndex id votes = None ↔ id ∉ voters votes.
Proof.
  induction votes as [|v votes IH]; simpl.
  - split; [intros _; apply not_elem_of_nil | done].
  - rewrite not_elem_of_cons.
    destruct (String.eqb_spec (v_user v) id) as [->|Hne].
    + split; [done | by intros [? _]].
    + destruct (findIndex id votes) eqn:E; simpl.
      * split; [done|]. intros [_ H]. by apply IH in H.
      * split; [|done]. intros _. split; [done | by apply IH].
Qed.

Lemma findIndex_Some (id : ObjectId) (votes : list Vote) (i : nat) :
  findIndex id votes = Some i →
  ∃ before type after,
    votes = before ++ mkVote id type :: after
    ∧ length before = i ∧ id ∉ voters before.
Proof.
  revert i. induction votes as [|v votes IH]; intros i; simpl; [done|].
  destruct (String.eqb_spec (v_user v) id) as [<-|Hne].
  - intros [= <-]. exists [], (v_type v), votes.
    split_and!; [by destruct v | done | apply not_elem_of_nil].
  - destruct (findIndex id votes) as [j|] eqn:E; simpl; [|done].
    intros [= <-]. destruct (IH j eq_refl) as (l1 & ty & l2 & -> & <- & Hl1).
    exists (v :: l1), ty, l2. split_and!; [done..|].
    unfold voters. simpl. by apply not_elem_of_cons.
Qed.

(** The code follows the three-case rule, whatever the ledger. *)
Lemma castVote_rule (votes : list Vote) (voter : ObjectId) (type : VoteType) :
  ThreeCaseRule votes voter type
    (castVote votes voter type).1 (castVote votes voter type).2.
Proof.
  unfold castVote. destruct (findIndex voter votes) as [i|] eqn:E.
  - destruct (findIndex_Some _ _ _ E) as (l1 & old & l2 & -> & <- & Hl1).
    rewrite list_lookup_middle by done. simpl.
    destruct (decide (old = type)) as [->|Hne]; simpl.
    + rewrite delete_middle.
      replace (if decide (type = upvote) then -1 else 1)
        with (deltaToggleOff type) by by destruct type.
      by eapply rule_toggle_off.
    + rewrite insert_app_r_alt by done. rewrite Nat.sub_diag. simpl.
      replace (if decide (type = upvote) then 2 else -2)
        with (deltaFlip type) by by destruct type.
      by eapply rule_flip.
  - apply findIndex_None in E. simpl.
    replace (if decide (type = upvote) then 1 else -1)
      with (deltaAdd type) by by destruct type.
    by apply rule_add.
Qed.

Lemma voteScore_app (l1 l2 : list Vote) :
  voteScore (l1 ++ l2) = voteScore l1 + voteScore l2.
Proof.
  unfold voteScore, upvotes, downvotes.
  rewrite !filter_app, !length_app. lia.
Qed.

Lemma voteScore_cons (v : Vote) (l : list Vote) :
  voteScore (v :: l) = deltaAdd (v_type v) + voteScore l.
Proof.
  unfold voteScore, upvotes, downvotes. rewrite !filter_cons.
  destruct v as [u []]; simpl;
    repeat case_decide; try done; simpl length; lia.
Qed.

Lemma voteScore_nil : voteScore [] = 0.
Proof. done. Qed.

(** In each case of the rule the score moves by the delta. *)
Lemma rule_score (votes : list Vote) (voter : ObjectId) (type : VoteType)
    (votes' : list Vote) (delta : Z) :
  ThreeCaseRule votes voter type votes' delta →
  voteScore votes' = voteScore votes + delta.
Proof.
  intros [Hnew | l1 l2 -> _ | l1 l2 old -> Hne _].
  - rewrite voteScore_app, voteScore_cons, voteScore_nil. simpl. lia.
  - rewrite !voteScore_app, voteScore_cons. simpl. destruct type; simpl; lia.
  - rewrite !voteScore_app, !voteScore_cons. simpl.
    destruct old, type; simpl; try done; lia.
Qed.

Lemma castVote_score (votes : list Vote) (voter : ObjectId) (type : VoteType) :
  voteScore (castVote votes voter type).1
  = voteScore votes + (castVote votes voter type).2.
Proof. eapply rule_score, castVote_rule. Qed.

(** ** The reply tree *)

Scheme Reply_Replies_ind := Induction for Reply Sort Prop
  with Replies_Reply_ind := Induction for Replies Sort Prop.

(** Induction on a tree: a property of the empty array that passes from
    the replies below the first reply and from its later siblings to the
    whole array holds of every array. *)
Lemma Replies_tree_ind (P : Replies → Prop) :
  P rnil →
  (∀ reply rest, P (r_replies reply) → P rest → P (rcons reply rest)) →
  ∀ replies, P replies.
Proof.
  intros Hnil Hcons.
  apply (Replies_Reply_ind (λ r, P (r_replies r)) P); auto.
Qed.

Lemma set_replies_same (r : Reply) : set_replies r (r_replies r) = r.
Proof. by destruct r. Qed.

Lemma outline_cons (d : nat) (r : Reply) (rest : Replies) :
  outline d (rcons r rest) = outlineOf d r ++ outline d rest.
Proof. done. Qed.

Lemma idsOf_app (l1 l2 : list (nat * ReplyFields)) :
  idsOf (l1 ++ l2) = idsOf l1 ++ idsOf l2.
Proof. apply omap_app. Qed.

Lemma idsOf_cons (d : nat) (f : ReplyFields) (l : list (nat * ReplyFields)) :
  idsOf ((d, f) :: l) = option_list (f_id f) ++ idsOf l.
Proof. unfold idsOf. simpl. by destruct (f_id f). Qed.

Lemma replyIds_outline (replies : Replies) :
  ∀ d, replyIds replies = idsOf (outline d replies).
Proof.
  induction replies as [|r rest IHk IHr] using Replies_tree_ind; intros d.
  - done.
  - change (replyIds (rcons r rest))
      with (option_list (r_id r) ++ replyIds (r_replies r) ++ replyIds rest).
    rewrite outline_cons. unfold outlineOf.
    rewrite idsOf_app, idsOf_cons, <- (IHk (S d)), <- (IHr d), <- app_assoc.
    done.
Qed.

Lemma haveIds_app (l1 l2 : list (nat * ReplyFields)) :
  haveIds (l1 ++ l2) ↔ haveIds l1 ∧ haveIds l2.
Proof. apply Forall_app. Qed.

Lemma haveIds_cons (d : nat) (f : ReplyFields) (l : list (nat * ReplyFields)) :
  haveIds ((d, f) :: l) ↔ is_Some (f_id f) ∧ haveIds l.
Proof. unfold haveIds. by rewrite Forall_cons. Qed.

(** Whether every reply has an id does not depend on the depths. *)
Lemma haveIds_depth (replies : Replies) :
  ∀ d d', haveIds (outline d replies) → haveIds (outline d' replies).
Proof.
  induction replies as [|r rest IHk IHr] using Replies_tree_ind;
    intros d d'; [done|].
  simpl. rewrite !haveIds_cons, !haveIds_app. simpl.
  intros (Hr & Hk & Hrest). split_and!; [done | by eapply IHk | by eapply IHr].
Qed.

Lemma startsAbove_outline (d : nat) (rs : Replies)
    (tail : list (nat * ReplyFields)) :
  startsAbove d tail → startsAbove (S d) (outline d rs ++ tail).
Proof.
  destruct rs as [|r rest]; simpl.
  - destruct tail as [|[d' f] tail]; simpl; [done | lia].
  - lia.
Qed.

(** The outline determines the tree: nothing of the structure is lost
    when the brackets are dropped. *)
Lemma outline_app_inj (rs1 : Replies) :
  ∀ rs2 d tail1 tail2,
    outline d rs1 ++ tail1 = outline d rs2 ++ tail2 →
    startsAbove d tail1 → startsAbove d tail2 →
    rs1 = rs2 ∧ tail1 = tail2.
Proof.
  induction rs1 as [|r1 rest1 IHk IHr] using Replies_tree_ind;
    intros [|r2 rest2] d tail1 tail2 E H1 H2; simpl in E.
  - done.
  - subst tail1. simpl in H1. lia.
  - subst tail2. simpl in H2. lia.
  - injection E as Hf E. rewrite <- !app_assoc in E.
    destruct (IHk _ _ _ _ E) as [Hk E'];
      [by apply startsAbove_outline | by apply startsAbove_outline |].
    destruct (IHr _ _ _ _ E' H1 H2) as [-> ->].
    split; [|done]. destruct r1, r2. simpl in *. by subst.
Qed.

Lemma outline_inj (rs1 rs2 : Replies) (d : nat) :
  outline d rs1 = outline d rs2 → rs1 = rs2.
Proof.
  intros E. apply (outline_app_inj rs1 rs2 d [] []); [|done..].
  by rewrite !app_nil_r.
Qed.

Lemma if_nonEmpty {A} (f : Replies → A * Replies) (x : A) (k : Replies) :
  f rnil = (x, rnil) →
  (if nonEmpty k then f k else (x, k)) = f k.
Proof. intros H. by destruct k. Qed.

(** Where the searches come to, on the outline: a reply with the id, no
    reply with the id and none without id before it; no reply with the
    id in a tree whose replies all have ids; or a reply without id, no
    reply with the id before it. *)
Lemma locate_spec (replyId : string) (replies : Replies) :
  ∀ d,
    match locate replyId d replies with
    | loc_hit d' target =>
        ∃ before after,
          outline d replies = before ++ outlineOf d' target ++ after
          ∧ r_id target = Some replyId
          ∧ (replyId ∉ idsOf before) ∧ haveIds before ∧ (d ≤ d')%nat
    | loc_none => (replyId ∉ replyIds replies) ∧ haveIds (outline d replies)
    | loc_thrown =>
        ∃ before d' f after,
          outline d replies = before ++ (d', f) :: after
          ∧ f_id f = None
          ∧ (replyId ∉ idsOf before) ∧ haveIds before
    end.
Proof.
  induction replies as [|r rest IHk IHr] using Replies_tree_ind; intros d.
  - simpl. split; [apply not_elem_of_nil | constructor].
  - simpl locate. destruct (r_id r) as [id|] eqn:Eid.
    2:{ exists [], d, (r_fields r), (outline (S d) (r_replies r) ++ outline d rest).
        split_and!; [done | done | apply not_elem_of_nil | constructor]. }
    destruct (String.eqb_spec id replyId) as [->|Hne].
    { exists [], (outline d rest).
      split_and!; [done | done | apply not_elem_of_nil | constructor | done]. }
    assert (replyId ∉ idsOf [(d, r_fields r)]) as Hr.
    { rewrite idsOf_cons. unfold r_id in Eid. rewrite Eid. simpl.
      rewrite not_elem_of_cons. split; [done | apply not_elem_of_nil]. }
    assert (haveIds [(d, r_fields r)]) as Hr'.
    { apply haveIds_cons. unfold r_id in Eid. rewrite Eid.
      split; [done | constructor]. }
    specialize (IHk (S d)).
    destruct (locate replyId (S d) (r_replies r)) as [d' t| |].
    + destruct IHk as (l1 & l2 & Ho & Hid & Hb & Hb' & Hd).
      exists ((d, r_fields r) :: l1), (l2 ++ outline d rest).
      split_and!; [| done | | | lia].
      * simpl. rewrite Ho. by rewrite <- !app_assoc.
      * change ((d, r_fields r) :: l1) with ([(d, r_fields r)] ++ l1).
        rewrite idsOf_app, not_elem_of_app. by split.
      * change ((d, r_fields r) :: l1) with ([(d, r_fields r)] ++ l1).
        by apply haveIds_app.
    + destruct IHk as [Hk Hk']. specialize (IHr d).
      destruct (locate replyId d rest) as [d' t| |].
      * destruct IHr as (l1 & l2 & Ho & Hid & Hb & Hb' & Hd).
        exists (outlineOf d r ++ l1), l2.
        split_and!; [| done | | | done].
        -- rewrite outline_cons, Ho. by rewrite <- app_assoc.
        -- unfold outlineOf.
           change ((d, r_fields r) :: ?l) with ([(d, r_fields r)] ++ l).
           rewrite !idsOf_app, !not_elem_of_app.
           rewrite <- (replyIds_outline _ (S d)). by split_and!.
        -- unfold outlineOf.
           change ((d, r_fields r) :: ?l) with ([(d, r_fields r)] ++ l).
           rewrite !haveIds_app. by split_and!.
      * destruct IHr as [Hrest Hrest']. split.
        -- simpl. rewrite Eid. simpl.
           rewrite not_elem_of_cons, not_elem_of_app. by split_and!.
        -- simpl. change ((d, r_fields r) :: ?l) with ([(d, r_fields r)] ++ l).
           rewrite !haveIds_app. by split_and!.
      * destruct IHr as (l1 & d' & f & l2 & Ho & Hid & Hb & Hb').
        exists (outlineOf d r ++ l1), d', f, l2.
        split_and!; [| done | |].
        -- rewrite outline_cons, Ho. by rewrite <- app_assoc.
        -- unfold outlineOf.
           change ((d, r_fields r) :: ?l) with ([(d, r_fields r)] ++ l).
           rewrite !idsOf_app, !not_elem_of_app.
           rewrite <- (replyIds_outline _ (S d)). by split_and!.
        -- unfold outlineOf.
           change ((d, r_fields r) :: ?l) with ([(d, r_fields r)] ++ l).
           rewrite !haveIds_app. by split_and!.
    + destruct IHk as (l1 & d' & f & l2 & Ho & Hid & Hb & Hb').
      exists ((d, r_fields r) :: l1), d', f, (l2 ++ outline d rest).
      split_and!; [| done | |].
      * simpl. rewrite Ho. by rewrite <- !app_assoc.
      * change ((d, r_fields r) :: l1) with ([(d, r_fields r)] ++ l1).
        rewrite idsOf_app, not_elem_of_app. by split.
      * change ((d, r_fields r) :: l1) with ([(d, r_fields r)] ++ l1).
        by apply haveIds_app.
Qed.

(** The search does not depend on the depth it starts at, up to the
    depth it reports. *)
Lemma locate_depth (replyId : string) (replies : Replies) :
  ∀ d,
    locate replyId d replies
    = match locate replyId 0 replies with
      | loc_hit d' target => loc_hit (d + d') target
      | other => other
      end.
Proof.
  induction replies as [|r rest IHk IHr] using Replies_tree_ind; intros d.
  - done.
  - simpl. destruct (r_id r) as [id|]; [|done].
    destruct (String.eqb id replyId); [by rewrite Nat.add_0_r|].
    rewrite (IHk (S d)), (IHk 1%nat).
    destruct (locate replyId 0 (r_replies r)) as [d' t| |]; [| |done].
    + f_equal. lia.
    + apply IHr.
Qed.

(** In a tree whose replies all have ids the search comes to the first
    reply with the id, if there is one. *)
Lemma locate_listed (replyId : string) (replies : Replies) :
  allHaveIds replies →
  replyId ∈ replyIds replies →
  ∃ depth target, locate replyId 0 replies = loc_hit depth target.
Proof.
  intros Hall Hin. pose proof (locate_spec replyId replies 0) as H.
  destruct (locate replyId 0 replies) as [d' t| |]; [by eauto | |].
  - by destruct H.
  - destruct H as (l1 & d' & f & l2 & Ho & Hid & _).
    unfold allHaveIds in Hall. rewrite Ho in Hall.
    apply haveIds_app in Hall as [_ Hall]. apply haveIds_cons in Hall as [Hf _].
    rewrite Hid in Hf. by destruct Hf.
Qed.

Lemma locate_missing (replyId : string) (replies : Replies) :
  allHaveIds replies →
  replyId ∉ replyIds replies →
  locate replyId 0 replies = loc_none.
Proof.
  intros Hall Hin. pose proof (locate_spec replyId replies 0) as H.
  destruct (locate replyId 0 replies) as [d' t| |]; [| done |].
  - destruct H as (l1 & l2 & Ho & Hid & _). exfalso. apply Hin.
    rewrite (replyIds_outline _ 0), Ho, !idsOf_app. unfold outlineOf.
    rewrite idsOf_cons. unfold r_id in Hid. rewrite Hid.
    rewrite !elem_of_app. right. left. left. apply list_elem_of_here.
  - destruct H as (l1 & d' & f & l2 & Ho & Hid & _).
    unfold allHaveIds in Hall. rewrite Ho in Hall.
    apply haveIds_app in Hall as [_ Hall]. apply haveIds_cons in Hall as [Hf _].
    rewrite Hid in Hf. by destruct Hf.
Qed.

Section Search.

Context {R : Type} (replyId : string) (atHit : Reply → R * Edit).

(** What a search does, by where it comes to: at a reply with the id it
    acts on that reply and leaves every other reply where it was;
    otherwise it leaves the tree as it was, and throws if it has come to
    a reply without id. *)
Lemma visit_spec (replies : Replies) :
  ∀ d,
    match locate replyId d replies with
    | loc_hit d' target =>
        ∃ before after replies',
          outline d replies = before ++ outlineOf d' target ++ after
          ∧ (r_id target = Some replyId
             ∧ (replyId ∉ idsOf before) ∧ haveIds before)
          ∧ visit replyId atHit replies = (found_at (atHit target).1, replies')
          ∧ outline d replies'
            = before ++ editOutline (atHit target).2 d' target ++ after
    | loc_none => visit replyId atHit replies = (found_none, replies)
    | loc_thrown => visit replyId atHit replies = (found_thrown, replies)
    end.
Proof.
  induction replies as [|r rest IHk IHr] using Replies_tree_ind; intros d.
  - done.
  - pose proof (locate_spec replyId (r_replies r) (S d)) as Hk.
    simpl locate. simpl visit. destruct (r_id r) as [id|] eqn:Eid; [|done].
    destruct (String.eqb_spec id replyId) as [->|Hne].
    { exists [], (outline d rest), (applyEdit (atHit r).2 r rest).
      split_and!; [done | done | apply not_elem_of_nil | constructor | done |].
      destruct (atHit r).2; done. }
    assert (replyId ∉ idsOf [(d, r_fields r)]) as Hr.
    { rewrite idsOf_cons. unfold r_id in Eid. rewrite Eid. simpl.
      rewrite not_elem_of_cons. split; [done | apply not_elem_of_nil]. }
    assert (haveIds [(d, r_fields r)]) as Hr'.
    { apply haveIds_cons. unfold r_id in Eid. rewrite Eid.
      split; [done | constructor]. }
    specialize (IHk (S d)).
    destruct (locate replyId (S d) (r_replies r)) as [d' t| |].
    + destruct IHk as (l1 & l2 & k' & Ho & (Hid & Hb & Hb') & -> & Ho').
      exists ((d, r_fields r) :: l1), (l2 ++ outline d rest),
        (rcons (set_replies r k') rest).
      split_and!; [| done | | | done |].
      * simpl. rewrite Ho. by rewrite <- !app_assoc.
      * change ((d, r_fields r) :: l1) with ([(d, r_fields r)] ++ l1).
        rewrite idsOf_app, not_elem_of_app. by split.
      * change ((d, r_fields r) :: l1) with ([(d, r_fields r)] ++ l1).
        by apply haveIds_app.
      * simpl. rewrite Ho'. by rewrite <- !app_assoc.
    + rewrite IHk, set_replies_same. destruct Hk as [Hk Hk'].
      specialize (IHr d).
      destruct (locate replyId d rest) as [d' t| |].
      * destruct IHr as (l1 & l2 & r' & Ho & (Hid & Hb & Hb') & -> & Ho').
        exists (outlineOf d r ++ l1), l2, (rcons r r').
        split_and!; [| done | | | done |].
        -- rewrite outline_cons, Ho. by rewrite <- app_assoc.
        -- unfold outlineOf.
           change ((d, r_fields r) :: ?l) with ([(d, r_fields r)] ++ l).
           rewrite !idsOf_app, !not_elem_of_app.
           rewrite <- (replyIds_outline _ (S d)). by split_and!.
        -- unfold outlineOf.
           change ((d, r_fields r) :: ?l) with ([(d, r_fields r)] ++ l).
           rewrite !haveIds_app. by split_and!.
        -- rewrite outline_cons, Ho'. by rewrite <- app_assoc.
      * by rewrite IHr.
      * by rewrite IHr.
    + by rewrite IHk, set_replies_same.
Qed.

End Search.

(** Each search of the handlers is [visit] with its action. *)
Lemma findAndAddReply_visit (parentReplyId : string) (newReply : Reply)
    (replies : Replies) :
  findAndAddReply parentReplyId newReply replies
  = (addResultOf (visit parentReplyId (addAction newReply) replies).1,
     (visit parentReplyId (addAction newReply) replies).2).
Proof.
  induction replies as [|r rest IHk IHr] using Replies_tree_ind; [done|].
  simpl. destruct (r_id r) as [id|]; [|done].
  destruct (String.eqb id parentReplyId); [done|].
  rewrite (if_nonEmpty (findAndAddReply parentReplyId newReply)) by done.
  rewrite IHk, IHr.
  destruct (visit parentReplyId (addAction newReply) (r_replies r))
    as [[[]| |] k']; simpl; [done | | done].
  by destruct (visit parentReplyId (addAction newReply) rest) as [[[]| |] r'].
Qed.

Lemma updateAction_not_null (user : Requester) (content : string) (now : N)
    (reply : Reply) :
  (updateAction user content now reply).1 ≠ update_null.
Proof. unfold updateAction. by destruct (notAuthorized user reply). Qed.

Lemma removeAction_not_false (user : Requester) (reply : Reply) :
  (removeAction user reply).1 ≠ remove_false.
Proof. unfold removeAction. by destruct (notAuthorized user reply). Qed.

(** What [visit] returns at a reply is what the action returns there. *)
Lemma visit_found_at {R : Type} (replyId : string) (atHit : Reply → R * Edit)
    (replies : Replies) (res : R) (replies' : Replies) :
  visit replyId atHit replies = (found_at res, replies') →
  ∃ target, res = (atHit target).1.
Proof.
  intros H. pose proof (visit_spec replyId atHit replies 0) as Hs.
  destruct (locate replyId 0 replies) as [d' t| |].
  - destruct Hs as (_ & _ & r' & _ & _ & E & _). rewrite E in H.
    injection H as <- _. by exists t.
  - by rewrite Hs in H.
  - by rewrite Hs in H.
Qed.

Lemma findAndUpdateReply_visit (user : Requester) (replyId content : string)
    (now : N) (replies : Replies) :
  findAndUpdateReply user replyId content now replies
  = (updateResultOf (visit replyId (updateAction user content now) replies).1,
     (visit replyId (updateAction user content now) replies).2).
Proof.
  induction replies as [|r rest IHk IHr] using Replies_tree_ind; [done|].
  simpl. destruct (r_id r) as [id|]; [|done].
  destruct (String.eqb id replyId).
  { unfold updateAction. by destruct (notAuthorized user r). }
  rewrite (if_nonEmpty (findAndUpdateReply user replyId content now)) by done.
  rewrite IHk, IHr.
  destruct (visit replyId (updateAction user content now) (r_replies r))
    as [[res| |] k'] eqn:E; simpl.
  - destruct (visit_found_at _ _ _ _ _ E) as (t & ->).
    pose proof (updateAction_not_null user content now t).
    by destruct ((updateAction user content now t).1).
  - by destruct (visit replyId (updateAction user content now) rest) as [? r'].
  - done.
Qed.

Lemma findAndRemoveReply_visit (user : Requester) (replyId : string)
    (replies : Replies) :
  findAndRemoveReply user replyId replies
  = (removeResultOf (visit replyId (removeAction user) replies).1,
     (visit replyId (removeAction user) replies).2).
Proof.
  induction replies as [|r rest IHk IHr] using Replies_tree_ind; [done|].
  simpl. destruct (r_id r) as [id|]; [|done].
  destruct (String.eqb id replyId).
  { unfold removeAction. by destruct (notAuthorized user r). }
  rewrite (if_nonEmpty (findAndRemoveReply user replyId)) by done.
  rewrite IHk, IHr.
  destruct (visit replyId (removeAction user) (r_replies r))
    as [[res| |] k'] eqn:E; simpl.
  - destruct (visit_found_at _ _ _ _ _ E) as (t & ->).
    pose proof (removeAction_not_false user t).
    by destruct ((removeAction user t).1).
  - by destruct (visit replyId (removeAction user) rest) as [? r'].
  - done.
Qed.

Lemma findAndVoteReply_visit (user : Requester) (replyId : string)
    (type : VoteType) (replies : Replies) :
  findAndVoteReply user replyId type replies
  = (voteResultOf (visit replyId (voteAction user type) replies).1,
     (visit replyId (voteAction user type) replies).2).
Proof.
  induction replies as [|r rest IHk IHr] using Replies_tree_ind; [done|].
  simpl. destruct (r_id r) as [id|]; [|done].
  destruct (String.eqb id replyId).
  { unfold voteAction. by destruct (castVote (r_votes r) (q_id user) type). }
  rewrite (if_nonEmpty (findAndVoteReply user replyId type)) by done.
  rewrite IHk, IHr.
  destruct (visit replyId (voteAction user type) (r_replies r))
    as [[res| |] k']; simpl; [done | | done].
  by destruct (visit replyId (voteAction user type) rest) as [[?| |] r'].
Qed.

Lemma notAuthorized_false (user : Requester) (reply : Reply) :
  notAuthorized user reply = false ↔ mayChange user (r_fields reply).
Proof.
  unfold notAuthorized, mayChange, r_author.
  destruct (String.eqb_spec (f_author (r_fields reply)) (q_id user))
    as [He|Hne]; simpl.
  - split; [by left | done].
  - destruct (decide (q_role user = role_admin)) as [Hr|Hr].
    + rewrite (bool_decide_eq_true_2 _ Hr). simpl. split; [by right | done].
    + rewrite (bool_decide_eq_false_2 _ Hr). simpl.
      split; [done | by intros [?|?]].
Qed.

Lemma addStats_assoc (a b c : Z * Z) :
  addStats (addStats a b) c = addStats a (addStats b c).
Proof. unfold addStats. simpl. f_equal; lia. Qed.

Lemma addStats_zero_l (a : Z * Z) : addStats (0, 0) a = a.
Proof. by destruct a. Qed.

Lemma tally_app (l1 l2 : list (nat * ReplyFields)) :
  tally (l1 ++ l2) = addStats (tally l1) (tally l2).
Proof.
  induction l1 as [|[d f] l1 IH]; simpl.
  - by rewrite addStats_zero_l.
  - by rewrite IH, addStats_assoc.
Qed.

(** The statistics of a tree are the tallies of the replies in it. *)
Lemma calculateReplyStats_tally (replies : Replies) :
  ∀ d, calculateReplyStats replies = tally (outline d replies).
Proof.
  induction replies as [|r rest IHk IHr] using Replies_tree_ind; intros d.
  - done.
  - simpl.
    replace (if nonEmpty (r_replies r) then calculateReplyStats (r_replies r)
             else (0, 0))
      with (calculateReplyStats (r_replies r)) by by destruct (r_replies r).
    rewrite tally_app, <- (IHk (S d)), <- (IHr d).
    destruct (calculateReplyStats (r_replies r)), (calculateReplyStats rest).
    unfold addStats, r_votes. simpl. f_equal; lia.
Qed.

(** The four searches, by where they come to. *)
Lemma findAndAddReply_locate (parentReplyId : string) (newReply : Reply)
    (replies : Replies) :
  match locate parentReplyId 0 replies with
  | loc_hit d parent =>
      ∃ before after replies',
        outline 0 replies = before ++ outlineOf d parent ++ after
        ∧ (r_id parent = Some parentReplyId
           ∧ (parentReplyId ∉ idsOf before) ∧ haveIds before)
        ∧ findAndAddReply parentReplyId newReply replies = (add_true, replies')
        ∧ outline 0 replies'
          = before
            ++ outlineOf d (set_replies parent (push (r_replies parent) newReply))
            ++ after
  | loc_none => findAndAddReply parentReplyId newReply replies = (add_false, replies)
  | loc_thrown =>
      findAndAddReply parentReplyId newReply replies = (add_thrown, replies)
  end.
Proof.
  rewrite findAndAddReply_visit.
  pose proof (visit_spec parentReplyId (addAction newReply) replies 0) as H.
  destruct (locate parentReplyId 0 replies) as [d t| |].
  - destruct H as (l1 & l2 & r' & Ho & (Hid & Hb & Hb') & -> & Ho'). by exists l1, l2, r'.
  - by rewrite H.
  - by rewrite H.
Qed.

Lemma findAndUpdateReply_locate (user : Requester) (replyId content : string)
    (now : N) (replies : Replies) :
  match locate replyId 0 replies with
  | loc_hit d target =>
      if notAuthorized user target then
        findAndUpdateReply user replyId content now replies
        = (update_thrown, replies)
      else
        ∃ before after replies',
          outline 0 replies = before ++ outlineOf d target ++ after
          ∧ (r_id target = Some replyId
             ∧ (replyId ∉ idsOf before) ∧ haveIds before)
          ∧ findAndUpdateReply user replyId content now replies
            = (update_reply (set_edited target content now), replies')
          ∧ outline 0 replies'
            = before ++ outlineOf d (set_edited target content now) ++ after
  | loc_none =>
      findAndUpdateReply user replyId content now replies = (update_null, replies)
  | loc_thrown =>
      findAndUpdateReply user replyId content now replies
      = (update_thrown, replies)
  end.
Proof.
  rewrite findAndUpdateReply_visit.
  pose proof (visit_spec replyId (updateAction user content now) replies 0) as H.
  destruct (locate replyId 0 replies) as [d t| |].
  - destruct H as (l1 & l2 & r' & Ho & (Hid & Hb & Hb') & -> & Ho'). unfold updateAction in *.
    destruct (notAuthorized user t); simpl in *.
    + f_equal. apply (outline_inj _ _ 0). by rewrite Ho', Ho.
    + by exists l1, l2, r'.
  - by rewrite H.
  - by rewrite H.
Qed.

Lemma findAndRemoveReply_locate (user : Requester) (replyId : string)
    (replies : Replies) :
  match locate replyId 0 replies with
  | loc_hit d target =>
      if notAuthorized user target then
        findAndRemoveReply user replyId replies = (remove_thrown, replies)
      else
        ∃ before after replies',
          outline 0 replies = before ++ outlineOf d target ++ after
          ∧ (r_id target = Some replyId
             ∧ (replyId ∉ idsOf before) ∧ haveIds before)
          ∧ findAndRemoveReply user replyId replies = (remove_true, replies')
          ∧ outline 0 replies' = before ++ after
  | loc_none => findAndRemoveReply user replyId replies = (remove_false, replies)
  | loc_thrown =>
      findAndRemoveReply user replyId replies = (remove_thrown, replies)
  end.
Proof.
  rewrite findAndRemoveReply_visit.
  pose proof (visit_spec replyId (removeAction user) replies 0) as H.
  destruct (locate replyId 0 replies) as [d t| |].
  - destruct H as (l1 & l2 & r' & Ho & (Hid & Hb & Hb') & -> & Ho'). unfold removeAction in *.
    destruct (notAuthorized user t); simpl in *.
    + f_equal. apply (outline_inj _ _ 0). by rewrite Ho', Ho.
    + by exists l1, l2, r'.
  - by rewrite H.
  - by rewrite H.
Qed.

Lemma findAndVoteReply_locate (user : Requester) (replyId : string)
    (type : VoteType) (replies : Replies) :
  match locate replyId 0 replies with
  | loc_hit d target =>
      ∃ before after replies',
        outline 0 replies = before ++ outlineOf d target ++ after
          ∧ (r_id target = Some replyId
             ∧ (replyId ∉ idsOf before) ∧ haveIds before)
        ∧ findAndVoteReply user replyId type replies
          = (vote_found
               (set_votes target (castVote (r_votes target) (q_id user) type).1)
               (castVote (r_votes target) (q_id user) type).2, replies')
        ∧ outline 0 replies'
          = before
            ++ outlineOf d
                 (set_votes target (castVote (r_votes target) (q_id user) type).1)
            ++ after
  | loc_none => findAndVoteReply user replyId type replies = (vote_null, replies)
  | loc_thrown =>
      findAndVoteReply user replyId type replies = (vote_thrown, replies)
  end.
Proof.
  rewrite findAndVoteReply_visit.
  pose proof (visit_spec replyId (voteAction user type) replies 0) as H.
  destruct (locate replyId 0 replies) as [d t| |].
  - destruct H as (l1 & l2 & r' & Ho & (Hid & Hb & Hb') & -> & Ho'). by exists l1, l2, r'.
  - by rewrite H.
  - by rewrite H.
Qed.

Example scenario_switch_vote :
  voteOnThread exampleDB user2 "t1" "downvote"
  = (mkDB (<["t1" := set_thread_votes exampleThread
                       [mkVote "u1" upvote; mkVote "u2" downvote]]>
             (threads exampleDB))
          (<["author" := mkUser 8 role_user]> (users exampleDB))
          (categories exampleDB) (tags exampleDB),
     mkResponse 200 "Vote recorded successfully"
       (VotePayload 0 (Some downvote))).
Proof. vm_compute. reflexivity. Qed.

Lemma castVote_oneVotePerVoter (votes : list Vote) (voter : ObjectId)
    (type : VoteType) :
  oneVotePerVoter votes → oneVotePerVoter (castVote votes voter type).1.
Proof.
  unfold oneVotePerVoter. intros Hnd.
  destruct (castVote_rule votes voter type) as [Hnew | l1 l2 -> _ | l1 l2 old -> _ _].
  - unfold voters in *. rewrite fmap_app. simpl.
    by apply NoDup_snoc_fresh.
  - unfold voters in *. rewrite fmap_app in *. simpl in Hnd.
    apply NoDup_app in Hnd as (H1 & H12 & H2).
    apply NoDup_cons in H2 as [_ H2].
    apply NoDup_app. split_and!; [done | | done].
    intros x Hx Hx'. apply (H12 x Hx). by apply list_elem_of_further.
  - unfold voters in *. by rewrite fmap_app in *.
Qed.

Lemma castVotes_oneVotePerVoter (casts : list (ObjectId * VoteType)) :
  ∀ votes, oneVotePerVoter votes → oneVotePerVoter (castVotes votes casts).
Proof.
  induction casts as [|[voter type] more IH]; intros votes Hok; [done|].
  simpl. by apply IH, castVote_oneVotePerVoter.
Qed.

Lemma repliesOneVotePerVoter_outline (replies : Replies) :
  ∀ d, repliesOneVotePerVoter replies
       ↔ Forall (λ p, oneVotePerVoter (f_votes p.2)) (outline d replies).
Proof.
  induction replies as [|r rest IHk IHr] using Replies_tree_ind; intros d.
  - simpl. split; [intros _; constructor | done].
  - simpl. rewrite Forall_cons, Forall_app, <- (IHk (S d)), <- (IHr d). done.
Qed.

Lemma findAndVoteReply_oneVotePerVoter (user : Requester) (replyId : string)
    (type : VoteType) (replies : Replies) :
  repliesOneVotePerVoter replies →
  repliesOneVotePerVoter (findAndVoteReply user replyId type replies).2.
Proof.
  intros Hok. pose proof (findAndVoteReply_locate user replyId type replies) as H.
  destruct (locate replyId 0 replies) as [d t| |]; [| by rewrite H..].
  destruct H as (l1 & l2 & r' & Ho & (Hid & Hb & Hb') & -> & Ho').
  simpl. apply (repliesOneVotePerVoter_outline _ 0). rewrite Ho'.
  apply (repliesOneVotePerVoter_outline _ 0) in Hok. rewrite Ho in Hok.
  rewrite !Forall_app in *. destruct Hok as (H1 & Ht & H2).
  split_and!; [done | | done].
  unfold outlineOf in *. apply Forall_cons in Ht as [Hv Hk].
  apply Forall_cons. split; [|by destruct t].
  destruct t. simpl in *. by apply castVote_oneVotePerVoter.
Qed.

Lemma voteOnThread_oneVotePerVoter (db : DB) (user : Requester)
    (threadId : ObjectId) (type : string) :
  dbOneVotePerVoter db →
  dbOneVotePerVoter (voteOnThread db user threadId type).1.
Proof.
  intros Hok. unfold voteOnThread.
  destruct (parseVoteType type) as [ty|]; [|done].
  destruct (threads db !! threadId) as [thread|] eqn:E; [|done].
  destruct (castVote (t_votes thread) (q_id user) ty) as [votes' delta] eqn:Ec.
  simpl. intros id t. simpl.
  destruct (decide (threadId = id)) as [->|Hne].
  - rewrite lookup_insert_eq. intros [= <-]. simpl.
    destruct (Hok _ _ E) as [Hv Hr]. split; [|done].
    replace votes' with (castVote (t_votes thread) (q_id user) ty).1
      by by rewrite Ec.
    by apply castVote_oneVotePerVoter.
  - rewrite lookup_insert_ne by done. apply Hok.
Qed.

Lemma voteOnReply_oneVotePerVoter (db : DB) (user : Requester)
    (threadId : ObjectId) (replyId type : string) (now : N) :
  dbOneVotePerVoter db →
  dbOneVotePerVoter (voteOnReply db user threadId replyId type now).1.
Proof.
  intros Hok. unfold voteOnReply.
  destruct (parseVoteType type) as [ty|]; [|done].
  destruct (threads db !! threadId) as [thread|] eqn:E; [|done].
  pose proof (findAndVoteReply_oneVotePerVoter user replyId ty (t_replies thread))
    as Hr'.
  destruct (findAndVoteReply user replyId ty (t_replies thread))
    as [[reply delta| |] replies']; [|done..].
  simpl. destruct (recorded savesFieldsAt replyId (t_replies thread)); [|done].
  intros id t. simpl.
  destruct (decide (threadId = id)) as [->|Hne].
  - rewrite lookup_insert_eq. intros [= <-]. simpl.
    destruct (Hok _ _ E) as [Hv Hr]. split; [done|]. by apply Hr'.
  - rewrite lookup_insert_ne by done. apply Hok.
Qed.

Lemma serveVote_oneVotePerVoter (reqs : list VoteRequest) :
  ∀ db, dbOneVotePerVoter db → dbOneVotePerVoter (foldl serveVote db reqs).
Proof.
  induction reqs as [|req reqs IH]; intros db Hok; [done|].
  simpl. apply IH. destruct req; simpl.
  - by apply voteOnThread_oneVotePerVoter.
  - by apply voteOnReply_oneVotePerVoter.
Qed.

Lemma findIndex_middle (before after : list Vote) (voter : ObjectId)
    (old : VoteType) :
  voter ∉ voters before →
  findIndex voter (before ++ mkVote voter old :: after) = Some (length before).
Proof.
  induction before as [|v before IH]; simpl; intros Hb.
  - by rewrite String.eqb_refl.
  - unfold voters in Hb. simpl in Hb. apply not_elem_of_cons in Hb as [Hne Hb].
    destruct (String.eqb_spec (v_user v) voter); [done|].
    by rewrite IH.
Qed.

(** The three cases, as equations of the code. *)
Lemma castVote_new (votes : list Vote) (voter : ObjectId) (type : VoteType) :
  voter ∉ voters votes →
  castVote votes voter type = (votes ++ [mkVote voter type], deltaAdd type).
Proof.
  intros Hno. unfold castVote.
  rewrite (proj2 (findIndex_None voter votes) Hno). by destruct type.
Qed.

Lemma castVote_same (before after : list Vote) (voter : ObjectId)
    (type : VoteType) :
  voter ∉ voters before →
  castVote (before ++ mkVote voter type :: after) voter type
  = (before ++ after, deltaToggleOff type).
Proof.
  intros Hb. unfold castVote.
  rewrite findIndex_middle, list_lookup_middle by done. simpl.
  rewrite decide_True by done. rewrite delete_middle. by destruct type.
Qed.

Lemma castVote_other (before after : list Vote) (voter : ObjectId)
    (old type : VoteType) :
  old ≠ type →
  voter ∉ voters before →
  castVote (before ++ mkVote voter old :: after) voter type
  = (before ++ mkVote voter type :: after, deltaFlip type).
Proof.
  intros Hne Hb. unfold castVote.
  rewrite findIndex_middle, list_lookup_middle by done. simpl.
  rewrite decide_False by done.
  rewrite insert_app_r_alt by done. rewrite Nat.sub_diag. by destruct type.
Qed.

Lemma findVote_new (votes : list Vote) (voter : ObjectId) (type : VoteType) :
  voter ∉ voters votes →
  findVote voter (votes ++ [mkVote voter type]) = Some (mkVote voter type).
Proof.
  induction votes as [|v votes IH]; simpl; intros Hno.
  - by rewrite String.eqb_refl.
  - unfold voters in Hno. simpl in Hno.
    apply not_elem_of_cons in Hno as [Hne Hno].
    destruct (String.eqb_spec (v_user v) voter); [done|]. by apply IH.
Qed.

Lemma findVote_None (votes : list Vote) (voter : ObjectId) :
  voter ∉ voters votes → findVote voter votes = None.
Proof.
  induction votes as [|v votes IH]; simpl; intros Hno; [done|].
  unfold voters in Hno. simpl in Hno.
  apply not_elem_of_cons in Hno as [Hne Hno].
  destruct (String.eqb_spec (v_user v) voter); [done|]. by apply IH.
Qed.

(** What a vote request on an existing thread does to the database. *)
Lemma voteOnThread_found (db : DB) (user : Requester) (threadId : ObjectId)
    (ty : VoteType) (thread : Thread) :
  threads db !! threadId = Some thread →
  voteOnThread db user threadId (showVoteType ty)
  = let cast := castVote (t_votes thread) (q_id user) ty in
    (mkDB (<[threadId := set_thread_votes thread cast.1]> (threads db))
          (updateAuthorReputation (t_author thread) cast.2 (users db))
          (categories db) (tags db),
     mkResponse 200 "Vote recorded successfully"
       (VotePayload (voteScore cast.1) (v_type <$> findVote (q_id user) cast.1))).
Proof.
  intros E. unfold voteOnThread. rewrite parseVoteType_show, E.
  by destruct (castVote (t_votes thread) (q_id user) ty).
Qed.

(** C1.  A vote request on a thread follows the three-case rule: with no
    vote of the voter on the thread a vote of the type is appended and the
    delta is +1 (upvote) or -1 (downvote); with a vote of the same type the
    vote is removed and the delta is -1 or +1; with a vote of the opposite
    type the vote is flipped in place and the delta is +2 or -2.  The
    returned score is count(upvote) - count(downvote) over the vote list
    after the change, and the delta is what the author's reputation is
    adjusted by.  The request fails with 400 'Invalid vote type' when the
    type is neither 'upvote' nor 'downvote' (whether or not the thread
    exists), and with 404 'Thread not found' when the type is recognised
    and the thread does not exist; in both cases nothing is written. *)
Theorem castVote_three_case_rule (db : DB) (user : Requester)
    (threadId : ObjectId) :
  (∀ type, type ≠ "upvote" → type ≠ "downvote" →
     ∃ res, voteOnThread db user threadId type = (db, res)
            ∧ InvalidInput res ∧ message res = "Invalid vote type")
  ∧ (∀ ty, threads db !! threadId = None →
       ∃ res, voteOnThread db user threadId (showVoteType ty) = (db, res)
              ∧ NotFound res)
  ∧ (∀ ty thread, threads db !! threadId = Some thread →
       ∃ votes' delta userVote,
         ThreeCaseRule (t_votes thread) (q_id user) ty votes' delta
         ∧ voteOnThread db user threadId (showVoteType ty)
           = (mkDB (<[threadId := set_thread_votes thread votes']> (threads db))
                   (updateAuthorReputation (t_author thread) delta (users db))
                   (categories db) (tags db),
              mkResponse 200 "Vote recorded successfully"
                (VotePayload (upvotes votes' - downvotes votes') userVote))).
Proof.
  split_and!.
  - intros type Hu Hd. eexists. unfold voteOnThread.
    rewrite parseVoteType_None by done. done.
  - intros ty E. eexists. unfold voteOnThread.
    rewrite parseVoteType_show, E. done.
  - intros ty thread E.
    exists (castVote (t_votes thread) (q_id user) ty).1,
           (castVote (t_votes thread) (q_id user) ty).2,
           (v_type <$> findVote (q_id user)
                         (castVote (t_votes thread) (q_id user) ty).1).
    split; [apply castVote_rule | by apply voteOnThread_found].
Qed.

(** The scenario of the design document: u2 switches to a downvote on a
    thread with the votes [[{u1, upvote}, {u2, upvote}]]. *)
Lemma castVote_three_case_rule_witness :
  ∃ votes' delta userVote,
    ThreeCaseRule (t_votes exampleThread) (q_id user2) downvote votes' delta
    ∧ voteOnThread exampleDB user2 "t1" (showVoteType downvote)
      = (mkDB (<["t1" := set_thread_votes exampleThread votes']>
                 (threads exampleDB))
              (updateAuthorReputation (t_author exampleThread) delta
                 (users exampleDB))
              (categories exampleDB) (tags exampleDB),
         mkResponse 200 "Vote recorded successfully"
           (VotePayload (upvotes votes' - downvotes votes') userVote)).
Proof.
  apply (proj2 (proj2 (castVote_three_case_rule exampleDB user2 "t1"))).
  reflexivity.
Defined.

(** C6.  A cast keeps a ledger with at most one vote per voter that way,
    whichever of the three cases applies; so does any sequence of casts on
    a ledger, and so does any sequence of vote requests, on threads and on
    replies, on a database all of whose ledgers have at most one vote per
    voter. *)
Theorem one_vote_per_voter :
  (∀ votes voter type,
     oneVotePerVoter votes → oneVotePerVoter (castVote votes voter type).1)
  ∧ (∀ votes casts,
       oneVotePerVoter votes → oneVotePerVoter (castVotes votes casts))
  ∧ (∀ user replyId type replies,
       repliesOneVotePerVoter replies →
       repliesOneVotePerVoter (findAndVoteReply user replyId type replies).2)
  ∧ (∀ db reqs,
       dbOneVotePerVoter db → dbOneVotePerVoter (foldl serveVote db reqs)).
Proof.
  split_and!.
  - apply castVote_oneVotePerVoter.
  - intros votes casts. apply castVotes_oneVotePerVoter.
  - apply findAndVoteReply_oneVotePerVoter.
  - intros db reqs. apply serveVote_oneVotePerVoter.
Qed.

Lemma one_vote_per_voter_witness :
  oneVotePerVoter
    (castVote [mkVote "u1" upvote; mkVote "u2" upvote] "u2" downvote).1.
Proof.
  apply (proj1 one_vote_per_voter).
  unfold oneVotePerVoter. by apply (bool_decide_unpack _).
Defined.

(** ** The handlers, by where their search comes to *)

Lemma recorded_hit (saves : nat → bool) (replyId : string) (replies : Replies)
    (d : nat) (target : Reply) :
  locate replyId 0 replies = loc_hit d target →
  recorded saves replyId replies = saves d.
Proof. intros H. unfold recorded. by rewrite H. Qed.

(** What a vote request on a reply the search comes to does to the
    database: the author's reputation is adjusted in any case, the vote is
    stored only on a document of [thread.replies]. *)
Lemma voteOnReply_hit (db : DB) (user : Requester) (threadId : ObjectId)
    (replyId : string) (ty : VoteType) (now : N) (thread : Thread)
    (d : nat) (target : Reply) :
  threads db !! threadId = Some thread →
  locate replyId 0 (t_replies thread) = loc_hit d target →
  ∃ before after replies',
    outline 0 (t_replies thread) = before ++ outlineOf d target ++ after
    ∧ (r_id target = Some replyId ∧ (replyId ∉ idsOf before) ∧ haveIds before)
    ∧ outline 0 replies'
      = before
        ++ outlineOf d
             (set_votes target (castVote (r_votes target) (q_id user) ty).1)
        ++ after
    ∧ findAndVoteReply user replyId ty (t_replies thread)
      = (vote_found
           (set_votes target (castVote (r_votes target) (q_id user) ty).1)
           (castVote (r_votes target) (q_id user) ty).2, replies')
    ∧ voteOnReply db user threadId replyId (showVoteType ty) now
      = let cast := castVote (r_votes target) (q_id user) ty in
        (mkDB (if savesFieldsAt d
               then <[threadId := set_thread_replies thread replies' now]>
                      (threads db)
               else threads db)
              (updateAuthorReputation (r_author target) cast.2 (users db))
              (categories db) (tags db),
         mkResponse 200 "Vote recorded successfully"
           (VotePayload (voteScore cast.1)
              (v_type <$> findVote (q_id user) cast.1))).
Proof.
  intros E Hl.
  pose proof (findAndVoteReply_locate user replyId ty (t_replies thread)) as H.
  rewrite Hl in H. destruct H as (l1 & l2 & r' & Ho & (Hid & Hb & Hb') & Hf & Ho').
  exists l1, l2, r'. split_and!; [done..|].
  unfold voteOnReply. rewrite parseVoteType_show, E, Hf.
  rewrite (recorded_hit _ _ _ _ _ Hl).
  destruct (savesFieldsAt d); by destruct target, db.
Qed.

Lemma voteOnReply_none (db : DB) (user : Requester) (threadId : ObjectId)
    (replyId : string) (ty : VoteType) (now : N) (thread : Thread) :
  threads db !! threadId = Some thread →
  locate replyId 0 (t_replies thread) = loc_none →
  voteOnReply db user threadId replyId (showVoteType ty) now
  = (db, mkResponse 404 "Reply not found" NoPayload).
Proof.
  intros E Hl.
  pose proof (findAndVoteReply_locate user replyId ty (t_replies thread)) as H.
  rewrite Hl in H. unfold voteOnReply. by rewrite parseVoteType_show, E, H.
Qed.

Lemma voteOnReply_thrown (db : DB) (user : Requester) (threadId : ObjectId)
    (replyId : string) (ty : VoteType) (now : N) (thread : Thread) :
  threads db !! threadId = Some thread →
  locate replyId 0 (t_replies thread) = loc_thrown →
  voteOnReply db user threadId replyId (showVoteType ty) now
  = (db, mkResponse 500 "Server error" NoPayload).
Proof.
  intros E Hl.
  pose proof (findAndVoteReply_locate user replyId ty (t_replies thread)) as H.
  rewrite Hl in H. unfold voteOnReply. by rewrite parseVoteType_show, E, H.
Qed.

(** What a delete request on a reply the search comes to does: the tree
    without the reply and the replies below it is stored when the reply
    is at depth 0 or 1; deeper, the request is answered 200 all the same
    and nothing is written. *)
Lemma deleteReply_hit (db : DB) (user : Requester) (threadId : ObjectId)
    (replyId : string) (now : N) (thread : Thread) (d : nat) (target : Reply) :
  threads db !! threadId = Some thread →
  locate replyId 0 (t_replies thread) = loc_hit d target →
  notAuthorized user target = false →
  ∃ before after replies',
    outline 0 (t_replies thread) = before ++ outlineOf d target ++ after
    ∧ (r_id target = Some replyId ∧ (replyId ∉ idsOf before) ∧ haveIds before)
    ∧ outline 0 replies' = before ++ after
    ∧ findAndRemoveReply user replyId (t_replies thread) = (remove_true, replies')
    ∧ deleteReply db user threadId replyId now
      = (if savesSpliceAt d
         then set_threads db
                (<[threadId := set_thread_replies thread replies' now]>
                   (threads db))
         else db,
         mkResponse 200 "Reply deleted successfully" NoPayload).
Proof.
  intros E Hl Hauth.
  pose proof (findAndRemoveReply_locate user replyId (t_replies thread)) as H.
  rewrite Hl, Hauth in H. destruct H as (l1 & l2 & r' & Ho & (Hid & Hb & Hb') & Hf & Ho').
  exists l1, l2, r'. split_and!; [done..|].
  unfold deleteReply. rewrite E, Hf, (recorded_hit _ _ _ _ _ Hl).
  by destruct (savesSpliceAt d).
Qed.

Lemma deleteReply_refused (db : DB) (user : Requester) (threadId : ObjectId)
    (replyId : string) (now : N) (thread : Thread) (d : nat) (target : Reply) :
  threads db !! threadId = Some thread →
  locate replyId 0 (t_replies thread) = loc_hit d target →
  notAuthorized user target = true →
  deleteReply db user threadId replyId now
  = (db, mkResponse 403 "Not authorized to delete this reply" NoPayload).
Proof.
  intros E Hl Hauth.
  pose proof (findAndRemoveReply_locate user replyId (t_replies thread)) as H.
  rewrite Hl, Hauth in H. unfold deleteReply. by rewrite E, H.
Qed.

Lemma deleteReply_none (db : DB) (user : Requester) (threadId : ObjectId)
    (replyId : string) (now : N) (thread : Thread) :
  threads db !! threadId = Some thread →
  locate replyId 0 (t_replies thread) = loc_none →
  deleteReply db user threadId replyId now
  = (db, mkResponse 404 "Reply not found" NoPayload).
Proof.
  intros E Hl.
  pose proof (findAndRemoveReply_locate user replyId (t_replies thread)) as H.
  rewrite Hl in H. unfold deleteReply. by rewrite E, H.
Qed.

Lemma deleteReply_thrown (db : DB) (user : Requester) (threadId : ObjectId)
    (replyId : string) (now : N) (thread : Thread) :
  threads db !! threadId = Some thread →
  locate replyId 0 (t_replies thread) = loc_thrown →
  deleteReply db user threadId replyId now
  = (db, mkResponse 403 "Not authorized to delete this reply" NoPayload).
Proof.
  intros E Hl.
  pose proof (findAndRemoveReply_locate user replyId (t_replies thread)) as H.
  rewrite Hl in H. unfold deleteReply. by rewrite E, H.
Qed.

(** What an edit request on a reply the search comes to does: the edit is
    stored only on a document of [thread.replies], where an empty content
    makes [save] throw; below, the request is answered 200 and nothing is
    written. *)
Lemma updateReply_hit (db : DB) (user : Requester) (threadId : ObjectId)
    (replyId content : string) (now : N) (thread : Thread)
    (d : nat) (target : Reply) :
  validateReply content = true →
  threads db !! threadId = Some thread →
  locate replyId 0 (t_replies thread) = loc_hit d target →
  notAuthorized user target = false →
  ∃ before after replies',
    outline 0 (t_replies thread) = before ++ outlineOf d target ++ after
    ∧ (r_id target = Some replyId ∧ (replyId ∉ idsOf before) ∧ haveIds before)
    ∧ outline 0 replies'
      = before ++ outlineOf d (set_edited target (trim content) now) ++ after
    ∧ findAndUpdateReply user replyId (trim content) now (t_replies thread)
      = (update_reply (set_edited target (trim content) now), replies')
    ∧ updateReply db user threadId replyId content now
      = if savesFieldsAt d then
          if String.eqb (trim content) "" then
            (db, mkResponse 403 "Not authorized to edit this reply" NoPayload)
          else
            (set_threads db
               (<[threadId := set_thread_replies thread replies' now]>
                  (threads db)),
             mkResponse 200 "Reply updated successfully"
               (ReplyPayload (r_fields (set_edited target (trim content) now))))
        else
          (db, mkResponse 200 "Reply updated successfully"
                 (ReplyPayload (r_fields (set_edited target (trim content) now)))).
Proof.
  intros Hv E Hl Hauth.
  pose proof (findAndUpdateReply_locate user replyId (trim content) now
                (t_replies thread)) as H.
  rewrite Hl, Hauth in H. destruct H as (l1 & l2 & r' & Ho & (Hid & Hb & Hb') & Hf & Ho').
  exists l1, l2, r'. split_and!; [done..|].
  unfold updateReply. rewrite Hv. simpl.
  by rewrite E, Hf, (recorded_hit _ _ _ _ _ Hl).
Qed.

Lemma updateReply_refused (db : DB) (user : Requester) (threadId : ObjectId)
    (replyId content : string) (now : N) (thread : Thread)
    (d : nat) (target : Reply) :
  validateReply content = true →
  threads db !! threadId = Some thread →
  locate replyId 0 (t_replies thread) = loc_hit d target →
  notAuthorized user target = true →
  updateReply db user threadId replyId content now
  = (db, mkResponse 403 "Not authorized to edit this reply" NoPayload).
Proof.
  intros Hv E Hl Hauth.
  pose proof (findAndUpdateReply_locate user replyId (trim content) now
                (t_replies thread)) as H.
  rewrite Hl, Hauth in H. unfold updateReply. rewrite Hv. simpl.
  by rewrite E, H.
Qed.

Lemma updateReply_none (db : DB) (user : Requester) (threadId : ObjectId)
    (replyId content : string) (now : N) (thread : Thread) :
  validateReply content = true →
  threads db !! threadId = Some thread →
  locate replyId 0 (t_replies thread) = loc_none →
  updateReply db user threadId replyId content now
  = (db, mkResponse 404 "Reply not found" NoPayload).
Proof.
  intros Hv E Hl.
  pose proof (findAndUpdateReply_locate user replyId (trim content) now
                (t_replies thread)) as H.
  rewrite Hl in H. unfold updateReply. rewrite Hv. simpl. by rewrite E, H.
Qed.

Lemma updateReply_thrown (db : DB) (user : Requester) (threadId : ObjectId)
    (replyId content : string) (now : N) (thread : Thread) :
  validateReply content = true →
  threads db !! threadId = Some thread →
  locate replyId 0 (t_replies thread) = loc_thrown →
  updateReply db user threadId replyId content now
  = (db, mkResponse 403 "Not authorized to edit this reply" NoPayload).
Proof.
  intros Hv E Hl.
  pose proof (findAndUpdateReply_locate user replyId (trim content) now
                (t_replies thread)) as H.
  rewrite Hl in H. unfold updateReply. rewrite Hv. simpl. by rewrite E, H.
Qed.

Lemma seededDB_t1 : threads seededDB !! "t1" = Some exampleThread.
Proof. reflexivity. Qed.

Lemma castVote_twice (votes : list Vote) (voter : ObjectId) (type : VoteType) :
  voter ∉ voters votes →
  castVote (castVote votes voter type).1 voter type
  = (votes, deltaToggleOff type).
Proof.
  intros Hno. rewrite (castVote_new votes) by done. simpl.
  rewrite castVote_same by done. by rewrite app_nil_r.
Qed.

Lemma voteScore_new (votes : list Vote) (voter : ObjectId) (type : VoteType) :
  voteScore (votes ++ [mkVote voter type]) = voteScore votes + deltaAdd type.
Proof. rewrite voteScore_app, voteScore_cons, voteScore_nil. simpl. lia. Qed.

(** Two casts of one type by a voter who does not hold the opposite vote
    leave the score where it was. *)
Lemma castVote_twice_score (votes : list Vote) (voter : ObjectId)
    (type : VoteType) :
  oneVotePerVoter votes →
  mkVote voter (opposite type) ∉ votes →
  voteScore (castVote (castVote votes voter type).1 voter type).1
  = voteScore votes.
Proof.
  intros Hnd Hopp. destruct (findIndex voter votes) as [i|] eqn:E.
  - destruct (findIndex_Some _ _ _ E) as (l1 & old & l2 & -> & _ & Hl1).
    assert (old = type) as ->.
    { destruct old, type; try done; exfalso; apply Hopp;
        rewrite elem_of_app; right; apply list_elem_of_here. }
    rewrite castVote_same by done. cbn [fst].
    assert (voter ∉ voters (l1 ++ l2)) as Hno.
    { unfold oneVotePerVoter, voters in *. rewrite fmap_app in *. simpl in Hnd.
      apply NoDup_app in Hnd as (_ & _ & Hnd). apply NoDup_cons in Hnd as [Hl2 _].
      rewrite not_elem_of_app. by split. }
    rewrite castVote_new by done. cbn [fst].
    rewrite !voteScore_app, !voteScore_cons, voteScore_nil. simpl. lia.
  - apply findIndex_None in E. by rewrite castVote_twice.
Qed.

(** ** The reply handlers on trees with replies below the top level *)

Lemma builtDB_t2 :
  t_replies <$> threads builtDB !! "t2"
  = Some
      (rcons
         (mkReply (mkReplyFields (Some "r1") "u1" "first" [] None false None 11)
            (rcons
               (mkReply
                  (mkReplyFields None "u2" "second" [] (Some "r1") false None 12)
                  rnil)
               rnil))
         (rcons
            (mkReply (mkReplyFields (Some "r3") "u1" "third" [] None false None 13)
               rnil)
            rnil)).
Proof. vm_compute. reflexivity. Qed.

(** The three requests that build the tree are all answered 201. *)
Example builtDB_requests_served :
  status (addReply seededDB user1 "t2" "first" None "r1" 11).2 = 201%nat
  ∧ status (addReply firstAdded user2 "t2" "second" (Some "r1") "r2" 12).2
    = 201%nat
  ∧ status (addReply secondAdded user1 "t2" "third" None "r3" 13).2 = 201%nat.
Proof. vm_compute. done. Qed.

Lemma castVote_delta_nonzero (votes : list Vote) (voter : ObjectId)
    (type : VoteType) :
  (castVote votes voter type).2 ≠ 0.
Proof.
  destruct (castVote_rule votes voter type); by destruct type.
Qed.

(** C3, where the code departs from it.  A delete request on a reply two
    or more levels below the top level, by its author or an admin, is
    answered 200 and removes nothing: the database is left as it was, so
    the reply, the replies below it and their votes are still there.  A
    delete request whose search comes to a reply without id is answered
    403, whoever sends it, and removes nothing.  Replies without id are
    what the add-reply handler stores below a top-level reply: on the
    thread built by three add-reply requests (a reply, a reply below it,
    a second top-level reply) the author of the second top-level reply
    cannot delete it.  On the tree A -> [B -> [C]] stored with ids,
    deleting C leaves the database, and so the vote statistics, as they
    were. *)
Theorem remove_deletes_subtree :
  (∀ db user threadId replyId now thread depth target,
     threads db !! threadId = Some thread →
     locate replyId 0 (t_replies thread) = loc_hit depth target →
     mayChange user (r_fields target) →
     (2 ≤ depth)%nat →
     deleteReply db user threadId replyId now
     = (db, mkResponse 200 "Reply deleted successfully" NoPayload))
  ∧ (∀ db user threadId replyId now thread,
       threads db !! threadId = Some thread →
       locate replyId 0 (t_replies thread) = loc_thrown →
       deleteReply db user threadId replyId now
       = (db, mkResponse 403 "Not authorized to delete this reply" NoPayload))
  ∧ ("r3" ∈ default [] (replyIds <$> (t_replies <$> threads builtDB !! "t2"))
     ∧ deleteReply builtDB user1 "t2" "r3" 20
       = (builtDB,
          mkResponse 403 "Not authorized to delete this reply" NoPayload))
  ∧ (deleteReply seededDB user1 "t1" "C" 20
     = (seededDB, mkResponse 200 "Reply deleted successfully" NoPayload)
     ∧ "C" ∈ replyIds (t_replies exampleThread)
     ∧ getVoteStats (deleteReply seededDB user1 "t1" "C" 20).1 "t1"
       = getVoteStats seededDB "t1").
Proof.
  split_and!.
  - intros db user threadId replyId now thread d t E Hl Hmay Hd.
    apply notAuthorized_false in Hmay.
    destruct (deleteReply_hit db user threadId replyId now thread d t E Hl Hmay)
      as (l1 & l2 & r' & _ & _ & _ & _ & ->).
    destruct d as [|[|d]]; [lia | lia | done].
  - intros db user threadId replyId now thread E Hl.
    by apply (deleteReply_thrown db user threadId replyId now thread).
  - rewrite builtDB_t2. by apply (bool_decide_unpack _).
  - vm_compute. reflexivity.
  - vm_compute. reflexivity.
  - by apply (bool_decide_unpack _).
  - vm_compute. reflexivity.
Qed.

Lemma remove_deletes_subtree_witness :
  deleteReply seededDB user1 "t1" "C" 20
  = (seededDB, mkResponse 200 "Reply deleted successfully" NoPayload).
Proof.
  apply (proj1 remove_deletes_subtree seededDB user1 "t1" "C" 20%N
           exampleThread 2%nat replyC).
  - reflexivity.
  - reflexivity.
  - left. reflexivity.
  - lia.
Defined.

(** C7, where the code departs from it.  Two vote requests of the same
    type on a reply below the top level, by a voter who has not voted on
    it: both are answered with the score plus the delta of a new vote,
    because the first vote is not stored; the threads are left as they
    were and the author's reputation is adjusted twice.  A vote request
    whose search comes to a reply without id is answered 500 and writes
    nothing.  On the tree A -> [B -> [C]] stored with ids, two upvotes of
    u3 on B are both answered with the score 0 and leave u2 with the
    reputation 2; on the thread built by the add-reply requests an upvote
    on the second top-level reply is answered 500. *)
Theorem toggle_twice_and_switch :
  (∀ db user threadId replyId ty now1 now2 thread depth target,
     threads db !! threadId = Some thread →
     locate replyId 0 (t_replies thread) = loc_hit depth target →
     (1 ≤ depth)%nat →
     q_id user ∉ voters (r_votes target) →
     ∃ db1 db2,
       voteOnReply db user threadId replyId (showVoteType ty) now1
       = (db1, mkResponse 200 "Vote recorded successfully"
                 (VotePayload (voteScore (r_votes target) + deltaAdd ty)
                    (Some ty)))
       ∧ voteOnReply db1 user threadId replyId (showVoteType ty) now2
         = (db2, mkResponse 200 "Vote recorded successfully"
                   (VotePayload (voteScore (r_votes target) + deltaAdd ty)
                      (Some ty)))
       ∧ threads db1 = threads db
       ∧ threads db2 = threads db
       ∧ users db2
         = updateAuthorReputation (r_author target) (deltaAdd ty)
             (updateAuthorReputation (r_author target) (deltaAdd ty) (users db)))
  ∧ (∀ db user threadId replyId ty now thread,
       threads db !! threadId = Some thread →
       locate replyId 0 (t_replies thread) = loc_thrown →
       voteOnReply db user threadId replyId (showVoteType ty) now
       = (db, mkResponse 500 "Server error" NoPayload))
  ∧ (∃ db1 db2,
       voteOnReply seededDB user3 "t1" "B" "upvote" 20
       = (db1, mkResponse 200 "Vote recorded successfully"
                 (VotePayload 0 (Some upvote)))
       ∧ voteOnReply db1 user3 "t1" "B" "upvote" 21
         = (db2, mkResponse 200 "Vote recorded successfully"
                   (VotePayload 0 (Some upvote)))
       ∧ reputationOf seededDB "u2" = Some 0
       ∧ reputationOf db2 "u2" = Some 2
       ∧ threads db2 = threads seededDB)
  ∧ voteOnReply builtDB user3 "t2" "r3" "upvote" 20
    = (builtDB, mkResponse 500 "Server error" NoPayload).
Proof.
  split_and!.
  - intros db user threadId replyId ty now1 now2 thread d t E Hl Hd Hno.
    destruct (voteOnReply_hit db user threadId replyId ty now1 thread d t E Hl)
      as (l1 & l2 & r' & _ & _ & _ & _ & Hv).
    destruct d as [|d]; [lia|]. rewrite castVote_new in Hv by done.
    cbv zeta in Hv. cbn [fst snd savesFieldsAt Nat.eqb] in Hv.
    set (db1 := mkDB (threads db)
                  (updateAuthorReputation (r_author t) (deltaAdd ty) (users db))
                  (categories db) (tags db)) in *.
    destruct (voteOnReply_hit db1 user threadId replyId ty now2 thread (S d) t
                E Hl) as (l1' & l2' & r'' & _ & _ & _ & _ & Hv').
    rewrite castVote_new in Hv' by done.
    cbv zeta in Hv'. cbn [fst snd savesFieldsAt Nat.eqb] in Hv'.
    eexists db1, _. rewrite Hv, Hv'.
    rewrite voteScore_new, findVote_new by done. done.
  - intros db user threadId replyId ty now thread E Hl.
    by apply (voteOnReply_thrown db user threadId replyId ty now thread).
  - eexists _, _. split_and!; [by vm_compute | by vm_compute | done..].
  - vm_compute. reflexivity.
Qed.

Lemma toggle_twice_and_switch_witness :
  ∃ db1 db2,
    voteOnReply seededDB user3 "t1" "B" (showVoteType upvote) 20
    = (db1, mkResponse 200 "Vote recorded successfully"
              (VotePayload (voteScore (r_votes replyB) + deltaAdd upvote)
                 (Some upvote)))
    ∧ voteOnReply db1 user3 "t1" "B" (showVoteType upvote) 21
      = (db2, mkResponse 200 "Vote recorded successfully"
                (VotePayload (voteScore (r_votes replyB) + deltaAdd upvote)
                   (Some upvote)))
    ∧ threads db1 = threads seededDB
    ∧ threads db2 = threads seededDB
    ∧ users db2
      = updateAuthorReputation (r_author replyB) (deltaAdd upvote)
          (updateAuthorReputation (r_author replyB) (deltaAdd upvote)
             (users seededDB)).
Proof.
  apply (proj1 toggle_twice_and_switch seededDB user3 "t1" "B" upvote 20%N 21%N
           exampleThread 1%nat replyB).
  - reflexivity.
  - reflexivity.
  - lia.
  - by apply (bool_decide_unpack _).
Defined.

(** C10.  The score after a cast is the score before it plus the delta,
    in all three cases: on a ledger, and for a vote request on a thread,
    where the delta is the number the author's reputation is adjusted by
    and the new score is the one returned. *)
Theorem score_moves_by_delta :
  (∀ votes voter type,
     voteScore (castVote votes voter type).1
     = voteScore votes + (castVote votes voter type).2)
  ∧ (∀ db user threadId ty thread,
       threads db !! threadId = Some thread →
       ∃ db' thread' newScore userVote delta,
         voteOnThread db user threadId (showVoteType ty)
         = (db', mkResponse 200 "Vote recorded successfully"
                   (VotePayload newScore userVote))
         ∧ users db' = updateAuthorReputation (t_author thread) delta (users db)
         ∧ newScore = voteScore (t_votes thread) + delta
         ∧ threads db' !! threadId = Some thread'
         ∧ voteScore (t_votes thread') = newScore).
Proof.
  split.
  - apply castVote_score.
  - intros db user threadId ty thread E.
    rewrite (voteOnThread_found _ _ _ _ _ E). cbv zeta.
    eexists _, _, _, _, _.
    split_and!; [done | done | apply castVote_score | |].
    + cbn [threads]. apply lookup_insert_eq.
    + by destruct thread.
Qed.

Lemma score_moves_by_delta_witness :
  ∃ db' thread' newScore userVote delta,
    voteOnThread exampleDB user2 "t1" (showVoteType downvote)
    = (db', mkResponse 200 "Vote recorded successfully"
              (VotePayload newScore userVote))
    ∧ users db'
      = updateAuthorReputation (t_author exampleThread) delta (users exampleDB)
    ∧ newScore = voteScore (t_votes exampleThread) + delta
    ∧ threads db' !! "t1" = Some thread'
    ∧ voteScore (t_votes thread') = newScore.
Proof.
  apply (proj2 score_moves_by_delta). reflexivity.
Defined.
(** ** Adding replies *)

Lemma outline_push (rs : Replies) (r : Reply) (d : nat) :
  outline d (push rs r) = outline d rs ++ outlineOf d r.
Proof.
  induction rs as [|x rest _ IH] using Replies_tree_ind; simpl.
  - by rewrite app_nil_r.
  - rewrite IH. by rewrite <- !app_assoc.
Qed.

Lemma repliesLength_push (rs : Replies) (r : Reply) :
  repliesLength (push rs r) = S (repliesLength rs).
Proof.
  induction rs as [|x rest _ IH] using Replies_tree_ind; simpl; [done|].
  by rewrite IH.
Qed.

Lemma lastReply_push (rs : Replies) (r : Reply) : lastReply (push rs r) = Some r.
Proof.
  induction rs as [|x rest _ IH] using Replies_tree_ind; simpl; [done|].
  rewrite IH. by destruct rest.
Qed.

Lemma visit_length {R} (replyId : string) (atHit : Reply → R * Edit)
    (replies : Replies) :
  (∀ r, (atHit r).2 ≠ edit_remove) →
  repliesLength (visit replyId atHit replies).2 = repliesLength replies.
Proof.
  intros Hkeep.
  induction replies as [|r rest IHk IHr] using Replies_tree_ind; [done|].
  simpl. destruct (r_id r) as [id|]; [|done].
  destruct (String.eqb id replyId).
  - simpl. specialize (Hkeep r). by destruct (atHit r).2.
  - destruct (visit replyId atHit (r_replies r)) as [[res| |] k']; [done| |done].
    destruct (visit replyId atHit rest) as [res r'] eqn:E. simpl in *.
    by rewrite IHr.
Qed.


(** A search for an id that the search does not come to finds nothing and
    changes nothing. *)
Lemma findAndAddReply_missing (parentReplyId : string) (newReply : Reply)
    (replies : Replies) :
  allHaveIds replies →
  parentReplyId ∉ replyIds replies →
  findAndAddReply parentReplyId newReply replies = (add_false, replies).
Proof.
  intros Hall Hno.
  pose proof (findAndAddReply_locate parentReplyId newReply replies) as H.
  by rewrite (locate_missing _ _ Hall Hno) in H.
Qed.


Lemma truthy_Some (s : string) : s ≠ "" → truthy (Some s) = Some s.
Proof. intros Hne. simpl. by destruct (String.eqb_spec s ""). Qed.




Lemma acceptedReply_valid (content : string) :
  acceptedReply content = true → validateReply content = true.
Proof. unfold acceptedReply. by intros [_ ?]%andb_true_iff. Qed.

(** The add-reply request without a parent, in full. *)
Lemma addReply_top (db : DB) (user : Requester) (threadId : ObjectId)
    (thread : Thread) (content : string) (parentReplyId : option string)
    (newId : ObjectId) (now : N) :
  validateReply content = true →
  trim content ≠ "" →
  threads db !! threadId = Some thread →
  t_isLocked thread = false →
  truthy parentReplyId = None →
  addReply db user threadId content parentReplyId newId now
  = (set_threads db
       (<[threadId :=
            set_thread_replies thread
              (push (t_replies thread)
                 (mkReply
                    (newReplyFields user (trim content) parentReplyId
                       (Some newId) now) rnil)) now]> (threads db)),
     mkResponse 201 "Reply added successfully"
       (ReplyPayload
          (newReplyFields user (trim content) parentReplyId (Some newId) now))).
Proof.
  intros Hv Hne E Hlock Htop.
  unfold addReply, newReplyFields. rewrite Hv. simpl negb. cbv iota.
  rewrite E, Hlock, Htop.
  destruct (String.eqb_spec (trim content) ""); [done|].
  by rewrite lastReply_push.
Qed.


(** C4, as the code has it.  In a tree whose replies all have an id, for
    a parent id that is neither null nor the empty string and that no
    reply has, the search returns [false] and leaves the tree as it was,
    and the add-reply request with an accepted content on an unlocked
    thread fails with 404 'Parent reply not found' without writing
    anything. *)
Theorem insert_under_missing_parent (db : DB) (user : Requester)
    (threadId : ObjectId) (thread : Thread) (content parentReplyId : string)
    (newId : ObjectId) (now : N) :
  threads db !! threadId = Some thread →
  t_isLocked thread = false →
  acceptedReply content = true →
  parentReplyId ≠ "" →
  allHaveIds (t_replies thread) →
  parentReplyId ∉ replyIds (t_replies thread) →
  (∀ newReply,
     findAndAddReply parentReplyId newReply (t_replies thread)
     = (add_false, t_replies thread))
  ∧ ∃ res,
      addReply db user threadId content (Some parentReplyId) newId now = (db, res)
      ∧ NotFound res ∧ message res = "Parent reply not found".
Proof.
  intros E Hlock Hv%acceptedReply_valid Hne Hall Hno. split.
  - intros newReply. by apply findAndAddReply_missing.
  - eexists. unfold addReply. rewrite Hv. simpl negb. cbv iota.
    rewrite E, Hlock. rewrite truthy_Some by done.
    rewrite findAndAddReply_missing by done. done.
Qed.

Lemma exampleThread_allHaveIds : allHaveIds (t_replies exampleThread).
Proof. repeat constructor; by eexists. Qed.

Lemma insert_under_missing_parent_witness :
  (∀ newReply,
     findAndAddReply "Z" newReply (t_replies exampleThread)
     = (add_false, t_replies exampleThread))
  ∧ ∃ res,
      addReply exampleDB user1 "t1" "hello" (Some "Z") "N" 7 = (exampleDB, res)
      ∧ NotFound res ∧ message res = "Parent reply not found".
Proof.
  apply (insert_under_missing_parent exampleDB user1 "t1" exampleThread).
  - reflexivity.
  - reflexivity.
  - reflexivity.
  - by apply (bool_decide_unpack _).
  - repeat constructor; by eexists.
  - by apply (bool_decide_unpack _).
Defined.

(** C4, as stated, fails: the empty string is a parent id that is not
    null and that no reply has, and the request does not fail; it adds the
    reply at the top level. *)
Lemma insert_under_missing_parent_counterexample :
  ¬ (∀ db user threadId thread content parentReplyId newId now,
       threads db !! threadId = Some thread →
       t_isLocked thread = false →
       parentReplyId ∉ replyIds (t_replies thread) →
       ∃ res,
         addReply db user threadId content (Some parentReplyId) newId now
         = (db, res)
         ∧ NotFound res).
Proof.
  intros H.
  destruct (H exampleDB user1 "t1" exampleThread "hello" "" "N" 7%N)
    as (res & Hres & Hnf).
  - reflexivity.
  - reflexivity.
  - by apply (bool_decide_unpack _).
  - apply (f_equal (λ p, status p.2)) in Hres. simpl in Hres.
    unfold NotFound in Hnf. rewrite Hnf in Hres. vm_compute in Hres. done.
Qed.

Example empty_parent_id_adds_top_level :
  ∃ db',
    addReply exampleDB user1 "t1" "hello" (Some "") "N" 7
    = (db', mkResponse 201 "Reply added successfully"
              (ReplyPayload
                 (mkReplyFields (Some "N") "u1" "hello" [] None false None 7)))
    ∧ (t_replies <$> threads db' !! "t1")
      = Some (rcons replyA
                (rcons (mkReply (mkReplyFields (Some "N") "u1" "hello" [] None
                                   false None 7) rnil) rnil)).
Proof. eexists. split; [vm_compute; reflexivity | vm_compute; reflexivity]. Qed.

(** With a reply that was itself added below another in the tree, the
    search for a parent id that no reply has throws, and the request is
    answered 500. *)
Example missing_parent_behind_nested_reply :
  addReply builtDB user1 "t2" "hello" (Some "Z") "N" 20
  = (builtDB, mkResponse 500 "Server error" NoPayload).
Proof. vm_compute. reflexivity. Qed.

(** The responses of the vote, edit and delete handlers, and the replies
    they store, do not depend on the lock flag. *)
Lemma lock_not_read (db : DB) (threadId : ObjectId) (thread : Thread)
    (b1 b2 : bool) (user : Requester) :
  (∀ type,
     (voteOnThread (withLock db threadId thread b1) user threadId type).2
     = (voteOnThread (withLock db threadId thread b2) user threadId type).2)
  ∧ (∀ replyId type now,
       (voteOnReply (withLock db threadId thread b1) user threadId replyId type now).2
       = (voteOnReply (withLock db threadId thread b2) user threadId replyId type now).2)
  ∧ (∀ replyId content now,
       (updateReply (withLock db threadId thread b1) user threadId replyId content now).2
       = (updateReply (withLock db threadId thread b2) user threadId replyId content now).2)
  ∧ (∀ replyId now,
       (deleteReply (withLock db threadId thread b1) user threadId replyId now).2
       = (deleteReply (withLock db threadId thread b2) user threadId replyId now).2).
Proof.
  split_and!.
  - intros type. unfold voteOnThread, withLock. cbn [threads set_threads].
    rewrite !lookup_insert_eq. destruct (parseVoteType type); [|done].
    cbn [t_votes set_thread_locked].
    by destruct (castVote (t_votes thread) (q_id user) v).
  - intros replyId type now. unfold voteOnReply, withLock.
    cbn [threads set_threads]. rewrite !lookup_insert_eq.
    destruct (parseVoteType type); [|done].
    cbn [t_replies set_thread_locked].
    by destruct (findAndVoteReply user replyId v (t_replies thread))
      as [[] ?].
  - intros replyId content now. unfold updateReply, withLock.
    destruct (validateReply content); [|done]. simpl negb. cbv iota.
    cbn [threads set_threads]. rewrite !lookup_insert_eq.
    cbn [t_replies set_thread_locked].
    destruct (findAndUpdateReply user replyId (trim content) now
                (t_replies thread)) as [[] ?]; [|done..].
    destruct (recorded savesFieldsAt replyId (t_replies thread)); [|done].
    by destruct (String.eqb (trim content) "").
  - intros replyId now. unfold deleteReply, withLock.
    cbn [threads set_threads]. rewrite !lookup_insert_eq.
    cbn [t_replies set_thread_locked].
    destruct (findAndRemoveReply user replyId (t_replies thread)) as [[] ?];
      [|done..].
    by destruct (recorded savesSpliceAt replyId (t_replies thread)).
Qed.

(** C5.  On a thread whose lock flag is set every add-reply request
    fails and writes nothing: with 403 'Thread is locked' when its content
    passes the validation of the route, with 400 when it does not.  Vote
    requests on the thread succeed as on an unlocked thread, and so do
    vote requests on a reply the search comes to.  An edit request by the
    author of a top-level reply, with an accepted content that is not
    empty when trimmed, succeeds and puts the new content in the reply's
    place, and the thread stays locked; a requester who is neither the
    author nor an admin gets 403, the same check as on an unlocked
    thread.  The responses of the vote, edit and delete handlers are the
    same whatever the lock flag of the thread. *)
Theorem lock_blocks_only_new_replies (db : DB) (threadId : ObjectId)
    (thread : Thread) :
  threads db !! threadId = Some thread →
  t_isLocked thread = true →
  (∀ user content parentReplyId newId now,
     ∃ res, addReply db user threadId content parentReplyId newId now = (db, res)
            ∧ (validateReply content = true →
               Forbidden res ∧ message res = "Thread is locked")
            ∧ (validateReply content = false → InvalidInput res))
  ∧ (∀ user ty,
       ∃ db' res, voteOnThread db user threadId (showVoteType ty) = (db', res)
                  ∧ status res = 200%nat)
  ∧ (∀ user replyId ty now depth target,
       locate replyId 0 (t_replies thread) = loc_hit depth target →
       ∃ db' res,
         voteOnReply db user threadId replyId (showVoteType ty) now = (db', res)
         ∧ status res = 200%nat)
  ∧ (∀ user replyId content now target,
       acceptedReply content = true →
       trim content ≠ "" →
       locate replyId 0 (t_replies thread) = loc_hit 0 target →
       r_author target = q_id user →
       ∃ before after replies' thread',
         outline 0 (t_replies thread) = before ++ outlineOf 0 target ++ after
         ∧ updateReply db user threadId replyId content now
           = (set_threads db (<[threadId := thread']> (threads db)),
              mkResponse 200 "Reply updated successfully"
                (ReplyPayload (r_fields (set_edited target (trim content) now))))
         ∧ thread' = set_thread_replies thread replies' now
         ∧ t_isLocked thread' = true
         ∧ outline 0 replies'
           = before ++ outlineOf 0 (set_edited target (trim content) now)
             ++ after)
  ∧ (∀ user replyId content now depth target,
       validateReply content = true →
       locate replyId 0 (t_replies thread) = loc_hit depth target →
       ¬ mayChange user (r_fields target) →
       ∃ res, updateReply db user threadId replyId content now = (db, res)
              ∧ Forbidden res)
  ∧ (∀ user b1 b2,
       (∀ type,
          (voteOnThread (withLock db threadId thread b1) user threadId type).2
          = (voteOnThread (withLock db threadId thread b2) user threadId type).2)
       ∧ (∀ replyId type now,
            (voteOnReply (withLock db threadId thread b1) user threadId
               replyId type now).2
            = (voteOnReply (withLock db threadId thread b2) user threadId
                 replyId type now).2)
       ∧ (∀ replyId content now,
            (updateReply (withLock db threadId thread b1) user threadId
               replyId content now).2
            = (updateReply (withLock db threadId thread b2) user threadId
                 replyId content now).2)
       ∧ (∀ replyId now,
            (deleteReply (withLock db threadId thread b1) user threadId
               replyId now).2
            = (deleteReply (withLock db threadId thread b2) user threadId
                 replyId now).2)).
Proof.
  intros E Hlock. split_and!.
  - intros user content parentReplyId newId now. unfold addReply.
    destruct (validateReply content); simpl negb; cbv iota.
    + rewrite E, Hlock. eexists. split; [done|]. by split.
    + eexists. split; [done|]. by split.
  - intros user ty. rewrite (voteOnThread_found _ _ _ _ _ E). by eexists _, _.
  - intros user replyId ty now d t Hl.
    destruct (voteOnReply_hit db user threadId replyId ty now thread d t E Hl)
      as (l1 & l2 & r' & _ & _ & _ & _ & ->).
    by eexists _, _.
  - intros user replyId content now t Hv%acceptedReply_valid Hne Hl Hauthor.
    assert (notAuthorized user t = false) as Hauth
      by (apply notAuthorized_false; by left).
    destruct (updateReply_hit db user threadId replyId content now thread 0 t
                Hv E Hl Hauth) as (l1 & l2 & r' & Ho & _ & Ho' & _ & ->).
    exists l1, l2, r', (set_thread_replies thread r' now).
    cbn [savesFieldsAt Nat.eqb].
    destruct (String.eqb_spec (trim content) ""); [done|].
    split_and!; [done | done | done | by simpl | done].
  - intros user replyId content now d t Hv Hl Hnot.
    destruct (notAuthorized user t) eqn:Hauth.
    + rewrite (updateReply_refused db user threadId replyId content now thread
                 d t Hv E Hl Hauth). by eexists.
    + by apply notAuthorized_false in Hauth.
  - intros user b1 b2. apply lock_not_read.
Qed.

Lemma lock_blocks_only_new_replies_witness :
  ∃ res, addReply exampleDB user1 "t3" "hello" None "N" 7 = (exampleDB, res)
         ∧ (validateReply "hello" = true →
            Forbidden res ∧ message res = "Thread is locked")
         ∧ (validateReply "hello" = false → InvalidInput res).
Proof.
  apply (proj1 (lock_blocks_only_new_replies exampleDB "t3" lockedThread
                  eq_refl eq_refl)).
Defined.


(** ** Reputation *)

Lemma updateAuthorReputation_found (id : ObjectId) (delta : Z)
    (us : gmap ObjectId User) (author : User) :
  us !! id = Some author →
  updateAuthorReputation id delta us = <[id := adjustReputation author delta]> us.
Proof. intros E. unfold updateAuthorReputation. by rewrite E. Qed.

(** The reputation of the author over a sequence of vote requests on one
    thread: never below what the change of the score asks for, never
    negative once it is not, and exactly the change of the score when the
    floor never came into play. *)
Lemma voteRequests_reputation (threadId : ObjectId)
    (casts : list (Requester * VoteType)) :
  ∀ db thread author,
    threads db !! threadId = Some thread →
    users db !! t_author thread = Some author →
    ∃ thread' author',
      threads (voteRequests db threadId casts) !! threadId = Some thread'
      ∧ t_votes thread' = castVotes (t_votes thread) (ledgerCasts casts)
      ∧ users (voteRequests db threadId casts) !! t_author thread = Some author'
      ∧ (0 ≤ u_reputation author → 0 ≤ u_reputation author')
      ∧ u_reputation author
        + (voteScore (t_votes thread') - voteScore (t_votes thread))
        ≤ u_reputation author'
      ∧ ((∀ k, 0 ≤ u_reputation author
                   + (voteScore (castVotes (t_votes thread)
                                   (take k (ledgerCasts casts)))
                      - voteScore (t_votes thread))) →
         u_reputation author'
         = u_reputation author
           + (voteScore (t_votes thread') - voteScore (t_votes thread))).
Proof.
  induction casts as [|[user ty] more IH]; intros db thread author E Ea.
  - exists thread, author. simpl. split_and!; [done | done | done | done | lia | lia].
  - simpl voteRequests. rewrite (voteOnThread_found _ _ _ _ _ E).
    cbv zeta. cbn [fst snd].
    rewrite (updateAuthorReputation_found _ _ _ _ Ea).
    set (cast := castVote (t_votes thread) (q_id user) ty).
    set (thread1 := set_thread_votes thread cast.1).
    set (author1 := adjustReputation author cast.2).
    set (db1 := mkDB _ _ _ _).
    destruct (IH db1 thread1 author1) as (t' & a' & Et & Ev & Ea' & H0 & Hle & Heq).
    { apply lookup_insert_eq. }
    { apply lookup_insert_eq. }
    exists t', a'.
    pose proof (castVote_score (t_votes thread) (q_id user) ty) as Hs.
    fold cast in Hs.
    change (t_votes thread1) with cast.1 in *.
    change (t_author thread1) with (t_author thread) in *.
    change (u_reputation author1)
      with (Z.max 0 (u_reputation author + cast.2)) in *.
    split_and!; [done | done | done | lia | lia |].
    intros Hk.
    pose proof (Hk 1%nat) as H1. simpl in H1. fold cast in H1.
    rewrite Heq; [lia|].
    intros k. specialize (Hk (S k)). simpl in Hk. fold cast in Hk. lia.
Qed.

(** C2, as the code has it.  The author's reputation after a sequence of
    vote requests on the author's single thread, which starts without
    votes and ends with N upvotes and M downvotes of distinct voters, is
    never negative and at least max(0, base + N - M); it equals
    base + N - M when base plus the score never fell below 0 on the way.
    The floor is applied at every cast ([adjustReputation]), not once at
    the end, and a delta that does not reach the floor is added in full,
    whatever the reputation. *)
Theorem reputation_after_votes :
  (∀ db threadId thread author casts,
     threads db !! threadId = Some thread →
     users db !! t_author thread = Some author →
     t_votes thread = [] →
     0 ≤ u_reputation author →
     ∃ thread' reputation,
       threads (voteRequests db threadId casts) !! threadId = Some thread'
       ∧ t_votes thread' = castVotes [] (ledgerCasts casts)
       ∧ oneVotePerVoter (t_votes thread')
       ∧ reputationOf (voteRequests db threadId casts) (t_author thread)
         = Some reputation
       ∧ 0 ≤ reputation
       ∧ Z.max 0 (u_reputation author
                  + upvotes (t_votes thread') - downvotes (t_votes thread'))
         ≤ reputation
       ∧ ((∀ k, 0 ≤ u_reputation author
                    + voteScore (castVotes [] (take k (ledgerCasts casts)))) →
          reputation
          = u_reputation author
            + upvotes (t_votes thread') - downvotes (t_votes thread')))
  ∧ (∀ author delta,
       u_reputation (adjustReputation author delta)
       = Z.max 0 (u_reputation author + delta))
  ∧ (∀ author delta,
       0 ≤ u_reputation author + delta →
       u_reputation (adjustReputation author delta)
       = u_reputation author + delta).
Proof.
  split_and!.
  - intros db threadId thread author casts E Ea Hv Hbase.
    destruct (voteRequests_reputation threadId casts db thread author E Ea)
      as (t' & a' & Et & Ev & Ea' & H0 & Hle & Heq).
    rewrite Hv in *. rewrite voteScore_nil in *.
    exists t', (u_reputation a'). unfold reputationOf. rewrite Ea'.
    unfold voteScore in Hle, Heq at 2.
    split_and!; [done | done | | done | by apply H0 | lia |].
    + rewrite Ev. apply castVotes_oneVotePerVoter. apply NoDup_nil_2.
    + intros Hk. rewrite Heq; [lia|]. intros k. specialize (Hk k). lia.
  - done.
  - intros author delta H. simpl. lia.
Qed.

(** One downvote and then one upvote on a thread whose author starts at
    0: the hypotheses hold there. *)
Lemma reputation_after_votes_witness :
  ∃ thread' reputation,
    threads (voteRequests exampleDB "t2" [(user1, downvote); (user2, upvote)])
      !! "t2" = Some thread'
    ∧ t_votes thread'
      = castVotes [] (ledgerCasts [(user1, downvote); (user2, upvote)])
    ∧ oneVotePerVoter (t_votes thread')
    ∧ reputationOf
        (voteRequests exampleDB "t2" [(user1, downvote); (user2, upvote)])
        (t_author freshThread) = Some reputation
    ∧ 0 ≤ reputation
    ∧ Z.max 0 (u_reputation (mkUser 0 role_user)
               + upvotes (t_votes thread') - downvotes (t_votes thread'))
      ≤ reputation
    ∧ ((∀ k, 0 ≤ u_reputation (mkUser 0 role_user)
                 + voteScore
                     (castVotes []
                        (take k (ledgerCasts [(user1, downvote); (user2, upvote)])))) →
       reputation
       = u_reputation (mkUser 0 role_user)
         + upvotes (t_votes thread') - downvotes (t_votes thread')).
Proof.
  apply (proj1 reputation_after_votes exampleDB "t2" freshThread
           (mkUser 0 role_user) [(user1, downvote); (user2, upvote)]).
  - reflexivity.
  - reflexivity.
  - reflexivity.
  - simpl. lia.
Defined.

Example downvote_then_upvote_from_zero :
  reputationOf
    (voteRequests exampleDB "t2" [(user1, downvote); (user2, upvote)])
    "newcomer" = Some 1
  ∧ (t_votes <$>
       threads (voteRequests exampleDB "t2" [(user1, downvote); (user2, upvote)])
         !! "t2")
    = Some [mkVote "u1" downvote; mkVote "u2" upvote].
Proof. split; vm_compute; reflexivity. Qed.

(** C2, as stated, fails: from reputation 0, a downvote by u1 and then an
    upvote by u2 leave one upvote and one downvote of distinct voters, and
    the reputation is 1, not max(0, 0 + 1 - 1) = 0. *)
Lemma reputation_after_votes_counterexample :
  ¬ (∀ db threadId thread author casts,
       threads db !! threadId = Some thread →
       users db !! t_author thread = Some author →
       t_votes thread = [] →
       0 ≤ u_reputation author →
       reputationOf (voteRequests db threadId casts) (t_author thread)
       = Some (Z.max 0
                 (u_reputation author
                  + upvotes (castVotes [] (ledgerCasts casts))
                  - downvotes (castVotes [] (ledgerCasts casts))))).
Proof.
  intros H.
  specialize (H exampleDB "t2" freshThread (mkUser 0 role_user)
                [(user1, downvote); (user2, upvote)]
                eq_refl eq_refl eq_refl).
  vm_compute in H. specialize (H ltac:(discriminate)). discriminate.
Qed.

(** ** Tags *)

(** ** Tags *)

Lemma findOneByName_None (name : string) (docs : list Tag) :
  findOneByName name docs = None ↔ name ∉ namesOfTags docs.
Proof.
  unfold namesOfTags. induction docs as [|doc docs IH]; simpl.
  - split; [intros _; apply not_elem_of_nil | done].
  - rewrite not_elem_of_cons.
    destruct (String.eqb_spec (tag_name doc) name) as [->|Hne].
    + split; [done | by intros [? _]].
    + rewrite IH. split; [by split | by intros [_ ?]].
Qed.

Lemma findOneByName_Some (name : string) (docs : list Tag) (tag : Tag) :
  findOneByName name docs = Some tag →
  ∃ l1 l2, docs = l1 ++ tag :: l2 ∧ tag_name tag = name
           ∧ name ∉ namesOfTags l1.
Proof.
  unfold namesOfTags. induction docs as [|doc docs IH]; simpl; [done|].
  destruct (String.eqb_spec (tag_name doc) name) as [Heq|Hne].
  - intros [= <-]. exists [], docs. split_and!; [done | done | apply not_elem_of_nil].
  - intros H. destruct (IH H) as (l1 & l2 & -> & Hn & Hl1).
    exists (doc :: l1), l2. split_and!; [done | done |].
    simpl. by apply not_elem_of_cons.
Qed.

Lemma findOneByName_middle (l1 l2 : list Tag) (tag : Tag) :
  tag_name tag ∉ namesOfTags l1 →
  findOneByName (tag_name tag) (l1 ++ tag :: l2) = Some tag.
Proof.
  unfold namesOfTags. induction l1 as [|doc l1 IH]; simpl; intros Hno.
  - by rewrite String.eqb_refl.
  - apply not_elem_of_cons in Hno as [Hne Hno].
    destruct (String.eqb_spec (tag_name doc) (tag_name tag)); [done|].
    by apply IH.
Qed.

Lemma findOneByName_other (l1 l2 : list Tag) (t t' : Tag) (name : string) :
  tag_name t' = tag_name t →
  name ≠ tag_name t →
  findOneByName name (l1 ++ t' :: l2) = findOneByName name (l1 ++ t :: l2).
Proof.
  intros Hsame Hne. induction l1 as [|doc l1 IH]; simpl.
  - rewrite Hsame. by destruct (String.eqb_spec (tag_name t) name).
  - by rewrite IH.
Qed.

Lemma findOneByName_snoc_other (docs : list Tag) (t : Tag) (name : string) :
  name ≠ tag_name t →
  findOneByName name (docs ++ [t]) = findOneByName name docs.
Proof.
  intros Hne. induction docs as [|doc docs IH]; simpl.
  - by destruct (String.eqb_spec (tag_name t) name).
  - by rewrite IH.
Qed.

Lemma saveTag_middle (l1 l2 : list Tag) (t t' : Tag) :
  tag_id t' = tag_id t →
  tag_id t ∉ idsOfTags l1 →
  saveTag t' (l1 ++ t :: l2) = l1 ++ t' :: l2.
Proof.
  unfold idsOfTags. intros Hsame. induction l1 as [|doc l1 IH]; simpl; intros Hno.
  - by rewrite Hsame, String.eqb_refl.
  - apply not_elem_of_cons in Hno as [Hne Hno]. rewrite Hsame.
    destruct (String.eqb_spec (tag_id doc) (tag_id t)); [done|].
    by rewrite IH.
Qed.

Lemma saveTag_new (docs : list Tag) (t : Tag) :
  tag_id t ∉ idsOfTags docs → saveTag t docs = docs ++ [t].
Proof.
  unfold idsOfTags. induction docs as [|doc docs IH]; simpl; intros Hno; [done|].
  apply not_elem_of_cons in Hno as [Hne Hno].
  destruct (String.eqb_spec (tag_id doc) (tag_id t)); [done|].
  by rewrite IH.
Qed.

(** On ASCII text trimming and lower-casing commute, and lower-casing
    twice is lower-casing once: a name without surrounding white space is
    looked up and stored under its lower-cased form. *)
Lemma isSpace_lowerAscii (c : Ascii.ascii) : isSpace (lowerAscii c) = isSpace c.
Proof. by destruct c as [[] [] [] [] [] [] [] []]. Qed.

Lemma lowerAscii_idemp (c : Ascii.ascii) : lowerAscii (lowerAscii c) = lowerAscii c.
Proof. by destruct c as [[] [] [] [] [] [] [] []]. Qed.

Lemma toLowerCase_idemp (s : string) : toLowerCase (toLowerCase s) = toLowerCase s.
Proof. induction s as [|c s IH]; simpl; [done|]. by rewrite IH, lowerAscii_idemp. Qed.

Lemma trimStart_toLowerCase (s : string) :
  trimStart (toLowerCase s) = toLowerCase (trimStart s).
Proof.
  induction s as [|c s IH]; simpl; [done|]. rewrite isSpace_lowerAscii.
  by destruct (isSpace c).
Qed.

Lemma trimEnd_toLowerCase (s : string) :
  trimEnd (toLowerCase s) = toLowerCase (trimEnd s).
Proof.
  induction s as [|c s IH]; simpl; [done|]. rewrite IH, isSpace_lowerAscii.
  destruct (trimEnd s); simpl; [by destruct (isSpace c) | done].
Qed.

Lemma trim_toLowerCase (s : string) : trim (toLowerCase s) = toLowerCase (trim s).
Proof. unfold trim. by rewrite trimStart_toLowerCase, trimEnd_toLowerCase. Qed.

Lemma tagKey_trimmed (tagName : string) :
  trim tagName = tagName → tagKey tagName = toLowerCase tagName.
Proof.
  intros Ht. unfold tagKey, tagNameSetters.
  by rewrite trim_toLowerCase, Ht, toLowerCase_idemp.
Qed.

Example tagKey_React : tagKey "React" = "react" ∧ tagKey " React " = "react".
Proof. split; reflexivity. Qed.

Section TagLoop.

(** The ids the driver hands out for new tags during a request: no id
    twice. *)
Variable newId : nat → ObjectId.
Hypothesis newId_inj : ∀ i j, newId i = newId j → i = j.

(** The loop body on a name whose tag exists: the tag is rewritten in
    place with its counter raised by one. *)
Lemma processTag_found (created : nat)
    (tagName : string) (l1 l2 : list Tag) (tag : Tag) :
  NoDup (idsOfTags (l1 ++ tag :: l2)) →
  tag_name tag = tagKey tagName →
  tagKey tagName ∉ namesOfTags l1 →
  processTag newId created tagName (l1 ++ tag :: l2)
  = Some (set_usageCount tag (tag_usageCount tag + 1),
          l1 ++ set_usageCount tag (tag_usageCount tag + 1) :: l2,
          created).
Proof.
  intros Hnd Hname Hl1. unfold processTag. fold (tagKey tagName).
  rewrite <- Hname. rewrite findOneByName_middle by by rewrite Hname.
  rewrite saveTag_middle; [done | done |].
  unfold idsOfTags in Hnd. rewrite fmap_app in Hnd.
  apply NoDup_app in Hnd as (_ & Hd & _).
  intros Hin. apply (Hd _ Hin). simpl. apply list_elem_of_here.
Qed.

(** The loop body on a name without a tag: a tag with counter 1 and a new
    id is appended. *)
Lemma processTag_created (created : nat)
    (tagName : string) (docs : list Tag) :
  validTagName (tagKey tagName) = true →
  newId created ∉ idsOfTags docs →
  tagKey tagName ∉ namesOfTags docs →
  processTag newId created tagName docs
  = Some (mkTag (newId created) (tagKey tagName) 1,
          docs ++ [mkTag (newId created) (tagKey tagName) 1],
          S created).
Proof.
  intros Hvalid Hfresh Hno. unfold processTag. fold (tagKey tagName).
  rewrite (proj2 (findOneByName_None _ _) Hno), Hvalid.
  rewrite (saveTag_new docs) by done.
  rewrite (saveTag_middle docs []); done.
Qed.

Lemma usageOf_other (docs docs' : list Tag) (name : string) :
  findOneByName name docs' = findOneByName name docs →
  usageOf name docs' = usageOf name docs.
Proof. unfold usageOf. by intros ->. Qed.

(** What one turn of the loop does to the collection. *)
Lemma processTag_spec (created : nat)
    (tagName : string) (docs : list Tag) :
  is_Some (findOneByName (tagKey tagName) docs)
  ∨ validTagName (tagKey tagName) = true →
  freshFrom newId created docs →
  ∃ tag' docs' created',
    processTag newId created tagName docs = Some (tag', docs', created')
    ∧ findOneByName (tagKey tagName) docs' = Some tag'
    ∧ tag_name tag' = tagKey tagName
    ∧ tag_usageCount tag' = usageOf (tagKey tagName) docs + 1
    ∧ (∀ name, name ≠ tagKey tagName →
               findOneByName name docs' = findOneByName name docs)
    ∧ (∀ t, findOneByName (tagKey tagName) docs = Some t →
            tag_id tag' = tag_id t)
    ∧ freshFrom newId created' docs'
    ∧ (NoDup (namesOfTags docs) → NoDup (namesOfTags docs')).
Proof.
  intros Hvalid [Hnd Hfresh].
  destruct (findOneByName (tagKey tagName) docs) as [tag|] eqn:E.
  - destruct (findOneByName_Some _ _ _ E) as (l1 & l2 & -> & Hname & Hl1).
    eexists _, _, _. split; [by apply processTag_found|].
    assert (∀ n, idsOfTags (l1 ++ set_usageCount tag n :: l2)
                 = idsOfTags (l1 ++ tag :: l2)) as Hids
      by (intros n; unfold idsOfTags; by rewrite !fmap_app).
    assert (∀ n, namesOfTags (l1 ++ set_usageCount tag n :: l2)
                 = namesOfTags (l1 ++ tag :: l2)) as Hnames
      by (intros n; unfold namesOfTags; by rewrite !fmap_app).
    split_and!.
    + rewrite <- Hname.
      apply (findOneByName_middle l1 l2 (set_usageCount tag _)).
      simpl. by rewrite Hname.
    + done.
    + unfold usageOf. by rewrite E.
    + intros name Hne. apply findOneByName_other; [done | by rewrite Hname].
    + by intros t [= <-].
    + split; [by rewrite Hids | intros j Hj; rewrite Hids; by apply Hfresh].
    + by rewrite Hnames.
  - destruct Hvalid as [[? ?]|Hvalid]; [done|].
    apply findOneByName_None in E.
    assert (newId created ∉ idsOfTags docs) as Hnew by by apply Hfresh.
    eexists _, _, _. split; [by apply processTag_created|].
    split_and!.
    + apply (findOneByName_middle docs []
               (mkTag (newId created) (tagKey tagName) 1)). done.
    + done.
    + unfold usageOf. by rewrite (proj2 (findOneByName_None _ _) E).
    + intros name Hne. by apply findOneByName_snoc_other.
    + by intros t Ht.
    + unfold freshFrom, idsOfTags in *. rewrite fmap_app. simpl. split.
      * by apply NoDup_snoc_fresh.
      * intros j Hj. rewrite not_elem_of_app. split; [apply Hfresh; lia|].
        intros Hx. apply list_elem_of_singleton in Hx.
        apply newId_inj in Hx. lia.
    + intros Hnn. unfold namesOfTags in *. rewrite fmap_app. simpl.
      by apply NoDup_snoc_fresh.
Qed.

Lemma occurrences_cons (name tagName : string) (more : list string) :
  occurrences name (tagName :: more)
  = (if decide (tagKey tagName = name) then 1 else 0)
    + occurrences name more.
Proof.
  unfold occurrences. rewrite filter_cons.
  destruct (decide (tagKey tagName = name)); simpl length; lia.
Qed.

(** What the tag loop does to the collection. *)
Lemma processTags_spec (tagNames : list string) :
  ∀ created docs,
    Forall (λ n, validTagName (tagKey n) = true) tagNames →
    freshFrom newId created docs →
    ∃ docs' tagIds,
      processTags newId created tagNames docs = (docs', Some tagIds)
      ∧ (∀ name, usageOf name docs'
                 = usageOf name docs + occurrences name tagNames)
      ∧ Forall2 (resolvesTo docs') tagNames tagIds
      ∧ (∀ name t, findOneByName name docs = Some t →
                   ∃ t', findOneByName name docs' = Some t'
                         ∧ tag_id t' = tag_id t)
      ∧ (NoDup (namesOfTags docs) → NoDup (namesOfTags docs')).
Proof.
  induction tagNames as [|tagName more IH]; intros created docs Hvalid Hf.
  - exists docs, []. split_and!; [done | | constructor | by eauto | done].
    intros name. unfold occurrences. simpl. lia.
  - apply Forall_cons in Hvalid as [Hv Hvalid].
    destruct (processTag_spec created tagName docs (or_intror Hv) Hf)
      as (tag' & docs1 & created1 & Hp & Hfind & Hname & Hcount & Hother
          & Hid & Hf1 & Hnn1).
    destruct (IH created1 docs1 Hvalid Hf1)
      as (docs' & tagIds & Hps & Husage & Hres & Hstable & Hnn').
    exists docs', (tag_id tag' :: tagIds). simpl. rewrite Hp, Hps.
    split_and!; [done | | | | by auto].
    + intros name. rewrite Husage, occurrences_cons.
      destruct (decide (tagKey tagName = name)) as [<-|Hne].
      * unfold usageOf at 1. rewrite Hfind, Hcount. lia.
      * rewrite (usageOf_other docs docs1) by by apply Hother. lia.
    + constructor; [|done]. by apply Hstable.
    + intros name t Ht.
      destruct (decide (name = tagKey tagName)) as [->|Hne].
      * destruct (Hstable _ _ Hfind) as (t' & Ht' & Hi).
        exists t'. split; [done|]. rewrite Hi. by apply Hid.
      * apply Hstable. by rewrite Hother.
Qed.

End TagLoop.

(** What an accepted thread body comes to. *)
Lemma acceptedThread_parts (title content : string)
    (tagNames : option (list string)) :
  acceptedThread title content tagNames = true →
  validateThread title content tagNames = true
  ∧ trim title ≠ "" ∧ trim content ≠ ""
  ∧ Forall (λ n, validTagName (tagKey n) = true) (default [] tagNames).
Proof.
  unfold acceptedThread. rewrite !andb_true_iff, !negb_true_iff.
  intros (((((_ & _) & Hv) & Ht) & Hc) & Hn). split_and!; [done | | |].
  - by destruct (String.eqb_spec (trim title) "").
  - by destruct (String.eqb_spec (trim content) "").
  - apply Forall_forall. intros n Hin. rewrite forallb_forall in Hn.
    specialize (Hn n (proj1 (list_elem_of_In _ _) Hin)).
    unfold acceptedTagName in Hn. by apply andb_true_iff in Hn as [_ ?].
Qed.

(** The create request with an accepted body and an existing category,
    in full, from what the tag loop returns. *)
Lemma createThread_accepted (db : DB) (user : Requester)
    (title content : string) (category : ObjectId) (categoryDoc : Category)
    (tagNames : list string) (threadId : ObjectId)
    (newTagId : nat → ObjectId) (now : N) (docs' : list Tag)
    (tagIds : list ObjectId) :
  acceptedThread title content (Some tagNames) = true →
  categories db !! category = Some categoryDoc →
  processTags newTagId 0 tagNames (tags db) = (docs', Some tagIds) →
  createThread db user title content category tagNames threadId newTagId now
  = (mkDB (<[threadId :=
               mkThread (trim title) (trim content) (q_id user) category tagIds
                 [] rnil 0 false false now]> (threads db))
          (users db)
          (<[category :=
               mkCategory (c_name categoryDoc) (c_threadCount categoryDoc + 1)]>
             (categories db))
          docs',
     mkResponse 201 "Thread created successfully"
       (ThreadPayload threadId tagIds)).
Proof.
  intros (Hv & Ht & Hc & _)%acceptedThread_parts Ec Hps.
  unfold createThread. rewrite Hv. simpl negb. cbv iota. rewrite Ec, Hps.
  destruct (String.eqb_spec (trim title) ""); [done|].
  destruct (String.eqb_spec (trim content) ""); [done|]. done.
Qed.

(** C8, as the code has it.  A create request with an accepted body
    resolves every submitted name to the tag of its normalised form
    (trimmed and lower-cased), creating the tag when there is none, and
    adds one to the tag's usage counter for every submitted name: the
    counter of a name rises by the number of submitted names that
    normalise to it, and the thread's tag list holds one id per submitted
    name.  For two names that are equal after normalisation, both resolve
    to one tag with the normalised name, the thread holds its id twice and
    its counter rises by two.  For a name without surrounding white space
    the normalised form is the lower-cased name. *)
Theorem tags_resolved_and_counted (db : DB) (user : Requester)
    (title content : string) (category : ObjectId) (categoryDoc : Category)
    (tagNames : list string) (threadId : ObjectId)
    (newTagId : nat → ObjectId) (now : N) :
  categories db !! category = Some categoryDoc →
  (∀ i j, newTagId i = newTagId j → i = j) →
  freshFrom newTagId 0 (tags db) →
  acceptedThread title content (Some tagNames) = true →
  ∃ db' tagIds,
    createThread db user title content category tagNames threadId newTagId now
    = (db', mkResponse 201 "Thread created successfully"
              (ThreadPayload threadId tagIds))
    ∧ (t_tags <$> threads db' !! threadId) = Some tagIds
    ∧ Forall2 (resolvesTo (tags db')) tagNames tagIds
    ∧ (∀ name, usageOf name (tags db')
               = usageOf name (tags db) + occurrences name tagNames)
    ∧ (NoDup (namesOfTags (tags db)) → NoDup (namesOfTags (tags db')))
    ∧ (∀ a b,
         tagNames = [a; b] →
         tagKey a = tagKey b →
         ∃ tag,
           findOneByName (tagKey a) (tags db') = Some tag
           ∧ tag_name tag = tagKey a
           ∧ tagIds = [tag_id tag; tag_id tag]
           ∧ tag_usageCount tag = usageOf (tagKey a) (tags db) + 2)
    ∧ (∀ n, trim n = n → tagKey n = toLowerCase n).
Proof.
  intros Ec Hinj Hf Hacc.
  pose proof (acceptedThread_parts _ _ _ Hacc) as (_ & _ & _ & Hvalid).
  destruct (processTags_spec newTagId Hinj tagNames 0%nat (tags db) Hvalid Hf)
    as (docs' & tagIds & Hps & Husage & Hres & _ & Hnn).
  eexists _, tagIds.
  rewrite (createThread_accepted _ _ _ _ _ _ _ _ _ _ _ _ Hacc Ec Hps).
  split_and!; [done | | done | done | done | | apply tagKey_trimmed].
  - cbn [threads]. by rewrite lookup_insert_eq.
  - intros a b -> Hab. cbn [tags] in *.
    apply Forall2_cons_inv_l in Hres as (i1 & ids1 & (t1 & Ht1 & <-) & Hres & ->).
    apply Forall2_cons_inv_l in Hres as (i2 & ids2 & (t2 & Ht2 & <-) & Hres & ->).
    apply Forall2_nil_inv_l in Hres as ->.
    rewrite <- Hab, Ht1 in Ht2. injection Ht2 as <-.
    exists t1. split_and!; [done | | done |].
    + by destruct (findOneByName_Some _ _ _ Ht1) as (_ & _ & _ & ? & _).
    + specialize (Husage (tagKey a)). unfold usageOf at 1 in Husage.
      rewrite Ht1 in Husage. rewrite Husage, !occurrences_cons.
      rewrite !decide_True by done. unfold occurrences. simpl. lia.
Qed.

Lemma marks_inj (i j : nat) : marks i = marks j → i = j.
Proof.
  revert j. induction i as [|i IH]; intros [|j]; simpl; try done.
  intros [= H]. f_equal. by apply IH.
Qed.

Lemma exampleNewId_inj (i j : nat) : exampleNewId i = exampleNewId j → i = j.
Proof. unfold exampleNewId. simpl. intros [= H]. by apply marks_inj. Qed.

Lemma exampleDB_fresh : freshFrom exampleNewId 0 (tags exampleDB).
Proof.
  split.
  - by apply (bool_decide_unpack _).
  - intros j _ Hin. simpl in Hin. unfold exampleNewId in Hin. simpl in Hin.
    apply elem_of_cons in Hin as [Hin|Hin]; [discriminate|].
    apply list_elem_of_singleton in Hin. discriminate.
Qed.

(** The scenario of the design document: a thread created with the tags
    ["React", "react"]. *)
Example scenario_React_react :
  ∃ db',
    createThread exampleDB user1 "Hooks" "How do hooks work?" "general"
      ["React"; "react"] "t9" exampleNewId 9
    = (db', mkResponse 201 "Thread created successfully"
              (ThreadPayload "t9" ["#"; "#"]))
    ∧ tags db'
      = [mkTag "tag-js" "javascript" 2; mkTag "tag-reactjs" "reactjs" 1;
         mkTag "#" "react" 2].
Proof. eexists. split; vm_compute; reflexivity. Qed.

Lemma tags_resolved_and_counted_witness :
  ∃ db' tagIds tag,
    createThread exampleDB user1 "Hooks" "How do hooks work?" "general"
      ["React"; "react"] "t9" exampleNewId 9
    = (db', mkResponse 201 "Thread created successfully"
              (ThreadPayload "t9" tagIds))
    ∧ findOneByName (tagKey "React") (tags db') = Some tag
    ∧ tagIds = [tag_id tag; tag_id tag]
    ∧ tag_usageCount tag = usageOf (tagKey "React") (tags exampleDB) + 2.
Proof.
  destruct (tags_resolved_and_counted exampleDB user1 "Hooks"
              "How do hooks work?" "general" (mkCategory "General" 3)
              ["React"; "react"] "t9" exampleNewId 9
              eq_refl exampleNewId_inj exampleDB_fresh eq_refl)
    as (db' & tagIds & Hc & _ & _ & _ & _ & Htwo & _).
  destruct (Htwo "React" "react" eq_refl eq_refl) as (tag & Hf & _ & Hi & Hu).
  by exists db', tagIds, tag.
Defined.

(** C8, as stated, fails: with ["React", "react"] the counter of the tag
    react is raised twice for the one thread. *)
Lemma tags_resolved_and_counted_counterexample :
  ¬ (∀ db user title content category categoryDoc a b threadId newTagId now,
       categories db !! category = Some categoryDoc →
       (∀ i j : nat, newTagId i = newTagId j → i = j) →
       freshFrom newTagId 0 (tags db) →
       acceptedThread title content (Some [a; b]) = true →
       toLowerCase a = toLowerCase b →
       usageOf (toLowerCase a)
         (tags (createThread db user title content category [a; b]
                  threadId newTagId now).1)
       = usageOf (toLowerCase a) (tags db) + 1).
Proof.
  intros H.
  specialize (H exampleDB user1 "Hooks" "How do hooks work?" "general"
                (mkCategory "General" 3) "React" "react" "t9" exampleNewId 9%N
                eq_refl exampleNewId_inj exampleDB_fresh eq_refl eq_refl).
  vm_compute in H. discriminate.
Qed.

(** A name the tagSchema refuses: the request is answered 500, no thread
    is stored, and the counter of the name before it stays raised. *)
Example refused_tag_name_leaves_counter :
  ∃ db',
    createThread exampleDB user1 "Hooks" "How do hooks work?" "general"
      ["javascript"; "  "] "t9" exampleNewId 9
    = (db', mkResponse 500 "Server error" NoPayload)
    ∧ threads db' = threads exampleDB
    ∧ usageOf "javascript" (tags exampleDB) = 2
    ∧ usageOf "javascript" (tags db') = 3.
Proof. eexists. split_and!; vm_compute; reflexivity. Qed.

Lemma findTagById_Some (id : ObjectId) (docs : list Tag) (tag : Tag) :
  findTagById id docs = Some tag →
  ∃ l1 l2, docs = l1 ++ tag :: l2 ∧ tag_id tag = id ∧ id ∉ idsOfTags l1.
Proof.
  unfold idsOfTags. induction docs as [|doc docs IH]; simpl; [done|].
  destruct (String.eqb_spec (tag_id doc) id) as [Heq|Hne].
  - intros [= <-]. exists [], docs. split_and!; [done | done | apply not_elem_of_nil].
  - intros H. destruct (IH H) as (l1 & l2 & -> & Hn & Hl1).
    exists (doc :: l1), l2. split_and!; [done | done |].
    simpl. by apply not_elem_of_cons.
Qed.

Lemma findTagById_middle (l1 l2 : list Tag) (tag : Tag) :
  tag_id tag ∉ idsOfTags l1 →
  findTagById (tag_id tag) (l1 ++ tag :: l2) = Some tag.
Proof.
  unfold idsOfTags. induction l1 as [|doc l1 IH]; simpl; intros Hno.
  - by rewrite String.eqb_refl.
  - apply not_elem_of_cons in Hno as [Hne Hno].
    destruct (String.eqb_spec (tag_id doc) (tag_id tag)); [done|].
    by apply IH.
Qed.

Lemma findTagById_None (id : ObjectId) (docs : list Tag) :
  id ∉ idsOfTags docs → findTagById id docs = None.
Proof.
  unfold idsOfTags. induction docs as [|doc docs IH]; simpl; intros Hno; [done|].
  apply not_elem_of_cons in Hno as [Hne Hno].
  destruct (String.eqb_spec (tag_id doc) id); [done|]. by apply IH.
Qed.

Lemma deleteTagById_middle (l1 l2 : list Tag) (tag : Tag) :
  tag_id tag ∉ idsOfTags l1 →
  deleteTagById (tag_id tag) (l1 ++ tag :: l2) = l1 ++ l2.
Proof.
  unfold idsOfTags. induction l1 as [|doc l1 IH]; simpl; intros Hno.
  - by rewrite String.eqb_refl.
  - apply not_elem_of_cons in Hno as [Hne Hno].
    destruct (String.eqb_spec (tag_id doc) (tag_id tag)); [done|].
    by rewrite IH.
Qed.

Lemma findTagById_delete_other (id other : ObjectId) (docs : list Tag) :
  id ≠ other →
  findTagById id (deleteTagById other docs) = findTagById id docs.
Proof.
  intros Hne. induction docs as [|doc docs IH]; simpl; [done|].
  destruct (String.eqb_spec (tag_id doc) other) as [Ho|Ho]; simpl.
  - destruct (String.eqb_spec (tag_id doc) id); [congruence | done].
  - by rewrite IH.
Qed.

Lemma findTagById_save (tag : Tag) (docs : list Tag) :
  findTagById (tag_id tag) (saveTag tag docs) = Some tag.
Proof.
  induction docs as [|doc docs IH]; simpl.
  - by rewrite String.eqb_refl.
  - destruct (String.eqb_spec (tag_id doc) (tag_id tag)) as [He|Hne]; simpl.
    + by rewrite String.eqb_refl.
    + by destruct (String.eqb_spec (tag_id doc) (tag_id tag)).
Qed.

Lemma idsOfTags_save (tag : Tag) (docs : list Tag) :
  tag_id tag ∈ idsOfTags docs → idsOfTags (saveTag tag docs) = idsOfTags docs.
Proof.
  unfold idsOfTags. induction docs as [|doc docs IH]; simpl; intros Hin.
  - by apply elem_of_nil in Hin.
  - destruct (String.eqb_spec (tag_id doc) (tag_id tag)) as [He|Hne]; simpl.
    + by rewrite He.
    + apply elem_of_cons in Hin as [?|Hin]; [congruence|].
      f_equal. by apply IH.
Qed.

Lemma findTagById_elem (id : ObjectId) (docs : list Tag) (tag : Tag) :
  findTagById id docs = Some tag → id ∈ idsOfTags docs.
Proof.
  intros H. destruct (findTagById_Some _ _ _ H) as (l1 & l2 & -> & <- & _).
  unfold idsOfTags. rewrite fmap_app, elem_of_app. right. apply list_elem_of_here.
Qed.

Lemma findTagById_deleted (id : ObjectId) (docs : list Tag) :
  NoDup (idsOfTags docs) →
  findTagById id (deleteTagById id docs) = None.
Proof.
  intros Hnd. destruct (findTagById id docs) as [tag|] eqn:E.
  - destruct (findTagById_Some _ _ _ E) as (l1 & l2 & -> & <- & Hl1).
    rewrite deleteTagById_middle by done. apply findTagById_None.
    unfold idsOfTags in *. rewrite fmap_app in *. simpl in Hnd.
    apply NoDup_app in Hnd as (_ & _ & Hnd). apply NoDup_cons in Hnd as [Hl2 _].
    rewrite not_elem_of_app. by split.
  - assert (id ∉ idsOfTags docs) as Hno.
    { intros Hin. unfold idsOfTags in Hin.
      apply list_elem_of_fmap in Hin as (t & -> & Ht).
      apply list_elem_of_split in Ht as (l1 & l2 & ->).
      clear Hnd. induction l1 as [|d l1 IH]; simpl in E.
      - by rewrite String.eqb_refl in E.
      - destruct (String.eqb (tag_id d) (tag_id t)); [done | by apply IH]. }
    clear E. induction docs as [|doc docs IH]; simpl; [done|].
    unfold idsOfTags in Hno. simpl in Hno.
    apply not_elem_of_cons in Hno as [Hne Hno].
    apply NoDup_cons in Hnd as [_ Hnd].
    destruct (String.eqb_spec (tag_id doc) id) as [?|_]; [congruence|].
    simpl. destruct (String.eqb_spec (tag_id doc) id); [congruence|].
    by apply IH.
Qed.

Lemma setFirstMatch_NoDup (source target : ObjectId) (ids : list ObjectId) :
  source ≠ target → NoDup ids → source ∉ setFirstMatch source target ids.
Proof.
  intros Hne. induction ids as [|id ids IH]; simpl; intros Hnd.
  - apply not_elem_of_nil.
  - apply NoDup_cons in Hnd as [Hid Hnd].
    destruct (String.eqb_spec id source) as [->|Hx].
    + by apply not_elem_of_cons.
    + apply not_elem_of_cons. split; [done | by apply IH].
Qed.

(** What a merge does on a collection with unique ids: the target's
    counter becomes the sum, the source is deleted, and in every thread
    the first reference to the source is rewritten to the target, which
    is every reference in a thread that lists no tag twice. *)
Lemma mergeTags_spec (db : DB) (sourceId targetId : ObjectId)
    (sourceTag targetTag : Tag) :
  NoDup (idsOfTags (tags db)) →
  findTagById sourceId (tags db) = Some sourceTag →
  findTagById targetId (tags db) = Some targetTag →
  sourceId ≠ targetId →
  targetId ≠ "" →
  ∃ db',
    mergeTags db sourceId (Some targetId)
    = (db', mkResponse 200 "Tags merged successfully"
              (TagPayload targetId (tag_name targetTag)
                 (tag_usageCount targetTag + tag_usageCount sourceTag)))
    ∧ findTagById sourceId (tags db') = None
    ∧ findTagById targetId (tags db')
      = Some (set_usageCount targetTag
                (tag_usageCount targetTag + tag_usageCount sourceTag))
    ∧ threads db' = repointThreads sourceId targetId (threads db)
    ∧ (∀ id t, threads db !! id = Some t → NoDup (t_tags t) →
         ∃ t', threads db' !! id = Some t' ∧ sourceId ∉ t_tags t').
Proof.
  intros Hnd Hs Ht Hne Hnonempty.
  pose proof (findTagById_Some _ _ _ Hs) as (_ & _ & _ & His & _).
  pose proof (findTagById_Some _ _ _ Ht) as (_ & _ & _ & Hit & _).
  eexists. unfold mergeTags. simpl.
  destruct (String.eqb_spec targetId ""); [done|].
  rewrite Hs, Ht, His, Hit.
  destruct (String.eqb_spec sourceId targetId); [done|].
  cbn [tags set_tags set_threads threads]. split_and!.
  - done.
  - apply findTagById_deleted. rewrite idsOfTags_save; [done|].
    simpl. rewrite Hit. by eapply findTagById_elem.
  - cbn [tags set_tags set_threads threads].
    rewrite findTagById_delete_other by done.
    rewrite <- Hit at 1.
    apply (findTagById_save (set_usageCount targetTag _)).
  - done.
  - intros id t E Hdup. cbn [tags set_tags set_threads threads].
    unfold repointThreads. rewrite lookup_fmap, E. simpl.
    eexists. split; [done|]. simpl. by apply setFirstMatch_NoDup.
Qed.

(** C9 at a thread that lists the source tag twice, as the thread created
    with the tags ["React", "react"] does: the merge of react into reactjs
    answers 200, sums the counters (1 + 2) and deletes the tag react, and
    the thread still lists the deleted tag, in second place. *)
Theorem merge_leaves_second_reference :
  (t_tags <$> threads reactDB !! "t9") = Some ["#"; "#"]
  ∧ findTagById "#" (tags reactDB) = Some (mkTag "#" "react" 2)
  ∧ ∃ db',
      mergeTags reactDB "#" (Some "tag-reactjs")
      = (db', mkResponse 200 "Tags merged successfully"
                (TagPayload "tag-reactjs" "reactjs" 3))
      ∧ findTagById "#" (tags db') = None
      ∧ (t_tags <$> threads db' !! "t9") = Some ["tag-reactjs"; "#"].
Proof.
  split_and!; [vm_compute; reflexivity | vm_compute; reflexivity |].
  eexists. split_and!; vm_compute; reflexivity.
Qed.

(** With the opposite vote in place the first of two casts is a switch
    and the second a removal: the score ends one off, not where it was. *)
Example switch_then_toggle_off :
  voteScore [mkVote "u1" downvote] = -1
  ∧ castVote [mkVote "u1" downvote] "u1" upvote = ([mkVote "u1" upvote], 2)
  ∧ castVote [mkVote "u1" upvote] "u1" upvote = ([], -1)
  ∧ voteScore (castVote (castVote [mkVote "u1" downvote] "u1" upvote).1
                 "u1" upvote).1 = 0.
Proof. split_and!; reflexivity. Qed.

(** * Further properties of the handlers *)

(** ** Votes *)

Lemma findVote_app (id : ObjectId) (l1 l2 : list Vote) :
  findVote id (l1 ++ l2)
  = match findVote id l1 with
    | Some v => Some v
    | None => findVote id l2
    end.
Proof.
  induction l1 as [|v l1 IH]; simpl; [done|].
  by destruct (String.eqb (v_user v) id).
Qed.

Lemma findVote_cons_other (id : ObjectId) (v : Vote) (l : list Vote) :
  v_user v ≠ id → findVote id (v :: l) = findVote id l.
Proof. intros Hne. simpl. by destruct (String.eqb_spec (v_user v) id). Qed.

Lemma otherVotes_app (voter : ObjectId) (l1 l2 : list Vote) :
  otherVotes voter (l1 ++ l2) = otherVotes voter l1 ++ otherVotes voter l2.
Proof. apply filter_app. Qed.

Lemma otherVotes_cons_own (voter : ObjectId) (type : VoteType) (l : list Vote) :
  otherVotes voter (mkVote voter type :: l) = otherVotes voter l.
Proof. unfold otherVotes. by rewrite filter_cons_False by (simpl; auto). Qed.

(** X1.  A cast changes nothing but the caster's own vote: the votes of all
    other voters are the same after it, in the same order, and every other
    voter's current vote reads as before. *)
Theorem cast_leaves_other_votes (votes : list Vote) (voter : ObjectId)
    (type : VoteType) :
  otherVotes voter (castVote votes voter type).1 = otherVotes voter votes
  ∧ ∀ other, other ≠ voter →
      findVote other (castVote votes voter type).1 = findVote other votes.
Proof.
  destruct (castVote_rule votes voter type)
    as [Hnew | l1 l2 -> _ | l1 l2 old -> _ _]; split.
  - rewrite otherVotes_app, otherVotes_cons_own. apply app_nil_r.
  - intros other Hne. rewrite findVote_app.
    rewrite findVote_cons_other by (simpl; congruence).
    by destruct (findVote other votes).
  - by rewrite !otherVotes_app, otherVotes_cons_own.
  - intros other Hne. rewrite !findVote_app.
    by rewrite findVote_cons_other by (simpl; congruence).
  - by rewrite !otherVotes_app, !otherVotes_cons_own.
  - intros other Hne. rewrite !findVote_app.
    by rewrite !findVote_cons_other by (simpl; congruence).
Qed.

Lemma cast_leaves_other_votes_witness :
  findVote "u1" (castVote [mkVote "u1" upvote; mkVote "u2" upvote]
                   "u2" downvote).1
  = findVote "u1" [mkVote "u1" upvote; mkVote "u2" upvote].
Proof.
  apply (proj2 (cast_leaves_other_votes
                  [mkVote "u1" upvote; mkVote "u2" upvote] "u2" downvote)).
  discriminate.
Defined.

Lemma findVote_middle (before after : list Vote) (voter : ObjectId)
    (type : VoteType) :
  voter ∉ voters before →
  findVote voter (before ++ mkVote voter type :: after)
  = Some (mkVote voter type).
Proof.
  intros Hb. rewrite findVote_app, findVote_None by done.
  simpl. by rewrite String.eqb_refl.
Qed.

Lemma voters_middle_NoDup (before after : list Vote) (v : Vote) :
  oneVotePerVoter (before ++ v :: after) → v_user v ∉ voters (before ++ after).
Proof.
  unfold oneVotePerVoter, voters. rewrite !fmap_app. simpl. intros Hnd.
  apply NoDup_app in Hnd as (_ & Hd & Hnd). apply NoDup_cons in Hnd as [Ha _].
  rewrite not_elem_of_app. split; [|done].
  intros Hin. apply (Hd _ Hin). apply list_elem_of_here.
Qed.

(** X2.  The [userVote] a vote request on a thread returns is the voter's
    vote after the request: none when the request took back a vote of the
    same type, the requested type otherwise (a new vote or a switched
    one).  The thread's ledger has at most one vote per voter. *)
Theorem userVote_after_vote (db : DB) (user : Requester) (threadId : ObjectId)
    (ty : VoteType) (thread : Thread) :
  threads db !! threadId = Some thread →
  oneVotePerVoter (t_votes thread) →
  ∃ db' score,
    voteOnThread db user threadId (showVoteType ty)
    = (db', mkResponse 200 "Vote recorded successfully"
              (VotePayload score
                 (if decide (findVote (q_id user) (t_votes thread)
                             = Some (mkVote (q_id user) ty))
                  then None else Some ty))).
Proof.
  intros E Hnd. rewrite (voteOnThread_found _ _ _ _ _ E). cbv zeta.
  eexists _, _. do 3 f_equal.
  destruct (findIndex (q_id user) (t_votes thread)) as [i|] eqn:Ei.
  - destruct (findIndex_Some _ _ _ Ei) as (l1 & old & l2 & Hv & _ & Hl1).
    rewrite Hv in *. rewrite (findVote_middle l1 l2) by done.
    destruct (decide (old = ty)) as [->|Hne].
    + rewrite decide_True by done. rewrite castVote_same by done. cbn [fst].
      rewrite findVote_None; [done|].
      apply (voters_middle_NoDup l1 l2 (mkVote (q_id user) ty) Hnd).
    + rewrite decide_False by congruence.
      rewrite castVote_other by done. cbn [fst].
      by rewrite findVote_middle.
  - apply findIndex_None in Ei. rewrite (findVote_None _ _ Ei).
    rewrite decide_False by done. rewrite castVote_new by done. cbn [fst].
    by rewrite findVote_new.
Qed.

Lemma userVote_after_vote_witness :
  ∃ db' score,
    voteOnThread exampleDB user2 "t1" (showVoteType upvote)
    = (db', mkResponse 200 "Vote recorded successfully"
              (VotePayload score
                 (if decide (findVote (q_id user2) (t_votes exampleThread)
                             = Some (mkVote (q_id user2) upvote))
                  then None else Some upvote))).
Proof.
  apply (userVote_after_vote exampleDB user2 "t1" upvote exampleThread).
  - reflexivity.
  - by apply (bool_decide_unpack _).
Defined.

Lemma updateAuthorReputation_other (id other : ObjectId) (delta : Z)
    (us : gmap ObjectId User) :
  other ≠ id → updateAuthorReputation id delta us !! other = us !! other.
Proof.
  intros Hne. unfold updateAuthorReputation.
  destruct (us !! id); [by rewrite lookup_insert_ne | done].
Qed.

Lemma updateAuthorReputation_dom (id : ObjectId) (delta : Z)
    (us : gmap ObjectId User) :
  dom (updateAuthorReputation id delta us) = dom us.
Proof.
  unfold updateAuthorReputation. destruct (us !! id) as [u|] eqn:E; [|done].
  rewrite dom_insert_L. apply subseteq_union_1_L, singleton_subseteq_l.
  by eapply elem_of_dom_2.
Qed.

Lemma updateAuthorReputation_nonneg (id : ObjectId) (delta : Z)
    (us : gmap ObjectId User) :
  map_Forall (λ _ u, 0 ≤ u_reputation u) us →
  map_Forall (λ _ u, 0 ≤ u_reputation u) (updateAuthorReputation id delta us).
Proof.
  intros H. unfold updateAuthorReputation. destruct (us !! id); [|done].
  apply map_Forall_insert_2; [simpl; lia | done].
Qed.

(** X3.  A vote request on a thread writes the thread and its author and
    nothing else: every other user, every other thread, the categories and
    the tags are as before, and no user is created or removed.  When the
    author's user document no longer exists the vote is still recorded and
    no user is written at all. *)
Theorem vote_writes_thread_and_author (db : DB) (user : Requester)
    (threadId : ObjectId) (ty : VoteType) (thread : Thread) :
  threads db !! threadId = Some thread →
  ∃ db' res,
    voteOnThread db user threadId (showVoteType ty) = (db', res)
    ∧ status res = 200%nat
    ∧ (t_votes <$> threads db' !! threadId)
      = Some (castVote (t_votes thread) (q_id user) ty).1
    ∧ (∀ other, other ≠ t_author thread → users db' !! other = users db !! other)
    ∧ (∀ other, other ≠ threadId → threads db' !! other = threads db !! other)
    ∧ dom (users db') = dom (users db)
    ∧ dom (threads db') = dom (threads db)
    ∧ categories db' = categories db
    ∧ tags db' = tags db
    ∧ (users db !! t_author thread = None → users db' = users db).
Proof.
  intros E. rewrite (voteOnThread_found _ _ _ _ _ E). cbv zeta.
  eexists _, _. split; [done|]. cbn [threads users categories tags status].
  split_and!; try done.
  - by rewrite lookup_insert_eq.
  - intros other Hne. by apply updateAuthorReputation_other.
  - intros other Hne. by rewrite lookup_insert_ne.
  - apply updateAuthorReputation_dom.
  - rewrite dom_insert_L. apply subseteq_union_1_L, singleton_subseteq_l.
    by eapply elem_of_dom_2.
  - intros Hnone. unfold updateAuthorReputation. by rewrite Hnone.
Qed.

Lemma vote_writes_thread_and_author_witness :
  ∃ db' res,
    voteOnThread exampleDB user3 "t1" (showVoteType upvote) = (db', res)
    ∧ status res = 200%nat
    ∧ (t_votes <$> threads db' !! "t1")
      = Some (castVote (t_votes exampleThread) (q_id user3) upvote).1
    ∧ (∀ other, other ≠ t_author exampleThread →
                users db' !! other = users exampleDB !! other)
    ∧ (∀ other, other ≠ "t1" → threads db' !! other = threads exampleDB !! other)
    ∧ dom (users db') = dom (users exampleDB)
    ∧ dom (threads db') = dom (threads exampleDB)
    ∧ categories db' = categories exampleDB
    ∧ tags db' = tags exampleDB
    ∧ (users exampleDB !! t_author exampleThread = None →
       users db' = users exampleDB).
Proof.
  apply (vote_writes_thread_and_author exampleDB user3 "t1" upvote exampleThread).
  reflexivity.
Defined.

Lemma voteOnThread_users (db : DB) (user : Requester) (threadId : ObjectId)
    (type : string) :
  users (voteOnThread db user threadId type).1 = users db
  ∨ ∃ id delta,
      users (voteOnThread db user threadId type).1
      = updateAuthorReputation id delta (users db).
Proof.
  unfold voteOnThread. destruct (parseVoteType type) as [ty|]; [|by left].
  destruct (threads db !! threadId) as [thread|]; [|by left].
  destruct (castVote (t_votes thread) (q_id user) ty) as [votes' delta].
  right. by eexists _, _.
Qed.

Lemma voteOnReply_users (db : DB) (user : Requester) (threadId : ObjectId)
    (replyId type : string) (now : N) :
  users (voteOnReply db user threadId replyId type now).1 = users db
  ∨ ∃ id delta,
      users (voteOnReply db user threadId replyId type now).1
      = updateAuthorReputation id delta (users db).
Proof.
  unfold voteOnReply. destruct (parseVoteType type) as [ty|]; [|by left].
  destruct (threads db !! threadId) as [thread|]; [|by left].
  destruct (findAndVoteReply user replyId ty (t_replies thread))
    as [[reply delta| |] replies']; [|by left..].
  right. eexists _, _. cbn [fst users set_users].
  by destruct (recorded savesFieldsAt replyId (t_replies thread)).
Qed.

(** X4.  Reputation never goes negative: on a database where no user has
    a negative reputation, no sequence of vote requests, on threads or on
    replies, valid or not, leaves a user with one; and no vote request
    creates or removes a user. *)
Theorem reputation_never_negative (db : DB) (reqs : list VoteRequest) :
  reputationsNonneg db →
  reputationsNonneg (foldl serveVote db reqs)
  ∧ dom (users (foldl serveVote db reqs)) = dom (users db).
Proof.
  revert db. induction reqs as [|req reqs IH]; intros db Hok; [done|].
  simpl.
  assert (reputationsNonneg (serveVote db req)
          ∧ dom (users (serveVote db req)) = dom (users db)) as [H1 H2].
  { unfold reputationsNonneg in *. destruct req; simpl.
    - destruct (voteOnThread_users db user threadId type)
        as [-> | (id & delta & ->)]; [done|].
      split; [by apply updateAuthorReputation_nonneg
             | apply updateAuthorReputation_dom].
    - destruct (voteOnReply_users db user threadId replyId type now)
        as [-> | (id & delta & ->)]; [done|].
      split; [by apply updateAuthorReputation_nonneg
             | apply updateAuthorReputation_dom]. }
  destruct (IH _ H1) as [H3 H4]. split; [done | by rewrite H4].
Qed.

Lemma reputation_never_negative_witness :
  reputationsNonneg
    (foldl serveVote exampleDB
       [VoteThread user1 "t2" "downvote"; VoteReply user3 "t1" "B" "downvote" 5;
        VoteThread user2 "t2" "sideways"])
  ∧ dom (users (foldl serveVote exampleDB
                  [VoteThread user1 "t2" "downvote";
                   VoteReply user3 "t1" "B" "downvote" 5;
                   VoteThread user2 "t2" "sideways"]))
    = dom (users exampleDB).
Proof.
  apply reputation_never_negative.
  intros id u Hu. change (users exampleDB) with
    ({[ "author" := mkUser 10 role_user; "newcomer" := mkUser 0 role_user ]}
       : gmap ObjectId User) in Hu.
  apply lookup_insert_Some in Hu as [[_ <-]|[_ Hu]]; [simpl; lia|].
  apply lookup_singleton_Some in Hu as [_ <-]. simpl. lia.
Defined.

(** ** Replies *)

(** X5.  A reply added without a parent, with a content that passes the
    validation of the route and is not empty when trimmed, goes to the
    end of the thread's top-level replies with the trimmed content and a
    new id: every reply there before keeps its place, the reply count
    rises by one, the vote statistics of the replies are as before, the
    thread's activity date is the date of the request, and the response
    carries the new reply.  A content that does not pass the validation
    is answered 400, and one that is empty when trimmed 500; neither
    writes anything. *)
Theorem reply_added_at_top_level (db : DB) (user : Requester)
    (threadId : ObjectId) (thread : Thread) (content : string)
    (parentReplyId : option string) (newId : ObjectId) (now : N) :
  threads db !! threadId = Some thread →
  t_isLocked thread = false →
  truthy parentReplyId = None →
  plainText content = true →
  (validateReply content = false →
   addReply db user threadId content parentReplyId newId now
   = (db, mkResponse 400 "Validation failed" NoPayload))
  ∧ (validateReply content = true → trim content = "" →
     addReply db user threadId content parentReplyId newId now
     = (db, mkResponse 500 "Server error" NoPayload))
  ∧ (validateReply content = true → trim content ≠ "" →
     ∃ replies',
       addReply db user threadId content parentReplyId newId now
       = (set_threads db
            (<[threadId := set_thread_replies thread replies' now]>
               (threads db)),
          mkResponse 201 "Reply added successfully"
            (ReplyPayload
               (newReplyFields user (trim content) parentReplyId (Some newId)
                  now)))
       ∧ outline 0 replies'
         = outline 0 (t_replies thread)
           ++ [(0%nat,
                newReplyFields user (trim content) parentReplyId (Some newId)
                  now)]
       ∧ repliesLength replies' = S (repliesLength (t_replies thread))
       ∧ calculateReplyStats replies' = calculateReplyStats (t_replies thread)).
Proof.
  intros E Hlock Htop _. split_and!.
  - intros Hv. unfold addReply. by rewrite Hv.
  - intros Hv He. unfold addReply. rewrite Hv. simpl negb. cbv iota.
    by rewrite E, Hlock, Htop, He.
  - intros Hv Hne.
    exists (push (t_replies thread)
              (mkReply (newReplyFields user (trim content) parentReplyId
                          (Some newId) now) rnil)).
    split_and!.
    + by apply addReply_top.
    + by rewrite outline_push.
    + apply repliesLength_push.
    + rewrite !(calculateReplyStats_tally _ 0), outline_push, tally_app.
      unfold outlineOf. simpl. unfold addStats. simpl.
      destruct (tally (outline 0 (t_replies thread))) as [up down]. simpl.
      by rewrite !Z.add_0_r.
Qed.

Lemma reply_added_at_top_level_witness :
  ∃ replies',
    addReply exampleDB user3 "t1" " hello " None "N" 7
    = (set_threads exampleDB
         (<["t1" := set_thread_replies exampleThread replies' 7]>
            (threads exampleDB)),
       mkResponse 201 "Reply added successfully"
         (ReplyPayload (newReplyFields user3 (trim " hello ") None (Some "N") 7)))
    ∧ outline 0 replies'
      = outline 0 (t_replies exampleThread)
        ++ [(0%nat, newReplyFields user3 (trim " hello ") None (Some "N") 7)]
    ∧ repliesLength replies' = S (repliesLength (t_replies exampleThread))
    ∧ calculateReplyStats replies'
      = calculateReplyStats (t_replies exampleThread).
Proof.
  apply (proj2 (proj2 (reply_added_at_top_level exampleDB user3 "t1"
                         exampleThread " hello " None "N" 7
                         eq_refl eq_refl eq_refl eq_refl))).
  - reflexivity.
  - by apply (bool_decide_unpack _).
Defined.

Example trim_hello : trim " hello " = "hello".
Proof. reflexivity. Qed.


Lemma seededDB_topAuthorsKnown :
  topAuthorsKnown seededDB (t_replies exampleThread).
Proof. repeat constructor; by eexists. Qed.


(** A reply below a reply that is itself below another: answered 201,
    and the stored tree is the one before. *)
Example reply_below_nested_parent_is_lost :
  ∃ db' res,
    addReply seededDB user3 "t1" "hello" (Some "B") "N" 7 = (db', res)
    ∧ status res = 201%nat
    ∧ (t_replies <$> threads db' !! "t1") = Some (t_replies exampleThread)
    ∧ (t_lastActivity <$> threads db' !! "t1") = Some 7%N.
Proof. eexists _, _. split_and!; vm_compute; reflexivity. Qed.

(** When the author of a top-level reply before the new one has no user
    document, the look-up of the added reply throws after the thread was
    saved: the request is answered 500 and the reply is stored. *)
Example reply_added_but_answered_500 :
  ∃ db',
    addReply exampleDB user3 "t1" "hello" (Some "A") "N" 7
    = (db', mkResponse 500 "Server error" NoPayload)
    ∧ (replyIds <$> (t_replies <$> threads db' !! "t1")) = Some ["A"; "B"; "C"]
    ∧ (repliesLength <$> (r_replies <$> (t_replies <$> threads db' !! "t1")
                            ≫= lastReply))
      = Some 2%nat.
Proof. eexists. split_and!; vm_compute; reflexivity. Qed.



(** A reply with the author, content and date of an earlier one: the
    response names the earlier reply, not the one just added. *)
Example nested_reply_response_names_older_reply :
  (payload
     (addReply seededDB user1 "t1" "third" (Some "A") "N" 3).2)
  = ReplyPayload (r_fields replyC).
Proof. vm_compute. reflexivity. Qed.

Lemma replyIds_middle (replies : Replies)
    (before after : list (nat * ReplyFields)) :
  outline 0 replies = before ++ after →
  replyIds replies = idsOf before ++ idsOf after.
Proof. intros Ho. by rewrite (replyIds_outline _ 0), Ho, idsOf_app. Qed.

(** A search that neither removes the reply nor changes the ids of the
    reply and of the replies below it leaves the ids of the tree as they
    are. *)
Lemma visit_ids {R} (replyId : string) (atHit : Reply → R * Edit)
    (replies : Replies) :
  (∀ r d, idsOf (editOutline (atHit r).2 d r) = idsOf (outlineOf d r)) →
  replyIds (visit replyId atHit replies).2 = replyIds replies.
Proof.
  intros Hsame. pose proof (visit_spec replyId atHit replies 0) as H.
  destruct (locate replyId 0 replies) as [d' t| |]; [| by rewrite H..].
  destruct H as (l1 & l2 & r' & Ho & _ & -> & Ho').
  simpl. rewrite !(replyIds_outline _ 0), Ho, Ho', !idsOf_app.
  by rewrite Hsame.
Qed.

Lemma replyIds_update (user : Requester) (replyId content : string) (now : N)
    (replies : Replies) :
  replyIds (findAndUpdateReply user replyId content now replies).2
  = replyIds replies.
Proof.
  rewrite findAndUpdateReply_visit. simpl. apply visit_ids.
  intros r d. unfold updateAction. by destruct (notAuthorized user r).
Qed.

Lemma replyIds_vote (user : Requester) (replyId : string) (type : VoteType)
    (replies : Replies) :
  replyIds (findAndVoteReply user replyId type replies).2 = replyIds replies.
Proof. rewrite findAndVoteReply_visit. by apply visit_ids. Qed.

(** A reply added below another has no id: the ids of the tree are as
    they were. *)
Lemma replyIds_add (parentReplyId : string) (new : ReplyFields)
    (replies : Replies) :
  f_id new = None →
  replyIds (findAndAddReply parentReplyId (mkReply new rnil) replies).2
  = replyIds replies.
Proof.
  intros Hnone. rewrite findAndAddReply_visit. simpl. apply visit_ids.
  intros r d. unfold addAction, editOutline, outlineOf. simpl.
  rewrite outline_push. unfold outlineOf. simpl.
  change ((d, r_fields r) :: outline (S d) (r_replies r) ++ [(S d, new)])
    with (((d, r_fields r) :: outline (S d) (r_replies r)) ++ [(S d, new)]).
  rewrite idsOf_app, idsOf_cons, Hnone. simpl. by rewrite app_nil_r.
Qed.

Lemma replyIds_push (rs : Replies) (new : ReplyFields) :
  replyIds (push rs (mkReply new rnil)) = replyIds rs ++ option_list (f_id new).
Proof.
  rewrite !(replyIds_outline _ 0), outline_push, idsOf_app. unfold outlineOf.
  rewrite idsOf_cons. simpl. by rewrite app_nil_r.
Qed.

Lemma NoDup_app_drop_middle {A} (l1 l2 l3 : list A) :
  NoDup (l1 ++ l2 ++ l3) → NoDup (l1 ++ l3).
Proof.
  rewrite !NoDup_app. intros (H1 & H123 & _ & H23 & H3).
  split_and!; [done | | done].
  intros x Hx Hx3. apply (H123 x Hx). rewrite elem_of_app. by right.
Qed.

Lemma replyIds_remove (user : Requester) (replyId : string)
    (replies : Replies) :
  NoDup (replyIds replies) →
  NoDup (replyIds (findAndRemoveReply user replyId replies).2).
Proof.
  intros Hnd. pose proof (findAndRemoveReply_locate user replyId replies) as H.
  destruct (locate replyId 0 replies) as [d t| |]; [| by rewrite H..].
  destruct (notAuthorized user t); [by rewrite H|].
  destruct H as (l1 & l2 & r' & Ho & _ & -> & Ho').
  simpl. rewrite (replyIds_middle _ _ _ Ho').
  rewrite (replyIds_outline _ 0), Ho, !idsOf_app in Hnd.
  by eapply NoDup_app_drop_middle.
Qed.

Lemma dbUniqueReplyIds_insert (db : DB) (threadId : ObjectId)
    (thread : Thread) (replies : Replies) (now : N) :
  dbUniqueReplyIds db →
  NoDup (replyIds replies) →
  dbUniqueReplyIds
    (set_threads db
       (<[threadId := set_thread_replies thread replies now]> (threads db))).
Proof.
  intros Hok Hnd. unfold dbUniqueReplyIds. cbn [threads set_threads].
  by apply map_Forall_insert_2.
Qed.

(** X8.  The ids of the replies of a thread stay pairwise different: on a
    database where they are, they still are after an add-reply request
    (for one without parent, when the id of the new document is not in
    the thread yet; a reply added below another gets no id, and the ids
    of the stored tree are those before), and after any edit, delete or
    vote request. *)
Theorem reply_ids_stay_unique (db : DB) :
  dbUniqueReplyIds db →
  (∀ user threadId content parentReplyId newId now,
     (truthy parentReplyId = None →
      ∀ thread, threads db !! threadId = Some thread →
                newId ∉ replyIds (t_replies thread)) →
     dbUniqueReplyIds
       (addReply db user threadId content parentReplyId newId now).1)
  ∧ (∀ user threadId content parentReplyId newId now thread,
       threads db !! threadId = Some thread →
       is_Some (truthy parentReplyId) →
       ∃ thread',
         threads (addReply db user threadId content parentReplyId newId now).1
           !! threadId = Some thread'
         ∧ replyIds (t_replies thread') = replyIds (t_replies thread))
  ∧ (∀ user threadId replyId content now,
       dbUniqueReplyIds (updateReply db user threadId replyId content now).1)
  ∧ (∀ user threadId replyId now,
       dbUniqueReplyIds (deleteReply db user threadId replyId now).1)
  ∧ (∀ user threadId replyId type now,
       dbUniqueReplyIds (voteOnReply db user threadId replyId type now).1)
  ∧ (∀ user threadId type,
       dbUniqueReplyIds (voteOnThread db user threadId type).1).
Proof.
  intros Hok. split_and!.
  - intros user threadId content parentReplyId newId now Hfresh.
    unfold addReply. destruct (validateReply content); [|done].
    simpl negb. cbv iota.
    destruct (threads db !! threadId) as [thread|] eqn:E; [|done].
    pose proof (Hok _ _ E) as Hnd.
    simpl in Hnd. destruct (t_isLocked thread); [done|].
    destruct (truthy parentReplyId) as [pid|].
    + pose proof (replyIds_add pid
                    (mkReplyFields None (q_id user) (trim content) [] (Some pid)
                       false None now) (t_replies thread) eq_refl) as Hids.
      destruct (findAndAddReply pid _ (t_replies thread)) as [[] replies'];
        [|done..].
      simpl in Hids.
      assert (dbUniqueReplyIds
                (set_threads db
                   (<[threadId :=
                        set_thread_replies thread
                          (if recorded savesPushBelow pid (t_replies thread)
                           then replies' else t_replies thread) now]>
                      (threads db)))) as Hdb.
      { apply dbUniqueReplyIds_insert; [done|].
        destruct (recorded savesPushBelow pid (t_replies thread)); [|done].
        by rewrite Hids. }
      by destruct (findReply (hasUser db) (q_id user) (trim content) now true
                     replies').
    + destruct (String.eqb (trim content) ""); [done|].
      assert (NoDup (replyIds (push (t_replies thread)
                (mkReply (mkReplyFields (Some newId) (q_id user) (trim content)
                            [] None false None now) rnil)))) as Hnd'.
      { rewrite replyIds_push. apply NoDup_snoc_fresh; [done|].
        by apply (Hfresh eq_refl thread). }
      destruct (lastReply _); by apply dbUniqueReplyIds_insert.
  - intros user threadId content parentReplyId newId now thread E [pid Hpid].
    unfold addReply. destruct (validateReply content); simpl negb; cbv iota;
      [|by exists thread].
    rewrite E. destruct (t_isLocked thread); [by exists thread|]. rewrite Hpid.
    pose proof (replyIds_add pid
                  (mkReplyFields None (q_id user) (trim content) [] (Some pid)
                     false None now) (t_replies thread) eq_refl) as Hids.
    destruct (findAndAddReply pid _ (t_replies thread)) as [[] replies'];
      [|by exists thread..].
    simpl in Hids.
    exists (set_thread_replies thread
              (if recorded savesPushBelow pid (t_replies thread)
               then replies' else t_replies thread) now).
    split.
    + destruct (findReply (hasUser db) (q_id user) (trim content) now true
                  replies'); cbn [fst threads set_threads];
        by rewrite lookup_insert_eq.
    + simpl. by destruct (recorded savesPushBelow pid (t_replies thread)).
  - intros user threadId replyId content now. unfold updateReply.
    destruct (validateReply content); [|done]. simpl negb. cbv iota.
    destruct (threads db !! threadId) as [thread|] eqn:E; [|done].
    pose proof (replyIds_update user replyId (trim content) now
                  (t_replies thread)) as Hi.
    destruct (findAndUpdateReply user replyId (trim content) now
                (t_replies thread)) as [[r| |] replies']; [|done..].
    destruct (recorded savesFieldsAt replyId (t_replies thread)); [|done].
    destruct (String.eqb (trim content) ""); [done|].
    apply dbUniqueReplyIds_insert; [done|]. simpl in Hi. rewrite Hi.
    apply (Hok _ _ E).
  - intros user threadId replyId now. unfold deleteReply.
    destruct (threads db !! threadId) as [thread|] eqn:E; [|done].
    pose proof (replyIds_remove user replyId (t_replies thread) (Hok _ _ E)) as Hi.
    destruct (findAndRemoveReply user replyId (t_replies thread))
      as [[| |] replies']; [|done..].
    destruct (recorded savesSpliceAt replyId (t_replies thread)); [|done].
    by apply dbUniqueReplyIds_insert.
  - intros user threadId replyId type now. unfold voteOnReply.
    destruct (parseVoteType type) as [ty|]; [|done].
    destruct (threads db !! threadId) as [thread|] eqn:E; [|done].
    pose proof (replyIds_vote user replyId ty (t_replies thread)) as Hi.
    destruct (findAndVoteReply user replyId ty (t_replies thread))
      as [[reply delta| |] replies']; [|done..].
    simpl in Hi. unfold dbUniqueReplyIds.
    destruct (recorded savesFieldsAt replyId (t_replies thread));
      cbn [fst threads set_users set_threads]; [|done].
    apply map_Forall_insert_2; [|done]. simpl. rewrite Hi. apply (Hok _ _ E).
  - intros user threadId type. unfold voteOnThread.
    destruct (parseVoteType type) as [ty|]; [|done].
    destruct (threads db !! threadId) as [thread|] eqn:E; [|done].
    destruct (castVote (t_votes thread) (q_id user) ty) as [votes' delta].
    unfold dbUniqueReplyIds. cbn [threads set_users set_threads].
    apply map_Forall_insert_2; [|done]. simpl. apply (Hok _ _ E).
Qed.

Lemma exampleDB_unique_ids : dbUniqueReplyIds exampleDB.
Proof.
  intros id t H.
  change (threads exampleDB) with
    ({[ "t1" := exampleThread; "t2" := freshThread; "t3" := lockedThread ]}
       : gmap ObjectId Thread) in H.
  apply lookup_insert_Some in H as [[_ <-]|[_ H]];
    [by apply (bool_decide_unpack _)|].
  apply lookup_insert_Some in H as [[_ <-]|[_ H]];
    [by apply (bool_decide_unpack _)|].
  apply lookup_singleton_Some in H as [_ <-]. by apply (bool_decide_unpack _).
Qed.

Lemma reply_ids_stay_unique_witness :
  dbUniqueReplyIds (deleteReply exampleDB user2 "t1" "B" 9).1.
Proof.
  apply (proj1 (proj2 (proj2 (proj2 (reply_ids_stay_unique exampleDB
                                       exampleDB_unique_ids))))).
Defined.

(** X9.  In a tree whose replies all have ids, pairwise different, a
    reply deleted at the top level or one level below it, and the replies
    that were below it, are gone for good: the delete request answers 200
    and stores the tree without them, and afterwards a vote, an edit or
    another delete that names any of their ids answers 404 and writes
    nothing. *)
Theorem deleted_replies_are_gone (db : DB) (user : Requester)
    (threadId : ObjectId) (replyId : string) (now : N) (thread : Thread)
    (depth : nat) (removed : Reply) :
  threads db !! threadId = Some thread →
  NoDup (replyIds (t_replies thread)) →
  allHaveIds (t_replies thread) →
  locate replyId 0 (t_replies thread) = loc_hit depth removed →
  mayChange user (r_fields removed) →
  (depth ≤ 1)%nat →
  ∃ before after replies' db',
    outline 0 (t_replies thread) = before ++ outlineOf depth removed ++ after
    ∧ deleteReply db user threadId replyId now
      = (db', mkResponse 200 "Reply deleted successfully" NoPayload)
    ∧ threads db' !! threadId = Some (set_thread_replies thread replies' now)
    ∧ outline 0 replies' = before ++ after
    ∧ ∀ gone,
        gone ∈ idsOf (outlineOf depth removed) →
        (∀ other ty now',
           voteOnReply db' other threadId gone (showVoteType ty) now'
           = (db', mkResponse 404 "Reply not found" NoPayload))
        ∧ (∀ other content now',
             validateReply content = true →
             updateReply db' other threadId gone content now'
             = (db', mkResponse 404 "Reply not found" NoPayload))
        ∧ (∀ other now',
             deleteReply db' other threadId gone now'
             = (db', mkResponse 404 "Reply not found" NoPayload)).
Proof.
  intros E Hnd Hall Hl Hmay%notAuthorized_false Hd.
  destruct (deleteReply_hit db user threadId replyId now thread depth removed
              E Hl Hmay) as (l1 & l2 & r' & Ho & _ & Ho' & _ & Hdel).
  assert (savesSpliceAt depth = true) as Hs
    by (destruct depth as [|[|?]]; [done | done | lia]).
  rewrite Hs in Hdel.
  eexists l1, l2, r', _. split_and!; [done | exact Hdel | | done |].
  { cbn [threads set_threads]. by rewrite lookup_insert_eq. }
  intros gone Hgone.
  assert (gone ∉ replyIds r') as Hno.
  { rewrite (replyIds_middle _ _ _ Ho').
    rewrite (replyIds_outline _ 0), Ho, !idsOf_app in Hnd.
    apply NoDup_app in Hnd as (_ & H1 & Hnd).
    apply NoDup_app in Hnd as (_ & H2 & _).
    rewrite not_elem_of_app. split; [|by apply H2].
    intros Hx. apply (H1 _ Hx). rewrite elem_of_app. by left. }
  assert (allHaveIds r') as Hall'.
  { unfold allHaveIds in *. rewrite Ho'. rewrite Ho in Hall.
    rewrite !haveIds_app in Hall. apply haveIds_app. by destruct Hall as (? & _ & ?). }
  pose proof (locate_missing gone r' Hall' Hno) as Hl'.
  assert (threads (set_threads db
            (<[threadId := set_thread_replies thread r' now]> (threads db)))
          !! threadId = Some (set_thread_replies thread r' now)) as E'
    by apply lookup_insert_eq.
  split_and!.
  - intros other ty now'. by eapply voteOnReply_none.
  - intros other content now' Hv. by eapply updateReply_none.
  - intros other now'. by eapply deleteReply_none.
Qed.

Lemma deleted_replies_are_gone_witness :
  ∃ before after replies' db',
    outline 0 (t_replies exampleThread) = before ++ outlineOf 1 replyB ++ after
    ∧ deleteReply exampleDB user2 "t1" "B" 9
      = (db', mkResponse 200 "Reply deleted successfully" NoPayload)
    ∧ threads db' !! "t1" = Some (set_thread_replies exampleThread replies' 9)
    ∧ outline 0 replies' = before ++ after
    ∧ ∀ gone,
        gone ∈ idsOf (outlineOf 1 replyB) →
        (∀ other ty now',
           voteOnReply db' other "t1" gone (showVoteType ty) now'
           = (db', mkResponse 404 "Reply not found" NoPayload))
        ∧ (∀ other content now',
             validateReply content = true →
             updateReply db' other "t1" gone content now'
             = (db', mkResponse 404 "Reply not found" NoPayload))
        ∧ (∀ other now',
             deleteReply db' other "t1" gone now'
             = (db', mkResponse 404 "Reply not found" NoPayload)).
Proof.
  apply (deleted_replies_are_gone exampleDB user2 "t1" "B" 9 exampleThread).
  - reflexivity.
  - by apply (bool_decide_unpack _).
  - repeat constructor; by eexists.
  - reflexivity.
  - left. reflexivity.
  - lia.
Defined.

(** The scenario of the design document, on a tree stored with ids:
    deleting B from A -> [B -> [C]] leaves A without replies below it,
    and the statistics without the votes of B and C. *)
Example scenario_delete_B :
  findAndRemoveReply user2 "B" (rcons replyA rnil)
  = (remove_true, rcons (mkReply (r_fields replyA) rnil) rnil)
  ∧ (t_replies <$> threads (deleteReply exampleDB user2 "t1" "B" 9).1 !! "t1")
    = Some (rcons (mkReply (r_fields replyA) rnil) rnil)
  ∧ calculateReplyStats (rcons replyA rnil) = (2, 1)
  ∧ calculateReplyStats (rcons (mkReply (r_fields replyA) rnil) rnil) = (1, 0).
Proof. split_and!; vm_compute; reflexivity. Qed.

(** X10.  An edit of a top-level reply by a requester who passes the
    author-or-admin check, with an accepted content that is not empty
    when trimmed, rewrites the reply where it stands: the content is the
    trimmed one, the edited flag is set and the edit date is the date of
    the request; the id, author, votes, parent, creation date and the
    replies below are as before, as is every other reply, so the ids, the
    reply count and the vote statistics of the thread do not change.  An
    edit of a reply below the top level is answered in the same way, but
    nothing is written. *)
Theorem edit_changes_only_the_text (db : DB) (user : Requester)
    (threadId : ObjectId) (replyId content : string) (now : N)
    (thread : Thread) (depth : nat) (target : Reply) :
  threads db !! threadId = Some thread →
  locate replyId 0 (t_replies thread) = loc_hit depth target →
  mayChange user (r_fields target) →
  acceptedReply content = true →
  (depth = 0%nat →
   trim content ≠ "" →
   ∃ before after replies',
     outline 0 (t_replies thread) = before ++ outlineOf 0 target ++ after
     ∧ (replyId ∉ idsOf before)
     ∧ updateReply db user threadId replyId content now
       = (set_threads db
            (<[threadId := set_thread_replies thread replies' now]>
               (threads db)),
          mkResponse 200 "Reply updated successfully"
            (ReplyPayload (r_fields (set_edited target (trim content) now))))
     ∧ outline 0 replies'
       = before
         ++ (0%nat,
             mkReplyFields (r_id target) (r_author target) (trim content)
               (r_votes target) (f_parentReply (r_fields target)) true
               (Some now) (f_createdAt (r_fields target)))
            :: outline 1 (r_replies target)
         ++ after
     ∧ replyIds replies' = replyIds (t_replies thread)
     ∧ repliesLength replies' = repliesLength (t_replies thread)
     ∧ calculateReplyStats replies' = calculateReplyStats (t_replies thread))
  ∧ ((1 ≤ depth)%nat →
     updateReply db user threadId replyId content now
     = (db,
        mkResponse 200 "Reply updated successfully"
          (ReplyPayload (r_fields (set_edited target (trim content) now))))).
Proof.
  intros E Hl Hmay%notAuthorized_false Hv%acceptedReply_valid.
  destruct (updateReply_hit db user threadId replyId content now thread depth
              target Hv E Hl Hmay) as (l1 & l2 & r' & Ho & (_ & Hb & _) & Ho' & Hf & Hu).
  split.
  - intros -> Hne. cbn [savesFieldsAt Nat.eqb] in Hu.
    destruct (String.eqb_spec (trim content) ""); [done|].
    exists l1, l2, r'. split_and!; [done | done | done | | | |].
    + rewrite Ho'. by destruct target.
    + by rewrite !(replyIds_outline _ 0), Ho, Ho', !idsOf_app.
    + pose proof (visit_length replyId (updateAction user (trim content) now)
                    (t_replies thread)) as Hlen.
      rewrite findAndUpdateReply_visit in Hf. injection Hf as _ Hf.
      rewrite Hf in Hlen. apply Hlen.
      intros r. unfold updateAction. by destruct (notAuthorized user r).
    + rewrite !(calculateReplyStats_tally _ 0), Ho, Ho', !tally_app.
      by f_equal.
  - intros Hd. destruct depth; [lia | done].
Qed.

Lemma edit_changes_only_the_text_witness :
  ∃ before after replies',
    outline 0 (t_replies exampleThread) = before ++ outlineOf 0 replyA ++ after
    ∧ ("A" ∉ idsOf before)
    ∧ updateReply exampleDB user1 "t1" "A" "first, revised " 9
      = (set_threads exampleDB
           (<["t1" := set_thread_replies exampleThread replies' 9]>
              (threads exampleDB)),
         mkResponse 200 "Reply updated successfully"
           (ReplyPayload
              (r_fields (set_edited replyA (trim "first, revised ") 9))))
    ∧ outline 0 replies'
      = before
        ++ (0%nat,
            mkReplyFields (r_id replyA) (r_author replyA)
              (trim "first, revised ")
              (r_votes replyA) (f_parentReply (r_fields replyA)) true
              (Some 9%N) (f_createdAt (r_fields replyA)))
           :: outline 1 (r_replies replyA)
        ++ after
    ∧ replyIds replies' = replyIds (t_replies exampleThread)
    ∧ repliesLength replies' = repliesLength (t_replies exampleThread)
    ∧ calculateReplyStats replies'
      = calculateReplyStats (t_replies exampleThread).
Proof.
  apply (proj1 (edit_changes_only_the_text exampleDB user1 "t1" "A"
                  "first, revised " 9 exampleThread 0 replyA
                  eq_refl eq_refl (or_introl eq_refl) eq_refl)).
  - reflexivity.
  - by apply (bool_decide_unpack _).
Defined.

(** An edit of B, one level below the top: answered 200, nothing stored. *)
Example edit_below_top_level_is_lost :
  updateReply exampleDB user2 "t1" "B" "second, revised" 9
  = (exampleDB,
     mkResponse 200 "Reply updated successfully"
       (ReplyPayload (r_fields (set_edited replyB "second, revised" 9)))).
Proof. vm_compute. reflexivity. Qed.

(** X11.  Who may change a reply is decided at the reply the search comes
    to, the first with the id in document order, and only its author and
    admins pass: any other requester, a moderator included, gets 403 from
    the edit and the delete handler and nothing is written; the author
    and every admin get 200 from the delete handler, and from the edit
    handler for an accepted content (not empty when trimmed, if the reply
    is a top-level one). *)
Theorem only_author_or_admin_changes_reply (db : DB) (user : Requester)
    (threadId : ObjectId) (replyId : string) (thread : Thread)
    (depth : nat) (target : Reply) :
  threads db !! threadId = Some thread →
  locate replyId 0 (t_replies thread) = loc_hit depth target →
  (r_author target ≠ q_id user → q_role user ≠ role_admin →
   (∀ content now,
      validateReply content = true →
      updateReply db user threadId replyId content now
      = (db, mkResponse 403 "Not authorized to edit this reply" NoPayload))
   ∧ (∀ now,
        deleteReply db user threadId replyId now
        = (db, mkResponse 403 "Not authorized to delete this reply" NoPayload)))
  ∧ (r_author target = q_id user ∨ q_role user = role_admin →
     (∀ content now,
        acceptedReply content = true →
        (depth = 0%nat → trim content ≠ "") →
        ∃ db', updateReply db user threadId replyId content now
               = (db', mkResponse 200 "Reply updated successfully"
                         (ReplyPayload
                            (r_fields (set_edited target (trim content) now)))))
     ∧ (∀ now,
          ∃ db', deleteReply db user threadId replyId now
                 = (db', mkResponse 200 "Reply deleted successfully" NoPayload))).
Proof.
  intros E Hl. split.
  - intros Hna Hnadm.
    assert (notAuthorized user target = true) as Hauth.
    { destruct (notAuthorized user target) eqn:Hx; [done|].
      apply notAuthorized_false in Hx as [?|?]; done. }
    split.
    + intros content now Hv. by eapply updateReply_refused.
    + intros now. by eapply deleteReply_refused.
  - intros Hmay.
    assert (notAuthorized user target = false) as Hauth
      by by apply notAuthorized_false.
    split.
    + intros content now Hv%acceptedReply_valid Hne.
      destruct (updateReply_hit db user threadId replyId content now thread
                  depth target Hv E Hl Hauth) as (l1 & l2 & r' & _ & _ & _ & _ & ->).
      destruct depth as [|depth]; cbn [savesFieldsAt Nat.eqb]; [|by eexists].
      destruct (String.eqb_spec (trim content) ""); [by destruct Hne|].
      by eexists.
    + intros now.
      destruct (deleteReply_hit db user threadId replyId now thread depth target
                  E Hl Hauth) as (l1 & l2 & r' & _ & _ & _ & _ & ->).
      by eexists.
Qed.

(** A moderator who is not the author of B is refused. *)
Lemma only_author_or_admin_changes_reply_witness :
  (∀ content now,
     validateReply content = true →
     updateReply exampleDB (mkRequester "mod" role_moderator) "t1" "B"
       content now
     = (exampleDB, mkResponse 403 "Not authorized to edit this reply" NoPayload))
  ∧ (∀ now,
       deleteReply exampleDB (mkRequester "mod" role_moderator) "t1" "B" now
       = (exampleDB,
          mkResponse 403 "Not authorized to delete this reply" NoPayload)).
Proof.
  apply (proj1 (only_author_or_admin_changes_reply exampleDB
                  (mkRequester "mod" role_moderator) "t1" "B" exampleThread
                  1 replyB eq_refl eq_refl)).
  - discriminate.
  - discriminate.
Defined.

(** Behind a reply that was itself added below another, the author of a
    top-level reply is refused as well. *)
Example author_refused_behind_nested_reply :
  updateReply builtDB user1 "t2" "r3" "third, revised" 20
  = (builtDB, mkResponse 403 "Not authorized to edit this reply" NoPayload).
Proof. vm_compute. reflexivity. Qed.

(** X12.  A vote request on a reply fails without writing anything: with
    400 when the type is neither 'upvote' nor 'downvote', with 404 when
    the thread does not exist, with 404 when the search comes to the end
    of the tree, as it does when every reply has an id and none has the
    one asked for, and with 500 when the search comes to a reply without
    id. *)
Theorem reply_vote_errors (db : DB) (user : Requester) (threadId : ObjectId)
    (replyId : string) (now : N) :
  (∀ type, type ≠ "upvote" → type ≠ "downvote" →
     voteOnReply db user threadId replyId type now
     = (db, mkResponse 400 "Invalid vote type" NoPayload))
  ∧ (∀ ty, threads db !! threadId = None →
       voteOnReply db user threadId replyId (showVoteType ty) now
       = (db, mkResponse 404 "Thread not found" NoPayload))
  ∧ (∀ ty thread,
       threads db !! threadId = Some thread →
       allHaveIds (t_replies thread) →
       replyId ∉ replyIds (t_replies thread) →
       locate replyId 0 (t_replies thread) = loc_none
       ∧ voteOnReply db user threadId replyId (showVoteType ty) now
         = (db, mkResponse 404 "Reply not found" NoPayload))
  ∧ (∀ ty thread,
       threads db !! threadId = Some thread →
       locate replyId 0 (t_replies thread) = loc_thrown →
       voteOnReply db user threadId replyId (showVoteType ty) now
       = (db, mkResponse 500 "Server error" NoPayload)).
Proof.
  split_and!.
  - intros type Hu Hd. unfold voteOnReply. by rewrite parseVoteType_None.
  - intros ty E. unfold voteOnReply. by rewrite parseVoteType_show, E.
  - intros ty thread E Hall Hno.
    pose proof (locate_missing _ _ Hall Hno) as Hl. split; [done|].
    by eapply voteOnReply_none.
  - intros ty thread E Hl. by eapply voteOnReply_thrown.
Qed.

Lemma reply_vote_errors_witness :
  locate "Z" 0 (t_replies exampleThread) = loc_none
  ∧ voteOnReply exampleDB user1 "t1" "Z" (showVoteType upvote) 4
    = (exampleDB, mkResponse 404 "Reply not found" NoPayload).
Proof.
  apply (proj1 (proj2 (proj2 (reply_vote_errors exampleDB user1 "t1" "Z" 4)))
           upvote exampleThread).
  - reflexivity.
  - repeat constructor; by eexists.
  - by apply (bool_decide_unpack _).
Defined.

(** ** Statistics *)

Lemma upvotes_downvotes_length (votes : list Vote) :
  upvotes votes + downvotes votes = Z.of_nat (length votes).
Proof.
  unfold upvotes, downvotes. induction votes as [|[u ty] votes IH]; [done|].
  rewrite !filter_cons. simpl.
  destruct ty; repeat case_decide; try done; simpl length; lia.
Qed.

Lemma tally_votesIn (l : list (nat * ReplyFields)) :
  (tally l).1 + (tally l).2 = Z.of_nat (votesIn l).
Proof.
  induction l as [|[d f] l IH]; [done|].
  simpl. pose proof (upvotes_downvotes_length (f_votes f)). lia.
Qed.

Lemma scoreOf_tally_app (l1 l2 : list (nat * ReplyFields)) :
  scoreOf (tally (l1 ++ l2)) = scoreOf (tally l1) + scoreOf (tally l2).
Proof. rewrite tally_app. unfold scoreOf, addStats. simpl. lia. Qed.

Lemma scoreOf_tally_cons (d : nat) (f : ReplyFields)
    (l : list (nat * ReplyFields)) :
  scoreOf (tally ((d, f) :: l)) = voteScore (f_votes f) + scoreOf (tally l).
Proof. unfold scoreOf, voteScore. simpl. lia. Qed.

(** X13.  The statistics of a thread count every vote exactly once: the
    upvotes and downvotes of the thread block add up to the number of votes
    on the thread, those of the replies block to the number of votes on
    all replies at every depth, the total block is the sum of the two, and
    every score is upvotes minus downvotes.  A missing thread gives 404. *)
Theorem stats_count_every_vote_once (db : DB) (threadId : ObjectId) :
  (threads db !! threadId = None →
   getVoteStats db threadId = stats_error 404 "Thread not found")
  ∧ (∀ thread,
       threads db !! threadId = Some thread →
       ∃ th rp tot,
         getVoteStats db threadId = stats_ok th rp tot
         ∧ s_upvotes th + s_downvotes th = Z.of_nat (length (t_votes thread))
         ∧ s_upvotes rp + s_downvotes rp
           = Z.of_nat (votesIn (outline 0 (t_replies thread)))
         ∧ s_upvotes tot = s_upvotes th + s_upvotes rp
         ∧ s_downvotes tot = s_downvotes th + s_downvotes rp
         ∧ s_score th = s_upvotes th - s_downvotes th
         ∧ s_score rp = s_upvotes rp - s_downvotes rp
         ∧ s_score tot = s_upvotes tot - s_downvotes tot
         ∧ 0 ≤ s_upvotes tot ∧ 0 ≤ s_downvotes tot).
Proof.
  split.
  - intros E. unfold getVoteStats. by rewrite E.
  - intros thread E. unfold getVoteStats. rewrite E. cbv zeta.
    eexists _, _, _. split; [done|]. cbn [s_upvotes s_downvotes s_score].
    pose proof (upvotes_downvotes_length (t_votes thread)) as Hth.
    pose proof (tally_votesIn (outline 0 (t_replies thread))) as Hrp.
    rewrite <- (calculateReplyStats_tally _ 0) in Hrp.
    assert (0 ≤ upvotes (t_votes thread)) by (unfold upvotes; lia).
    assert (0 ≤ downvotes (t_votes thread)) by (unfold downvotes; lia).
    assert (0 ≤ (calculateReplyStats (t_replies thread)).1
            ∧ 0 ≤ (calculateReplyStats (t_replies thread)).2) as [? ?].
    { rewrite (calculateReplyStats_tally _ 0).
      generalize (outline 0 (t_replies thread)).
      induction l as [|[d f] l [IH1 IH2]]; simpl; [done|].
      unfold upvotes, downvotes. lia. }
    split_and!; lia.
Qed.

Lemma stats_count_every_vote_once_witness :
  ∃ th rp tot,
    getVoteStats exampleDB "t1" = stats_ok th rp tot
    ∧ s_upvotes th + s_downvotes th = Z.of_nat (length (t_votes exampleThread))
    ∧ s_upvotes rp + s_downvotes rp
      = Z.of_nat (votesIn (outline 0 (t_replies exampleThread)))
    ∧ s_upvotes tot = s_upvotes th + s_upvotes rp
    ∧ s_downvotes tot = s_downvotes th + s_downvotes rp
    ∧ s_score th = s_upvotes th - s_downvotes th
    ∧ s_score rp = s_upvotes rp - s_downvotes rp
    ∧ s_score tot = s_upvotes tot - s_downvotes tot
    ∧ 0 ≤ s_upvotes tot ∧ 0 ≤ s_downvotes tot.
Proof.
  apply (proj2 (stats_count_every_vote_once exampleDB "t1") exampleThread).
  reflexivity.
Defined.

(** X14.  A vote shows in the statistics by as much as it moved the
    score: after a vote on the thread the thread block has the score the
    vote returned and the replies block is untouched; after a vote on a
    top-level reply the thread block is untouched and the score of the
    replies block and of the total block has moved by the change of that
    reply's score.  After a vote on a reply below the top level the
    statistics are what they were. *)
Theorem vote_shows_in_stats (db : DB) (user : Requester) (threadId : ObjectId)
    (ty : VoteType) (thread : Thread) :
  threads db !! threadId = Some thread →
  (∃ db' newScore userVote th rp tot th' rp' tot',
     voteOnThread db user threadId (showVoteType ty)
     = (db', mkResponse 200 "Vote recorded successfully"
               (VotePayload newScore userVote))
     ∧ getVoteStats db threadId = stats_ok th rp tot
     ∧ getVoteStats db' threadId = stats_ok th' rp' tot'
     ∧ s_score th' = newScore
     ∧ rp' = rp
     ∧ s_score tot' - s_score tot = newScore - voteScore (t_votes thread))
  ∧ (∀ replyId now depth target,
       locate replyId 0 (t_replies thread) = loc_hit depth target →
       ∃ db' newScore userVote th rp tot th' rp' tot',
         voteOnReply db user threadId replyId (showVoteType ty) now
         = (db', mkResponse 200 "Vote recorded successfully"
                   (VotePayload newScore userVote))
         ∧ getVoteStats db threadId = stats_ok th rp tot
         ∧ getVoteStats db' threadId = stats_ok th' rp' tot'
         ∧ th' = th
         ∧ (depth = 0%nat →
            s_score rp' - s_score rp = newScore - voteScore (r_votes target)
            ∧ s_score tot' - s_score tot
              = newScore - voteScore (r_votes target))
         ∧ ((1 ≤ depth)%nat → rp' = rp ∧ tot' = tot)).
Proof.
  intros E. split.
  - rewrite (voteOnThread_found _ _ _ _ _ E). cbv zeta.
    eexists _, _, _, _, _, _, _, _, _.
    split; [reflexivity|].
    unfold getVoteStats. cbn [threads]. rewrite E, lookup_insert_eq.
    cbn [t_votes t_replies set_thread_votes].
    split_and!; [done | done | done | done |].
    cbn [s_score]. unfold voteScore. lia.
  - intros replyId now d t Hl.
    destruct (voteOnReply_hit db user threadId replyId ty now thread d t E Hl)
      as (l1 & l2 & r' & Ho & _ & Ho' & _ & Hv).
    assert (scoreOf (calculateReplyStats r')
            - scoreOf (calculateReplyStats (t_replies thread))
            = voteScore (castVote (r_votes t) (q_id user) ty).1
              - voteScore (r_votes t)) as Hd.
    { rewrite (calculateReplyStats_tally r' 0),
        (calculateReplyStats_tally (t_replies thread) 0), Ho, Ho'.
      unfold outlineOf.
      rewrite !scoreOf_tally_app, !scoreOf_tally_cons.
      destruct t as [f k]. simpl. unfold r_votes. simpl. lia. }
    unfold scoreOf in Hd.
    rewrite Hv. cbv zeta.
    destruct d as [|d]; cbn [savesFieldsAt Nat.eqb].
    + eexists _, _, _, _, _, _, _, _, _.
      split; [reflexivity|].
      unfold getVoteStats. cbn [threads]. rewrite E, lookup_insert_eq.
      cbn [t_votes t_replies set_thread_replies].
      split_and!; [reflexivity | reflexivity | done | | intros; lia].
      intros _. cbn [s_score]. lia.
    + eexists _, _, _, _, _, _, _, _, _.
      split; [reflexivity|].
      unfold getVoteStats. cbn [threads]. rewrite E.
      split_and!; [reflexivity | reflexivity | done | intros; lia | done].
Qed.

Lemma vote_shows_in_stats_witness :
  ∃ db' newScore userVote th rp tot th' rp' tot',
    voteOnReply exampleDB user3 "t1" "A" (showVoteType upvote) 9
    = (db', mkResponse 200 "Vote recorded successfully"
              (VotePayload newScore userVote))
    ∧ getVoteStats exampleDB "t1" = stats_ok th rp tot
    ∧ getVoteStats db' "t1" = stats_ok th' rp' tot'
    ∧ th' = th
    ∧ (0%nat = 0%nat →
       s_score rp' - s_score rp = newScore - voteScore (r_votes replyA)
       ∧ s_score tot' - s_score tot = newScore - voteScore (r_votes replyA))
    ∧ ((1 ≤ 0)%nat → rp' = rp ∧ tot' = tot).
Proof.
  apply (proj2 (vote_shows_in_stats exampleDB user3 "t1" upvote exampleThread
                  eq_refl) "A" 9%N 0%nat replyA).
  reflexivity.
Defined.

(** ** What the reply and vote handlers leave alone *)

Lemma sameThreadData_refl (t : Thread) : sameThreadData t t.
Proof. by repeat split. Qed.

Lemma sameThreadData_trans (t1 t2 t3 : Thread) :
  sameThreadData t1 t2 → sameThreadData t2 t3 → sameThreadData t1 t3.
Proof.
  unfold sameThreadData. intros (?&?&?&?&?&?&?&?) (?&?&?&?&?&?&?&?).
  split_and!; congruence.
Qed.

Lemma sameThreads_refl (db : DB) : sameThreads db db.
Proof.
  intros id. destruct (threads db !! id); [apply sameThreadData_refl | done].
Qed.

Lemma sameThreads_trans (db1 db2 db3 : DB) :
  sameThreads db1 db2 → sameThreads db2 db3 → sameThreads db1 db3.
Proof.
  intros H12 H23 id. specialize (H12 id). specialize (H23 id).
  destruct (threads db1 !! id), (threads db2 !! id), (threads db3 !! id);
    try done.
  by eapply sameThreadData_trans.
Qed.

Lemma sameThreads_insert (db : DB) (threadId : ObjectId) (t t' : Thread)
    (us : gmap ObjectId User) :
  threads db !! threadId = Some t →
  sameThreadData t t' →
  sameThreads db (mkDB (<[threadId := t']> (threads db)) us
                    (categories db) (tags db)).
Proof.
  intros E Hsame id. cbn [threads].
  destruct (decide (id = threadId)) as [->|Hne].
  - by rewrite E, lookup_insert_eq.
  - rewrite lookup_insert_ne by done.
    destruct (threads db !! id); [apply sameThreadData_refl | done].
Qed.

Lemma serve_leaves_the_rest (db : DB) (req : ForumRequest) :
  sameThreads db (serve db req)
  ∧ categories (serve db req) = categories db
  ∧ tags (serve db req) = tags db
  ∧ dom (users (serve db req)) = dom (users db).
Proof.
  assert (∀ db, sameThreads db db ∧ categories db = categories db
                ∧ tags db = tags db ∧ dom (users db) = dom (users db)) as Hrefl.
  { intros db0. split_and!; [apply sameThreads_refl | done..]. }
  assert (∀ threadId thread replies' now (resp : Response),
            threads db !! threadId = Some thread →
            let db' := set_threads db
                         (<[threadId := set_thread_replies thread replies' now]>
                            (threads db)) in
            sameThreads db (db', resp).1
            ∧ categories (db', resp).1 = categories db
            ∧ tags (db', resp).1 = tags db
            ∧ dom (users (db', resp).1) = dom (users db)) as Hstep.
  { intros threadId thread replies' now resp E. simpl. split_and!; [|done..].
    apply (sameThreads_insert db threadId thread); [done|by repeat split]. }
  destruct req as [user threadId content parentReplyId newId now
                  |user threadId replyId content now
                  |user threadId replyId now
                  |[user threadId type|user threadId replyId type now]];
    simpl.
  - unfold addReply. destruct (validateReply content); [|apply Hrefl].
    simpl negb. cbv iota.
    destruct (threads db !! threadId) as [thread|] eqn:E; [|apply Hrefl].
    destruct (t_isLocked thread); [apply Hrefl|].
    destruct (truthy parentReplyId) as [pid|].
    + destruct (findAndAddReply pid _ (t_replies thread)) as [[] replies'];
        [|apply Hrefl..].
      destruct (findReply (hasUser db) (q_id user) (trim content) now true
                  replies'); by apply Hstep.
    + destruct (String.eqb (trim content) ""); [apply Hrefl|].
      destruct (lastReply _); by apply Hstep.
  - unfold updateReply. destruct (validateReply content); [|apply Hrefl].
    simpl negb. cbv iota.
    destruct (threads db !! threadId) as [thread|] eqn:E; [|apply Hrefl].
    destruct (findAndUpdateReply user replyId (trim content) now
                (t_replies thread)) as [[updated| |] replies']; [|apply Hrefl..].
    destruct (recorded savesFieldsAt replyId (t_replies thread));
      [|apply Hrefl].
    destruct (String.eqb (trim content) ""); [apply Hrefl|]. by apply Hstep.
  - unfold deleteReply. destruct (threads db !! threadId) as [thread|] eqn:E;
      [|apply Hrefl].
    destruct (findAndRemoveReply user replyId (t_replies thread))
      as [[| |] replies']; [|apply Hrefl..].
    destruct (recorded savesSpliceAt replyId (t_replies thread));
      [|apply Hrefl].
    by apply Hstep.
  - unfold voteOnThread. destruct (parseVoteType type) as [ty|]; [|apply Hrefl].
    destruct (threads db !! threadId) as [thread|] eqn:E; [|apply Hrefl].
    destruct (castVote (t_votes thread) (q_id user) ty) as [votes' delta].
    simpl. split_and!; [|done..|apply updateAuthorReputation_dom].
    apply (sameThreads_insert db threadId thread); [done|by repeat split].
  - unfold voteOnReply. destruct (parseVoteType type) as [ty|]; [|apply Hrefl].
    destruct (threads db !! threadId) as [thread|] eqn:E; [|apply Hrefl].
    destruct (findAndVoteReply user replyId ty (t_replies thread))
      as [[reply delta| |] replies']; [|apply Hrefl..].
    destruct (recorded savesFieldsAt replyId (t_replies thread)); simpl.
    + split_and!; [|done..|apply updateAuthorReputation_dom].
      apply (sameThreads_insert db threadId thread); [done|by repeat split].
    + split_and!; [|done..|apply updateAuthorReputation_dom].
      intros id. cbn [threads set_users].
      destruct (threads db !! id); [apply sameThreadData_refl | done].
Qed.

(** X15.  Whatever requests the reply and vote handlers serve (add, edit
    and delete a reply, vote on a thread or a reply), they create and
    delete no thread and leave every thread's title, content, author,
    category, tags, view counter, pin and lock as they were; the
    categories and the tags are unchanged, and no user is created or
    removed. *)
Theorem replies_and_votes_leave_the_rest (reqs : list ForumRequest) (db : DB) :
  sameThreads db (foldl serve db reqs)
  ∧ categories (foldl serve db reqs) = categories db
  ∧ tags (foldl serve db reqs) = tags db
  ∧ dom (users (foldl serve db reqs)) = dom (users db).
Proof.
  revert db. induction reqs as [|req reqs IH]; intros db; simpl.
  - split_and!; [apply sameThreads_refl | done..].
  - destruct (serve_leaves_the_rest db req) as (Ht & Hc & Hg & Hu).
    destruct (IH (serve db req)) as (Ht' & Hc' & Hg' & Hu').
    split_and!; [by eapply sameThreads_trans | congruence..].
Qed.

(** ** Deleting a thread *)

Lemma threadNotAuthorized_false (user : Requester) (thread : Thread) :
  threadNotAuthorized user thread = false
  ↔ q_id user = t_author thread ∨ q_role user = role_admin.
Proof.
  unfold threadNotAuthorized.
  destruct (String.eqb_spec (t_author thread) (q_id user)) as [He|Hne];
    destruct (decide (q_role user = role_admin)) as [Ha|Hna];
    rewrite ?(bool_decide_eq_true_2 _ Ha), ?(bool_decide_eq_false_2 _ Hna);
    simpl; split; auto; try done.
  intros [?|?]; congruence.
Qed.

(** X16.  Only the author of a thread or an admin deletes it: anyone else
    is answered 403 and a missing thread 404, and the database is as it
    was.  A successful delete removes that thread and no other, leaves the
    users alone, and lowers the thread counter of the thread's category
    by one, not below 0, leaving the other categories alone. *)
Theorem delete_thread_effect (db : DB) (user : Requester)
    (threadId : ObjectId) :
  (threads db !! threadId = None →
   deleteThread db user threadId
   = (db, mkResponse 404 "Thread not found" NoPayload))
  ∧ (∀ thread,
       threads db !! threadId = Some thread →
       (q_id user ≠ t_author thread → q_role user ≠ role_admin →
        deleteThread db user threadId
        = (db, mkResponse 403 "Not authorized to delete this thread" NoPayload))
       ∧ (q_id user = t_author thread ∨ q_role user = role_admin →
          ∃ db',
            deleteThread db user threadId
            = (db', mkResponse 200 "Thread deleted successfully" NoPayload)
            ∧ threads db' !! threadId = None
            ∧ (∀ id, id ≠ threadId → threads db' !! id = threads db !! id)
            ∧ users db' = users db
            ∧ categories db' !! t_category thread
              = (λ c, mkCategory (c_name c) (Z.max 0 (c_threadCount c - 1)))
                  <$> categories db !! t_category thread
            ∧ (∀ id, id ≠ t_category thread →
                 categories db' !! id = categories db !! id))).
Proof.
  split.
  - intros E. unfold deleteThread. by rewrite E.
  - intros thread E. split.
    + intros Hna Hnr. unfold deleteThread. rewrite E.
      destruct (threadNotAuthorized user thread) eqn:Hauth; [done|].
      apply (proj1 (threadNotAuthorized_false _ _)) in Hauth as [?|?]; done.
    + intros Hauth. apply (proj2 (threadNotAuthorized_false _ _)) in Hauth.
      unfold deleteThread. rewrite E, Hauth. cbv zeta.
      eexists. split; [reflexivity|].
      destruct (categories db !! t_category thread) as [c|] eqn:Ec;
        cbn [threads users categories tags set_threads set_tags set_categories].
      * split_and!; [apply lookup_delete_eq | | done | by rewrite lookup_insert_eq |].
        -- intros id Hne. by rewrite lookup_delete_ne.
        -- intros id Hne. by rewrite lookup_insert_ne.
      * split_and!; [apply lookup_delete_eq | | done | by rewrite Ec | done].
        intros id Hne. by rewrite lookup_delete_ne.
Qed.

Lemma delete_thread_effect_witness :
  deleteThread exampleDB user3 "t1"
  = (exampleDB, mkResponse 403 "Not authorized to delete this thread" NoPayload).
Proof.
  apply (proj1 (proj2 (delete_thread_effect exampleDB user3 "t1") exampleThread
                  eq_refl)); discriminate.
Defined.

Lemma set_usageCount_same (t : Tag) : set_usageCount t (tag_usageCount t) = t.
Proof. by destruct t. Qed.

Lemma idsOfTags_withCounters (g : ObjectId → Z → Z) (docs : list Tag) :
  idsOfTags (withCounters g docs) = idsOfTags docs.
Proof.
  unfold idsOfTags, withCounters. rewrite <- list_fmap_compose.
  by apply list_fmap_ext.
Qed.

Lemma withCounters_app (g : ObjectId → Z → Z) (l1 l2 : list Tag) :
  withCounters g (l1 ++ l2) = withCounters g l1 ++ withCounters g l2.
Proof. unfold withCounters. by rewrite fmap_app. Qed.

Lemma withCounters_compose (g h : ObjectId → Z → Z) (docs : list Tag) :
  withCounters h (withCounters g docs)
  = withCounters (λ id c, h id (g id c)) docs.
Proof.
  unfold withCounters. rewrite <- list_fmap_compose.
  by apply list_fmap_ext.
Qed.

Lemma withCounters_ext (g h : ObjectId → Z → Z) (docs : list Tag) :
  Forall (λ t, g (tag_id t) (tag_usageCount t)
               = h (tag_id t) (tag_usageCount t)) docs →
  withCounters g docs = withCounters h docs.
Proof.
  unfold withCounters. induction 1 as [|t docs Ht _ IH]; [done|].
  rewrite !fmap_cons. by rewrite Ht, IH.
Qed.

Lemma withCounters_same (g : ObjectId → Z → Z) (docs : list Tag) :
  Forall (λ t, g (tag_id t) (tag_usageCount t) = tag_usageCount t) docs →
  withCounters g docs = docs.
Proof.
  unfold withCounters. induction 1 as [|t docs Ht _ IH]; [done|].
  rewrite fmap_cons. by rewrite Ht, IH, set_usageCount_same.
Qed.

(** Rewriting the counter of one tag of a collection with unique ids. *)
Lemma withCounters_middle (g : ObjectId → Z → Z) (l1 l2 : list Tag)
    (tag : Tag) :
  NoDup (idsOfTags (l1 ++ tag :: l2)) →
  (∀ id c, id ≠ tag_id tag → g id c = c) →
  withCounters g (l1 ++ tag :: l2)
  = l1 ++ set_usageCount tag (g (tag_id tag) (tag_usageCount tag)) :: l2.
Proof.
  intros Hnd Hg. unfold idsOfTags in Hnd. rewrite fmap_app in Hnd. simpl in Hnd.
  apply NoDup_app in Hnd as (_ & Hl1 & Hnd).
  apply NoDup_cons in Hnd as [Hl2 _].
  rewrite withCounters_app. simpl. f_equal; [|f_equal].
  - apply withCounters_same, Forall_forall. intros t Ht. apply Hg.
    intros Heq. apply (Hl1 (tag_id t)).
    + apply list_elem_of_fmap. by exists t.
    + rewrite Heq. apply list_elem_of_here.
  - apply withCounters_same, Forall_forall. intros t Ht. apply Hg.
    intros Heq. apply Hl2. rewrite <- Heq. apply list_elem_of_fmap. by exists t.
Qed.

Lemma lowered_succ (n : nat) (c : Z) :
  lowered (S n) c = lowered n (Z.max 0 (c - 1)).
Proof. destruct n; unfold lowered; lia. Qed.

Lemma timesListed_cons (id x : ObjectId) (ids : list ObjectId) :
  timesListed id (x :: ids)
  = if decide (x = id) then S (timesListed id ids) else timesListed id ids.
Proof.
  unfold timesListed. rewrite filter_cons. by destruct (decide (x = id)).
Qed.

(** One turn of the loop "Update tag usage counts". *)
Lemma release_step (id : ObjectId) (docs : list Tag) :
  NoDup (idsOfTags docs) →
  match findTagById id docs with
  | Some tag =>
      saveTag (set_usageCount tag (Z.max 0 (tag_usageCount tag - 1))) docs
  | None => docs
  end
  = withCounters (λ j c, if decide (id = j) then Z.max 0 (c - 1) else c) docs.
Proof.
  intros Hnd. destruct (findTagById id docs) as [tag|] eqn:E.
  - destruct (findTagById_Some _ _ _ E) as (l1 & l2 & -> & <- & Hl1).
    rewrite saveTag_middle by done.
    rewrite withCounters_middle; [| done |].
    + by rewrite decide_True.
    + intros j c Hne. by rewrite decide_False.
  - symmetry. apply withCounters_same, Forall_forall. intros t Ht.
    rewrite decide_False; [done|]. intros ->.
    assert (findTagById (tag_id t) docs ≠ None) as Hsome; [|done].
    clear E Hnd. induction docs as [|d docs IH]; [by apply elem_of_nil in Ht|].
    simpl. destruct (String.eqb_spec (tag_id d) (tag_id t)); [done|].
    apply elem_of_cons in Ht as [->|Ht]; [done | by apply IH].
Qed.

(** The whole loop: every counter is lowered as often as the tag array
    lists the tag. *)
Lemma releaseTags_spec (tagIds : list ObjectId) :
  ∀ docs,
    NoDup (idsOfTags docs) →
    releaseTags tagIds docs
    = withCounters (λ id c, lowered (timesListed id tagIds) c) docs.
Proof.
  induction tagIds as [|id more IH]; intros docs Hnd.
  - simpl. symmetry. by apply withCounters_same, Forall_forall.
  - simpl releaseTags. rewrite release_step by done.
    rewrite IH by by rewrite idsOfTags_withCounters.
    rewrite withCounters_compose. apply withCounters_ext, Forall_forall.
    intros t _. rewrite timesListed_cons.
    destruct (decide (id = tag_id t)); [by rewrite lowered_succ | done].
Qed.

(** X17.  Deleting a thread lowers the usage counter of every tag by the
    number of times the thread's tag array lists it, never below 0, and
    deletes no tag (the tags have unique ids): a thread created with a
    repeated tag name gives back both counts. *)
Theorem delete_thread_releases_tags (db : DB) (user : Requester)
    (threadId : ObjectId) (thread : Thread) :
  threads db !! threadId = Some thread →
  q_id user = t_author thread ∨ q_role user = role_admin →
  NoDup (idsOfTags (tags db)) →
  tags (deleteThread db user threadId).1
  = (λ t, set_usageCount t
            (lowered (timesListed (tag_id t) (t_tags thread))
               (tag_usageCount t))) <$> tags db.
Proof.
  intros E Hauth Hnd. apply (proj2 (threadNotAuthorized_false _ _)) in Hauth.
  unfold deleteThread. rewrite E, Hauth. cbv zeta.
  cbn [fst tags set_threads set_tags].
  assert (tags (match categories db !! t_category thread with
                | Some category =>
                    set_categories db
                      (<[t_category thread :=
                           mkCategory (c_name category)
                             (Z.max 0 (c_threadCount category - 1))]>
                         (categories db))
                | None => db
                end) = tags db) as ->
    by by destruct (categories db !! t_category thread).
  by rewrite releaseTags_spec.
Qed.

Lemma delete_thread_releases_tags_witness :
  tags (deleteThread reactDB user1 "t9").1
  = (λ t, set_usageCount t
            (lowered (timesListed (tag_id t) ["#"; "#"]) (tag_usageCount t)))
      <$> tags reactDB.
Proof.
  apply (delete_thread_releases_tags reactDB user1 "t9"
           (mkThread "Hooks" "How do hooks work?" "u1" "general" ["#"; "#"]
              [] rnil 0 false false 9)).
  - reflexivity.
  - by left.
  - by apply (bool_decide_unpack _).
Defined.

Example delete_thread_releases_both_counts :
  tags reactDB
  = [mkTag "tag-js" "javascript" 2; mkTag "tag-reactjs" "reactjs" 1;
     mkTag "#" "react" 2]
  ∧ tags (deleteThread reactDB user1 "t9").1
    = [mkTag "tag-js" "javascript" 2; mkTag "tag-reactjs" "reactjs" 1;
       mkTag "#" "react" 0].
Proof. split; vm_compute; reflexivity. Qed.

(** ** Creating and deleting a thread *)

Lemma lowered_raised (n : nat) (c : Z) :
  0 ≤ c → lowered n (c + Z.of_nat n) = c.
Proof. intros Hc. destruct n; unfold lowered; lia. Qed.

Lemma usageOf_app_unused (name : string) (docs extra : list Tag) :
  Forall (λ t, tag_usageCount t = 0) extra →
  usageOf name (docs ++ extra) = usageOf name docs.
Proof.
  intros Hz. unfold usageOf. induction docs as [|d docs IH]; simpl.
  - induction Hz as [|t extra Ht _ IH]; simpl; [done|].
    by destruct (String.eqb (tag_name t) name).
  - by destruct (String.eqb (tag_name d) name).
Qed.

Section TagRoundTrip.

Variable newId : nat → ObjectId.
Hypothesis newId_inj : ∀ i j, newId i = newId j → i = j.

(** A turn of the tag loop that does not throw has found the tag or
    could save it. *)
Lemma processTag_Some (created : nat) (tagName : string) (docs : list Tag)
    (result : Tag * list Tag * nat) :
  processTag newId created tagName docs = Some result →
  is_Some (findOneByName (tagKey tagName) docs)
  ∨ validTagName (tagKey tagName) = true.
Proof.
  unfold processTag. fold (tagKey tagName).
  destruct (findOneByName (tagKey tagName) docs); [by left; eexists|].
  destruct (validTagName (tagKey tagName)); [by right | done].
Qed.

(** One turn of the tag loop raises the counter of one tag of the
    collection, to which the turn may have added that tag with counter
    0. *)
Lemma processTag_shape (created : nat) (tagName : string) (docs : list Tag)
    (tag' : Tag) (docs1 : list Tag) (created1 : nat) :
  freshFrom newId created docs →
  processTag newId created tagName docs = Some (tag', docs1, created1) →
  ∃ e1,
    docs1
    = withCounters (λ j c, if decide (tag_id tag' = j) then c + 1 else c)
        (docs ++ e1)
    ∧ Forall (λ t, tag_usageCount t = 0 ∧ tag_name t = tagKey tagName) e1
    ∧ tag_id tag' ∈ idsOfTags (docs ++ e1)
    ∧ NoDup (idsOfTags (docs ++ e1))
    ∧ freshFrom newId created1 docs1.
Proof.
  intros Hf Hp. pose proof (processTag_Some _ _ _ _ Hp) as Hok.
  destruct (processTag_spec newId newId_inj created tagName docs Hok Hf)
    as (tag0 & docs0 & created0 & Hp0 & _ & _ & _ & _ & _ & Hf1 & _).
  rewrite Hp in Hp0. injection Hp0 as <- <- <-.
  destruct Hf as [Hnd Hfresh].
  destruct (findOneByName (tagKey tagName) docs) as [tag|] eqn:E.
  - destruct (findOneByName_Some _ _ _ E) as (l1 & l2 & -> & Hname & Hl1).
    pose proof Hp as Hp'. rewrite processTag_found in Hp' by done.
    injection Hp' as <- <- <-.
    exists []. rewrite app_nil_r. split_and!; [ | constructor | | done | done].
    + rewrite withCounters_middle; [by rewrite decide_True | done |].
      intros j c Hne. rewrite decide_False; [done|]. simpl in Hne |- *.
      congruence.
    + unfold idsOfTags. rewrite fmap_app, elem_of_app. right.
      apply list_elem_of_here.
  - destruct Hok as [[? ?]|Hvalid]; [done|].
    apply findOneByName_None in E.
    assert (newId created ∉ idsOfTags docs) as Hnew by by apply Hfresh.
    pose proof Hp as Hp'. rewrite processTag_created in Hp' by done.
    injection Hp' as <- <- <-.
    assert (NoDup (idsOfTags (docs ++ [mkTag (newId created)
                                         (tagKey tagName) 0]))) as Hnd'.
    { unfold idsOfTags in *. rewrite fmap_app. by apply NoDup_snoc_fresh. }
    exists [mkTag (newId created) (tagKey tagName) 0].
    split_and!; [ | by repeat constructor | | done | done].
    + rewrite withCounters_middle; [by rewrite decide_True | done |].
      intros j c Hne. rewrite decide_False; [done|]. simpl in Hne |- *.
      congruence.
    + unfold idsOfTags. rewrite fmap_app, elem_of_app. right.
      apply list_elem_of_here.
Qed.

(** A tag loop that does not throw raises every counter by the number of
    times the ids it returns list the tag; the tags it has added start
    from 0. *)
Lemma processTags_shape (tagNames : list string) :
  ∀ created docs docs' tagIds,
    freshFrom newId created docs →
    processTags newId created tagNames docs = (docs', Some tagIds) →
    ∃ extra,
      docs'
      = withCounters (λ j c, c + Z.of_nat (timesListed j tagIds))
          (docs ++ extra)
      ∧ Forall (λ t, tag_usageCount t = 0
                     ∧ tag_name t ∈ tagKey <$> tagNames) extra
      ∧ Forall (λ id, id ∈ idsOfTags (docs ++ extra)) tagIds
      ∧ NoDup (idsOfTags (docs ++ extra))
      ∧ length tagIds = length tagNames.
Proof.
  induction tagNames as [|tagName more IH];
    intros created docs docs' tagIds Hf Hps.
  - simpl in Hps. injection Hps as <- <-.
    exists []. rewrite app_nil_r. split_and!; [| done | done | apply Hf | done].
    symmetry. apply withCounters_same, Forall_forall. intros t _.
    unfold timesListed. simpl. lia.
  - simpl in Hps.
    destruct (processTag newId created tagName docs)
      as [[[tag' docs1] created1]|] eqn:Hp; [|done].
    destruct (processTags newId created1 more docs1) as [docs'' [ids'|]] eqn:Hps';
      [|done].
    simpl in Hps. injection Hps as <- <-.
    destruct (processTag_shape created tagName docs _ _ _ Hf Hp)
      as (e1 & Hd1 & He1 & Hin1 & Hnd1 & Hf1).
    destruct (IH created1 docs1 _ _ Hf1 Hps')
      as (extra' & Hd' & Hz' & Hids' & Hnd' & Hlen').
    assert (idsOfTags docs1 = idsOfTags (docs ++ e1)) as Hsame
      by by rewrite Hd1, idsOfTags_withCounters.
    assert (idsOfTags (docs1 ++ extra') = idsOfTags (docs ++ e1 ++ extra'))
      as Hsame'.
    { unfold idsOfTags in *. rewrite !fmap_app in *. rewrite Hsame.
      by rewrite <- app_assoc. }
    assert (tag_id tag' ∉ idsOfTags extra') as Hnot.
    { unfold idsOfTags in Hnd'. rewrite fmap_app in Hnd'.
      apply NoDup_app in Hnd' as (_ & Hdisj & _).
      apply Hdisj. fold (idsOfTags docs1). by rewrite Hsame. }
    exists (e1 ++ extra'). split_and!.
    + rewrite Hd'. rewrite Hd1 at 1.
      replace extra'
        with (withCounters
                (λ j c, if decide (tag_id tag' = j) then c + 1 else c) extra')
        at 1.
      * rewrite <- withCounters_app, <- app_assoc, withCounters_compose.
        apply withCounters_ext, Forall_forall. intros t _.
        rewrite timesListed_cons.
        destruct (decide (tag_id tag' = tag_id t)); lia.
      * apply withCounters_same, Forall_forall. intros t Ht.
        rewrite decide_False; [done|]. intros Heq. apply Hnot.
        rewrite Heq. unfold idsOfTags. apply list_elem_of_fmap. by exists t.
    + apply Forall_app. split.
      * eapply Forall_impl; [exact He1|]. intros t [? ->].
        split; [done|]. rewrite fmap_cons. apply list_elem_of_here.
      * eapply Forall_impl; [exact Hz'|]. intros t [? ?].
        split; [done|]. rewrite fmap_cons. by apply list_elem_of_further.
    + constructor.
      * unfold idsOfTags in *. rewrite !fmap_app in *.
        rewrite app_assoc, elem_of_app. by left.
      * rewrite <- Hsame'. exact Hids'.
    + by rewrite <- Hsame'.
    + simpl. by rewrite Hlen'.
Qed.

(** Releasing the ids the loop has returned gives every counter back. *)
Lemma release_after_process (tagNames : list string) (docs docs' : list Tag)
    (tagIds : list ObjectId) :
  freshFrom newId 0 docs →
  Forall (λ t, 0 ≤ tag_usageCount t) docs →
  processTags newId 0 tagNames docs = (docs', Some tagIds) →
  ∃ extra,
    releaseTags tagIds docs' = docs ++ extra
    ∧ Forall (λ t, tag_usageCount t = 0
                   ∧ tag_name t ∈ tagKey <$> tagNames) extra.
Proof.
  intros Hf Hnn Hps.
  destruct (processTags_shape tagNames 0%nat docs _ _ Hf Hps)
    as (extra & Hd & Hz & _ & Hnd & _).
  exists extra. split; [|done].
  rewrite releaseTags_spec by by rewrite Hd, idsOfTags_withCounters.
  rewrite Hd. rewrite withCounters_compose.
  apply withCounters_same, Forall_app. split.
  - eapply Forall_impl; [exact Hnn|]. intros t Ht. by apply lowered_raised.
  - eapply Forall_impl; [exact Hz|]. intros t [Ht _].
    apply lowered_raised. lia.
Qed.

End TagRoundTrip.

(** X18.  Creating a thread, with an accepted body, and deleting it again
    gives back what the create took: the thread is gone, the users are as
    before, the thread counter of the category and the usage counter of
    every tag name are what they were.  What stays behind are the tags
    the request created for names that were new, each under the
    normalised form of a submitted name and with usage counter 0. *)
Theorem create_then_delete_restores_counters (db : DB) (user : Requester)
    (title content : string) (category : ObjectId) (tagNames : list string)
    (threadId : ObjectId) (newTagId : nat → ObjectId) (now : N)
    (categoryDoc : Category) :
  categories db !! category = Some categoryDoc →
  threads db !! threadId = None →
  (∀ i j, newTagId i = newTagId j → i = j) →
  freshFrom newTagId 0 (tags db) →
  0 ≤ c_threadCount categoryDoc →
  Forall (λ t, 0 ≤ tag_usageCount t) (tags db) →
  acceptedThread title content (Some tagNames) = true →
  ∃ db1 tagIds db2 extra,
    createThread db user title content category tagNames threadId newTagId now
    = (db1, mkResponse 201 "Thread created successfully"
              (ThreadPayload threadId tagIds))
    ∧ deleteThread db1 user threadId
      = (db2, mkResponse 200 "Thread deleted successfully" NoPayload)
    ∧ threads db2 = threads db
    ∧ users db2 = users db
    ∧ categories db2 = categories db
    ∧ tags db2 = tags db ++ extra
    ∧ Forall (λ t, tag_usageCount t = 0
                   ∧ tag_name t ∈ tagKey <$> tagNames) extra
    ∧ (∀ name, usageOf name (tags db2) = usageOf name (tags db)).
Proof.
  intros Ec Et Hinj Hf Hc Hnn Hacc.
  pose proof (acceptedThread_parts _ _ _ Hacc) as (_ & _ & _ & Hvalid).
  destruct (processTags_spec newTagId Hinj tagNames 0%nat (tags db) Hvalid Hf)
    as (docs' & tagIds & Hps & _).
  destruct (release_after_process newTagId Hinj tagNames (tags db) _ _ Hf Hnn Hps)
    as (extra & Hrel & Hz).
  eexists _, tagIds, _, extra.
  split; [by apply (createThread_accepted _ _ _ _ _ _ _ _ _ _ _ _ Hacc Ec Hps)|].
  unfold deleteThread.
  cbn [fst threads users categories tags set_threads set_tags set_categories].
  rewrite lookup_insert_eq. unfold threadNotAuthorized.
  cbn [t_author t_category t_tags]. rewrite String.eqb_refl.
  cbn [negb andb]. rewrite lookup_insert_eq. cbv zeta.
  cbn [fst threads users categories tags set_threads set_tags set_categories
       c_name c_threadCount].
  split; [reflexivity|].
  cbn [threads users categories tags].
  split_and!.
  - by rewrite delete_insert_eq, delete_id.
  - done.
  - rewrite insert_insert_eq.
    replace (Z.max 0 (c_threadCount categoryDoc + 1 - 1))
      with (c_threadCount categoryDoc) by lia.
    apply insert_id. rewrite Ec. by destruct categoryDoc.
  - done.
  - done.
  - intros name. rewrite Hrel. apply usageOf_app_unused.
    eapply Forall_impl; [exact Hz|]. by intros t [? _].
Qed.

Lemma create_then_delete_restores_counters_witness :
  ∃ db1 tagIds db2 extra,
    createThread exampleDB user1 "Hooks" "How do hooks work?" "general"
      ["React"; "react"] "t9" exampleNewId 9
    = (db1, mkResponse 201 "Thread created successfully"
              (ThreadPayload "t9" tagIds))
    ∧ deleteThread db1 user1 "t9"
      = (db2, mkResponse 200 "Thread deleted successfully" NoPayload)
    ∧ threads db2 = threads exampleDB
    ∧ users db2 = users exampleDB
    ∧ categories db2 = categories exampleDB
    ∧ tags db2 = tags exampleDB ++ extra
    ∧ Forall (λ t, tag_usageCount t = 0
                   ∧ tag_name t ∈ tagKey <$> ["React"; "react"]) extra
    ∧ (∀ name, usageOf name (tags db2) = usageOf name (tags exampleDB)).
Proof.
  apply (create_then_delete_restores_counters exampleDB user1 "Hooks"
           "How do hooks work?" "general" ["React"; "react"] "t9"
           exampleNewId 9%N (mkCategory "General" 3)).
  - reflexivity.
  - reflexivity.
  - apply exampleNewId_inj.
  - apply exampleDB_fresh.
  - simpl. lia.
  - repeat constructor; simpl; lia.
  - reflexivity.
Defined.

(** ** Counters *)

Lemma saveTag_Forall (P : Tag → Prop) (tag : Tag) (docs : list Tag) :
  P tag → Forall P docs → Forall P (saveTag tag docs).
Proof.
  intros Ht. induction 1 as [|d docs Hd Hdocs IH]; simpl.
  - by repeat constructor.
  - destruct (String.eqb (tag_id d) (tag_id tag)); by constructor.
Qed.

Lemma deleteTagById_Forall (P : Tag → Prop) (id : ObjectId) (docs : list Tag) :
  Forall P docs → Forall P (deleteTagById id docs).
Proof.
  induction 1 as [|d docs Hd Hdocs IH]; simpl; [done|].
  destruct (String.eqb (tag_id d) id); [done | by constructor].
Qed.

Lemma findOneByName_Forall (P : Tag → Prop) (name : string) (docs : list Tag)
    (tag : Tag) :
  Forall P docs → findOneByName name docs = Some tag → P tag.
Proof.
  induction 1 as [|d docs Hd _ IH]; simpl; [done|].
  destruct (String.eqb (tag_name d) name); [by intros [= <-] | done].
Qed.

Lemma findTagById_Forall (P : Tag → Prop) (id : ObjectId) (docs : list Tag)
    (tag : Tag) :
  Forall P docs → findTagById id docs = Some tag → P tag.
Proof.
  induction 1 as [|d docs Hd _ IH]; simpl; [done|].
  destruct (String.eqb (tag_id d) id); [by intros [= <-] | done].
Qed.

Lemma processTags_nonneg (newId : nat → ObjectId) (tagNames : list string) :
  ∀ created docs,
    Forall (λ t, 0 ≤ tag_usageCount t) docs →
    Forall (λ t, 0 ≤ tag_usageCount t)
      (processTags newId created tagNames docs).1.
Proof.
  induction tagNames as [|tagName more IH]; intros created docs Hnn; [done|].
  simpl. unfold processTag. fold (tagKey tagName).
  destruct (findOneByName (tagKey tagName) docs) as [tag|] eqn:E.
  - specialize (IH created
                  (saveTag (set_usageCount tag (tag_usageCount tag + 1)) docs)).
    destruct (processTags newId created more _) as [docs' ids']. simpl.
    apply IH, saveTag_Forall; [|done].
    pose proof (findOneByName_Forall _ _ _ _ Hnn E) as Ht. simpl in *. lia.
  - destruct (validTagName (tagKey tagName)); [|done].
    specialize (IH (S created)
                  (saveTag (set_usageCount
                              (mkTag (newId created) (tagKey tagName) 0)
                              (0 + 1))
                     (saveTag (mkTag (newId created) (tagKey tagName) 0)
                        docs))).
    destruct (processTags newId (S created) more _) as [docs' ids']. simpl.
    apply IH, saveTag_Forall; [simpl; lia|].
    apply saveTag_Forall; [simpl; lia | done].
Qed.

Lemma releaseTags_nonneg (tagIds : list ObjectId) :
  ∀ docs,
    Forall (λ t, 0 ≤ tag_usageCount t) docs →
    Forall (λ t, 0 ≤ tag_usageCount t) (releaseTags tagIds docs).
Proof.
  induction tagIds as [|id more IH]; intros docs Hnn; [done|].
  simpl. apply IH. destruct (findTagById id docs); [|done].
  apply saveTag_Forall; [simpl; lia | done].
Qed.

Lemma serveStore_nonneg (db : DB) (req : StoreRequest) :
  countersNonneg db → countersNonneg (serveStore db req).
Proof.
  intros [Ht Hc].
  destruct req as [user title content category tagNames threadId newTagId now
                  |user threadId|tagId targetTagId|tagId|categoryId|req];
    simpl.
  - unfold createThread.
    destruct (validateThread title content (Some tagNames)); [|done].
    simpl negb. cbv iota.
    destruct (categories db !! category) as [c|] eqn:Ec; [|done].
    pose proof (processTags_nonneg newTagId tagNames 0%nat (tags db) Ht) as Hp.
    destruct (processTags newTagId 0 tagNames (tags db)) as [docs' [ids|]];
      [|done].
    destruct (String.eqb (trim title) "" || String.eqb (trim content) "");
      [done|].
    split; cbn [fst tags categories set_tags set_threads set_categories];
      [done|].
    apply map_Forall_insert_2; [|done].
    apply Hc in Ec. simpl in *. lia.
  - unfold deleteThread.
    destruct (threads db !! threadId) as [thread|]; [|done].
    destruct (threadNotAuthorized user thread); [done|].
    cbv zeta.
    destruct (categories db !! t_category thread) as [c|];
      split; cbn [fst tags categories set_tags set_threads set_categories];
      try (by apply releaseTags_nonneg); [|done].
    apply map_Forall_insert_2; [simpl; lia | done].
  - unfold mergeTags. destruct (truthy targetTagId) as [targetId|]; [|done].
    destruct (findTagById tagId (tags db)) as [s|] eqn:Es; [|done].
    destruct (findTagById targetId (tags db)) as [t|] eqn:Et; [|done].
    destruct (String.eqb (tag_id s) (tag_id t)); [done|].
    split; cbn [fst tags categories set_tags set_threads set_categories];
      [|done].
    apply deleteTagById_Forall, saveTag_Forall; [|done].
    pose proof (findTagById_Forall _ _ _ _ Ht Es).
    pose proof (findTagById_Forall _ _ _ _ Ht Et). simpl in *. lia.
  - unfold deleteTag. destruct (findTagById tagId (tags db)) as [t|]; [|done].
    destruct (0 <? tag_usageCount t); [done|].
    split; cbn [fst tags categories set_tags]; [|done].
    by apply deleteTagById_Forall.
  - unfold deleteCategory.
    destruct (categories db !! categoryId) as [c|]; [|done].
    destruct (0 <? c_threadCount c); [done|].
    split; cbn [fst tags categories set_categories]; [done|].
    by apply map_Forall_delete.
  - destruct (serve_leaves_the_rest db req) as (_ & Hcs & Hts & _).
    unfold countersNonneg. by rewrite Hcs, Hts.
Qed.

(** X19.  No counter ever goes below 0: if the usage counters of the tags
    and the thread counters of the categories are not negative, they are
    not negative after any sequence of requests that create or delete
    threads, merge or delete tags, delete categories, or write replies
    and votes. *)
Theorem counters_never_negative (reqs : list StoreRequest) (db : DB) :
  countersNonneg db → countersNonneg (foldl serveStore db reqs).
Proof.
  revert db. induction reqs as [|req reqs IH]; intros db Hnn; [done|].
  simpl. by apply IH, serveStore_nonneg.
Qed.

Lemma exampleDB_countersNonneg : countersNonneg exampleDB.
Proof.
  split.
  - repeat constructor; simpl; lia.
  - intros id c Hc.
    change (categories exampleDB)
      with ({[ "general" := mkCategory "General" 3 ]} : gmap ObjectId Category)
      in Hc.
    apply lookup_singleton_Some in Hc as [_ <-]. simpl. lia.
Qed.

Lemma counters_never_negative_witness :
  countersNonneg
    (foldl serveStore exampleDB
       [DeleteThread user1 "t1";
        CreateThread user1 "Hooks" "How do hooks work?" "general"
          ["React"; "react"] "t9" exampleNewId 9;
        MergeTags "#" (Some "tag-reactjs");
        DeleteThread user1 "t9"; DeleteThread user1 "t9"]).
Proof.
  apply (counters_never_negative
           [DeleteThread user1 "t1";
            CreateThread user1 "Hooks" "How do hooks work?" "general"
              ["React"; "react"] "t9" exampleNewId 9;
            MergeTags "#" (Some "tag-reactjs");
            DeleteThread user1 "t9"; DeleteThread user1 "t9"] exampleDB).
  apply exampleDB_countersNonneg.
Defined.

(** ** Tags and categories in use *)

Lemma findTagById_withCounters (g : ObjectId → Z → Z) (id : ObjectId)
    (docs : list Tag) :
  findTagById id (withCounters g docs)
  = (λ t, set_usageCount t (g id (tag_usageCount t))) <$> findTagById id docs.
Proof.
  unfold withCounters. induction docs as [|d docs IH]; [done|].
  rewrite fmap_cons. simpl.
  destruct (String.eqb_spec (tag_id d) id) as [<-|Hne]; [done | apply IH].
Qed.

Lemma findTagById_listed (id : ObjectId) (docs : list Tag) :
  id ∈ idsOfTags docs → ∃ t, findTagById id docs = Some t ∧ t ∈ docs.
Proof.
  unfold idsOfTags. induction docs as [|d docs IH]; simpl; intros Hin.
  - by apply elem_of_nil in Hin.
  - destruct (String.eqb_spec (tag_id d) id) as [Heq|Hne].
    + exists d. split; [done | apply list_elem_of_here].
    + apply elem_of_cons in Hin as [?|Hin]; [congruence|].
      destruct (IH Hin) as (t & Ht & Hin'). exists t.
      split; [done | by apply list_elem_of_further].
Qed.

Lemma timesListed_pos (id : ObjectId) (ids : list ObjectId) :
  id ∈ ids → (0 < timesListed id ids)%nat.
Proof.
  induction ids as [|x ids IH]; intros Hin; [by apply elem_of_nil in Hin|].
  rewrite timesListed_cons. destruct (decide (x = id)); [lia|].
  apply elem_of_cons in Hin as [?|Hin]; [congruence | by apply IH].
Qed.

(** X20.  What a thread uses cannot be deleted: after a thread has been
    created by a request with an accepted body, the delete-tag handler
    refuses every tag of the thread's tag array and the delete-category
    handler refuses the thread's category, each with status 400 and
    without writing anything. *)
Theorem in_use_cannot_be_deleted (db : DB) (user : Requester)
    (title content : string) (category : ObjectId) (tagNames : list string)
    (threadId : ObjectId) (newTagId : nat → ObjectId) (now : N)
    (categoryDoc : Category) :
  categories db !! category = Some categoryDoc →
  (∀ i j, newTagId i = newTagId j → i = j) →
  freshFrom newTagId 0 (tags db) →
  countersNonneg db →
  acceptedThread title content (Some tagNames) = true →
  let db1 :=
    (createThread db user title content category tagNames threadId
       newTagId now).1 in
  ∃ thread,
    threads db1 !! threadId = Some thread
    ∧ t_category thread = category
    ∧ length (t_tags thread) = length tagNames
    ∧ (∀ id, id ∈ t_tags thread →
         deleteTag db1 id
         = (db1, mkResponse 400 "Cannot delete tag that is currently in use"
                   NoPayload))
    ∧ deleteCategory db1 category
      = (db1, mkResponse 400
                "Cannot delete category with existing threads. Move threads to another category first."
                NoPayload).
Proof.
  intros Ec Hinj Hf [Hnt Hnc] Hacc db1.
  pose proof (acceptedThread_parts _ _ _ Hacc) as (_ & _ & _ & Hvalid).
  destruct (processTags_spec newTagId Hinj tagNames 0%nat (tags db) Hvalid Hf)
    as (docs' & tagIds & Hps & _).
  destruct (processTags_shape newTagId Hinj tagNames 0%nat (tags db) _ _ Hf Hps)
    as (extra & Hd & Hz & Hids & Hnd & Hlen).
  subst db1.
  rewrite (createThread_accepted _ _ _ _ _ _ _ _ _ _ _ _ Hacc Ec Hps).
  cbn [fst].
  eexists. split; [apply lookup_insert_eq|].
  cbn [t_category t_tags]. split_and!; [done | done | |].
  - intros id Hin. unfold deleteTag. cbn [tags].
    rewrite Hd, findTagById_withCounters.
    destruct (findTagById_listed id (tags db ++ extra)) as (t & -> & Ht).
    { by eapply Forall_forall in Hids. }
    simpl.
    assert (0 ≤ tag_usageCount t) as Hc.
    { apply elem_of_app in Ht as [Ht|Ht].
      - by eapply Forall_forall in Hnt.
      - eapply Forall_forall in Hz; [|done]. lia. }
    pose proof (timesListed_pos id tagIds Hin).
    by rewrite (proj2 (Z.ltb_lt _ _)) by lia.
  - unfold deleteCategory. cbn [categories].
    rewrite lookup_insert_eq. cbn [c_threadCount].
    apply Hnc in Ec. simpl in Ec.
    by rewrite (proj2 (Z.ltb_lt _ _)) by lia.
Qed.

Lemma in_use_cannot_be_deleted_witness :
  ∃ thread,
    threads reactDB !! "t9" = Some thread
    ∧ t_category thread = "general"
    ∧ length (t_tags thread) = length ["React"; "react"]
    ∧ (∀ id, id ∈ t_tags thread →
         deleteTag reactDB id
         = (reactDB,
            mkResponse 400 "Cannot delete tag that is currently in use"
              NoPayload))
    ∧ deleteCategory reactDB "general"
      = (reactDB,
         mkResponse 400
           "Cannot delete category with existing threads. Move threads to another category first."
           NoPayload).
Proof.
  apply (in_use_cannot_be_deleted exampleDB user1 "Hooks"
           "How do hooks work?" "general" ["React"; "react"] "t9"
           exampleNewId 9%N (mkCategory "General" 3)).
  - reflexivity.
  - apply exampleNewId_inj.
  - apply exampleDB_fresh.
  - apply exampleDB_countersNonneg.
  - reflexivity.
Defined.

(** ** Merging tags *)

Lemma totalUsage_save (tag old : Tag) (docs : list Tag) :
  findTagById (tag_id tag) docs = Some old →
  totalUsage (saveTag tag docs)
  = totalUsage docs - tag_usageCount old + tag_usageCount tag.
Proof.
  unfold totalUsage. induction docs as [|d docs IH]; simpl; [done|].
  destruct (String.eqb (tag_id d) (tag_id tag)).
  - intros [= ->]. simpl. lia.
  - intros H. simpl. rewrite IH by done. lia.
Qed.

Lemma totalUsage_delete (id : ObjectId) (old : Tag) (docs : list Tag) :
  findTagById id docs = Some old →
  totalUsage (deleteTagById id docs) = totalUsage docs - tag_usageCount old.
Proof.
  unfold totalUsage. induction docs as [|d docs IH]; simpl; [done|].
  destruct (String.eqb (tag_id d) id).
  - intros [= ->]. lia.
  - intros H. simpl. rewrite IH by done. lia.
Qed.

Lemma findTagById_save_other (id : ObjectId) (tag : Tag) (docs : list Tag) :
  id ≠ tag_id tag →
  findTagById id (saveTag tag docs) = findTagById id docs.
Proof.
  intros Hne. induction docs as [|d docs IH]; simpl.
  - by destruct (String.eqb_spec (tag_id tag) id).
  - destruct (String.eqb_spec (tag_id d) (tag_id tag)) as [He|Hd]; simpl.
    + destruct (String.eqb_spec (tag_id tag) id); [congruence|].
      destruct (String.eqb_spec (tag_id d) id); [congruence | done].
    + by rewrite IH.
Qed.

Lemma length_save (tag old : Tag) (docs : list Tag) :
  findTagById (tag_id tag) docs = Some old →
  length (saveTag tag docs) = length docs.
Proof.
  induction docs as [|d docs IH]; simpl; [done|].
  destruct (String.eqb (tag_id d) (tag_id tag)); [done|].
  intros H. simpl. by rewrite IH.
Qed.

Lemma length_delete (id : ObjectId) (old : Tag) (docs : list Tag) :
  findTagById id docs = Some old →
  S (length (deleteTagById id docs)) = length docs.
Proof.
  induction docs as [|d docs IH]; simpl; [done|].
  destruct (String.eqb (tag_id d) id); [done|].
  intros H. simpl. by rewrite IH.
Qed.

(** X21.  A merge that is refused writes nothing: 400 without a target
    id, 404 when the source or the target tag does not exist, 400 when
    both are the same tag.  A merge that is served removes exactly one tag
    and keeps the sum of all usage counters; the users and the categories
    are untouched. *)
Theorem merge_refusals_and_total (db : DB) (tagId : ObjectId)
    (targetTagId : option string) :
  (targetTagId = None ∨ targetTagId = Some "" →
   mergeTags db tagId targetTagId
   = (db, mkResponse 400 "Target tag ID is required" NoPayload))
  ∧ (∀ targetId,
       targetTagId = Some targetId → targetId ≠ "" →
       (findTagById tagId (tags db) = None
        ∨ findTagById targetId (tags db) = None →
        mergeTags db tagId targetTagId
        = (db, mkResponse 404 "One or both tags not found" NoPayload))
       ∧ (tagId = targetId → tagId ∈ idsOfTags (tags db) →
          mergeTags db tagId targetTagId
          = (db, mkResponse 400 "Cannot merge tag with itself" NoPayload))
       ∧ (tagId ≠ targetId →
          tagId ∈ idsOfTags (tags db) → targetId ∈ idsOfTags (tags db) →
          let db' := (mergeTags db tagId targetTagId).1 in
          status (mergeTags db tagId targetTagId).2 = 200%nat
          ∧ totalUsage (tags db') = totalUsage (tags db)
          ∧ S (length (tags db')) = length (tags db)
          ∧ users db' = users db
          ∧ categories db' = categories db)).
Proof.
  split.
  - by intros [-> | ->].
  - intros targetId -> Hne. unfold mergeTags, truthy.
    destruct (String.eqb_spec targetId ""); [done|]. split_and!.
    + intros [-> | Ht]; [done|]. rewrite Ht.
      by destruct (findTagById tagId (tags db)).
    + intros <- Hin.
      destruct (findTagById_listed _ _ Hin) as (t & -> & _).
      by rewrite String.eqb_refl.
    + intros Hdiff Hs Ht.
      destruct (findTagById_listed _ _ Hs) as (s & Es & _).
      destruct (findTagById_listed _ _ Ht) as (t & Et & _).
      rewrite Es, Et.
      pose proof (findTagById_Some _ _ _ Es) as (_ & _ & _ & His & _).
      pose proof (findTagById_Some _ _ _ Et) as (_ & _ & _ & Hit & _).
      rewrite His, Hit.
      destruct (String.eqb_spec tagId targetId); [done|].
      cbn [fst snd status tags users categories set_tags set_threads].
      assert (findTagById tagId
                (saveTag (set_usageCount t (tag_usageCount t + tag_usageCount s))
                   (tags db)) = Some s) as Es'.
      { rewrite findTagById_save_other; [done|]. simpl. congruence. }
      split_and!; [done | | | done | done].
      * rewrite (totalUsage_delete _ s) by done.
        rewrite (totalUsage_save _ t) by (simpl; by rewrite Hit).
        simpl. lia.
      * rewrite (length_delete _ s) by done.
        apply (length_save _ t). simpl. by rewrite Hit.
Qed.

Lemma merge_refusals_and_total_witness :
  status (mergeTags reactDB "#" (Some "tag-reactjs")).2 = 200%nat
  ∧ totalUsage (tags (mergeTags reactDB "#" (Some "tag-reactjs")).1)
    = totalUsage (tags reactDB)
  ∧ S (length (tags (mergeTags reactDB "#" (Some "tag-reactjs")).1))
    = length (tags reactDB)
  ∧ users (mergeTags reactDB "#" (Some "tag-reactjs")).1 = users reactDB
  ∧ categories (mergeTags reactDB "#" (Some "tag-reactjs")).1
    = categories reactDB.
Proof.
  apply (proj2 (merge_refusals_and_total reactDB "#" (Some "tag-reactjs"))
           "tag-reactjs" eq_refl).
  - discriminate.
  - discriminate.
  - by apply (bool_decide_unpack _).
  - by apply (bool_decide_unpack _).
Defined.

(** ** Usage counters and references *)

Lemma references_insert (id k : ObjectId) (t : Thread)
    (m : gmap ObjectId Thread) :
  m !! k = None →
  references id (<[k := t]> m)
  = (timesListed id (t_tags t) + references id m)%nat.
Proof.
  intros E. unfold references. rewrite fmap_insert.
  apply (map_fold_insert_L (λ _ ids acc, (timesListed id ids + acc)%nat)).
  - intros. lia.
  - by rewrite lookup_fmap, E.
Qed.

Lemma references_delete (id k : ObjectId) (t : Thread)
    (m : gmap ObjectId Thread) :
  m !! k = Some t →
  references id m
  = (timesListed id (t_tags t) + references id (delete k m))%nat.
Proof.
  intros E. unfold references. rewrite fmap_delete.
  apply (map_fold_delete_L (λ _ ids acc, (timesListed id ids + acc)%nat)).
  - intros. lia.
  - by rewrite lookup_fmap, E.
Qed.

Lemma timesListed_unlisted (id : ObjectId) (ids : list ObjectId) :
  id ∉ ids → timesListed id ids = 0%nat.
Proof.
  induction ids as [|x ids IH]; intros Hno; [done|].
  apply not_elem_of_cons in Hno as [Hne Hno].
  rewrite timesListed_cons, decide_False by done. by apply IH.
Qed.

Lemma references_unlisted (id : ObjectId) (m : gmap ObjectId Thread) :
  (∀ k t, m !! k = Some t → id ∉ t_tags t) → references id m = 0%nat.
Proof.
  induction m as [|k t m Hk IH] using map_ind; intros Hno.
  - unfold references. by rewrite fmap_empty, map_fold_empty.
  - rewrite references_insert by done.
    rewrite timesListed_unlisted, IH; [done | |].
    + intros k' t' E. apply (Hno k'). rewrite lookup_insert_ne; [done|].
      intros ->. by rewrite Hk in E.
    + apply (Hno k). apply lookup_insert_eq.
Qed.

Lemma references_none (id k : ObjectId) (t : Thread)
    (m : gmap ObjectId Thread) :
  references id m = 0%nat → m !! k = Some t → id ∉ t_tags t.
Proof.
  intros Hz E Hin. rewrite (references_delete id k t m E) in Hz.
  pose proof (timesListed_pos id (t_tags t) Hin). lia.
Qed.

Lemma sameThreads_tags (db db' : DB) :
  sameThreads db db' → t_tags <$> threads db' = t_tags <$> threads db.
Proof.
  intros Hs. apply map_eq. intros k. rewrite !lookup_fmap.
  specialize (Hs k).
  destruct (threads db !! k), (threads db' !! k); simpl; try done.
  destruct Hs as (_ & _ & _ & _ & Htags & _). by rewrite Htags.
Qed.

(** Taking a thread and its references away. *)
Lemma tagsConsistent_detach (db : DB) (threadId : ObjectId) (thread : Thread)
    (us : gmap ObjectId User) (cs : gmap ObjectId Category) :
  tagsConsistent db →
  threads db !! threadId = Some thread →
  tagsConsistent
    (mkDB (delete threadId (threads db)) us cs
       (releaseTags (t_tags thread) (tags db))).
Proof.
  intros (Hnd & Hc & Hr) E. unfold tagsConsistent. cbn [tags threads].
  rewrite releaseTags_spec by done.
  rewrite idsOfTags_withCounters. split_and!; [done | |].
  - unfold withCounters. apply Forall_fmap, Forall_forall. intros t Ht.
    simpl. eapply Forall_forall in Hc; [|done]. simpl in Hc.
    rewrite Hc, (references_delete (tag_id t) threadId thread _ E).
    rewrite Nat2Z.inj_add, Z.add_comm. apply lowered_raised. lia.
  - by apply map_Forall_delete.
Qed.

(** Adding a thread whose tag array is what the tag loop returns. *)
Lemma tagsConsistent_attach (db : DB) (threadId : ObjectId) (thread : Thread)
    (newTagId : nat → ObjectId) (tagNames : list string)
    (docs' : list Tag) (tagIds : list ObjectId)
    (us : gmap ObjectId User) (cs : gmap ObjectId Category) :
  tagsConsistent db →
  threads db !! threadId = None →
  (∀ i j, newTagId i = newTagId j → i = j) →
  freshFrom newTagId 0 (tags db) →
  processTags newTagId 0 tagNames (tags db) = (docs', Some tagIds) →
  t_tags thread = tagIds →
  tagsConsistent (mkDB (<[threadId := thread]> (threads db)) us cs docs').
Proof.
  intros (Hnd & Hc & Hr) Et Hinj Hf Hps Htags.
  destruct (processTags_shape newTagId Hinj tagNames 0%nat (tags db) _ _ Hf Hps)
    as (extra & Hd & Hz & Hids & Hnd' & _).
  rewrite <- Htags in Hd, Hids. rewrite Hd.
  unfold tagsConsistent. cbn [tags threads].
  rewrite idsOfTags_withCounters. split_and!; [done | |].
  - unfold withCounters. apply Forall_fmap, Forall_forall. intros t Ht.
    simpl. rewrite references_insert by done.
    apply elem_of_app in Ht as [Ht|Ht].
    + eapply Forall_forall in Hc; [|done]. lia.
    + eapply Forall_forall in Hz; [|done]. destruct Hz as [-> _].
      rewrite references_unlisted; [lia|].
      intros k th E Hin. eapply map_Forall_lookup_1 in Hr; [|done].
      eapply Forall_forall in Hr; [|done].
      unfold idsOfTags in Hnd'. rewrite fmap_app in Hnd'.
      apply NoDup_app in Hnd' as (_ & Hdisj & _).
      apply (Hdisj _ Hr). apply list_elem_of_fmap. by exists t.
  - apply map_Forall_insert_2; [done|].
    intros k th E. eapply Forall_impl; [by eapply Hr|].
    intros id Hin. unfold idsOfTags. rewrite fmap_app, elem_of_app. by left.
Qed.

(** The invariant reads the tags and the threads only. *)
Lemma tagsConsistent_parts (db db' : DB) :
  tags db' = tags db → threads db' = threads db →
  tagsConsistent db → tagsConsistent db'.
Proof. unfold tagsConsistent. by intros -> ->. Qed.

Lemma tagsConsistent_create (db : DB) (user : Requester)
    (title content : string) (category : ObjectId) (tagNames : list string)
    (threadId : ObjectId) (newTagId : nat → ObjectId) (now : N) :
  tagsConsistent db →
  threads db !! threadId = None →
  (∀ i j, newTagId i = newTagId j → i = j) →
  freshFrom newTagId 0 (tags db) →
  status (createThread db user title content category tagNames threadId
            newTagId now).2 ≠ 500%nat →
  tagsConsistent
    (createThread db user title content category tagNames threadId
       newTagId now).1.
Proof.
  intros Hc Et Hinj Hf. unfold createThread.
  destruct (validateThread title content (Some tagNames)); [|done].
  simpl negb. cbv iota.
  destruct (categories db !! category) as [c|]; [|done].
  destruct (processTags newTagId 0 tagNames (tags db)) as [docs' [tagIds|]]
    eqn:Hps; [|done].
  destruct (String.eqb (trim title) "" || String.eqb (trim content) "");
    [done|].
  intros _.
  pose proof (tagsConsistent_attach db threadId
                (mkThread (trim title) (trim content) (q_id user) category
                   tagIds [] rnil 0 false false now)
                newTagId tagNames docs' tagIds (users db) (categories db)
                Hc Et Hinj Hf Hps eq_refl) as Hgo.
  revert Hgo. by apply tagsConsistent_parts.
Qed.

Lemma tagsConsistent_deleteThread (db : DB) (user : Requester)
    (threadId : ObjectId) :
  tagsConsistent db → tagsConsistent (deleteThread db user threadId).1.
Proof.
  intros Hc. unfold deleteThread.
  destruct (threads db !! threadId) as [thread|] eqn:E; [|done].
  destruct (threadNotAuthorized user thread); [done|]. cbv zeta.
  pose proof (tagsConsistent_detach db threadId thread (users db)
                (categories db) Hc E) as Hgo.
  revert Hgo.
  destruct (categories db !! t_category thread); by apply tagsConsistent_parts.
Qed.

Lemma saveTag_twice (tag tag' : Tag) (docs : list Tag) :
  tag_id tag' = tag_id tag →
  saveTag tag' (saveTag tag docs) = saveTag tag' docs.
Proof.
  intros Hid. induction docs as [|d docs IH]; simpl.
  - by rewrite Hid, String.eqb_refl.
  - rewrite Hid.
    destruct (String.eqb (tag_id d) (tag_id tag)) eqn:Heq; simpl.
    + by rewrite Hid, String.eqb_refl.
    + by rewrite Hid, Heq, IH.
Qed.

(** The tag loops of the create and the edit handler do the same. *)
Lemma processTagsOnEdit_processTags (newId : nat → ObjectId)
    (tagNames : list string) :
  ∀ created docs,
    processTagsOnEdit newId created tagNames docs
    = processTags newId created tagNames docs.
Proof.
  induction tagNames as [|tagName more IH]; intros created docs; [done|].
  simpl. unfold processTagOnEdit, processTag.
  destruct (findOneByName (tagNameSetters (toLowerCase tagName)) docs) as [tag|].
  - by rewrite IH.
  - destruct (validTagName (tagNameSetters (toLowerCase tagName))); [|done].
    rewrite saveTag_twice by done. by rewrite IH.
Qed.

Lemma tagsConsistent_updateThread (db : DB) (user : Requester)
    (threadId : ObjectId) (title content : string) (category : ObjectId)
    (tagNames : option (list string)) (newTagId : nat → ObjectId) :
  tagsConsistent db →
  (∀ i j, newTagId i = newTagId j → i = j) →
  freshFrom newTagId 0 (tags db) →
  status (updateThread db user threadId title content category tagNames
            newTagId).2 ≠ 500%nat →
  tagsConsistent
    (updateThread db user threadId title content category tagNames
       newTagId).1.
Proof.
  intros Hc Hinj Hf. unfold updateThread.
  destruct (validateThread title content tagNames); [|done].
  simpl negb. cbv iota.
  destruct (threads db !! threadId) as [thread|] eqn:E; [|done].
  destruct (threadNotAuthorized user thread); [done|]. cbv zeta.
  assert (∀ db1, tags db1 = tags db → threads db1 = threads db →
            let result :=
              (let '(docs', tagIds) :=
                 match tagNames with
                 | Some names =>
                     processTagsOnEdit newTagId 0 names
                       (releaseTags (t_tags thread) (tags db1))
                 | None => (tags db1, Some (t_tags thread))
                 end in
               match tagIds with
               | None => (set_tags db1 docs',
                          mkResponse 500 "Server error" NoPayload)
               | Some tagIds =>
                   if String.eqb (trim title) "" || String.eqb (trim content) ""
                   then (set_tags db1 docs',
                         mkResponse 500 "Server error" NoPayload)
                   else
                     (set_threads (set_tags db1 docs')
                        (<[threadId :=
                             mkThread (trim title) (trim content)
                               (t_author thread) category
                               tagIds (t_votes thread) (t_replies thread)
                               (t_views thread) (t_isPinned thread)
                               (t_isLocked thread) (t_lastActivity thread)]>
                           (threads (set_tags db1 docs'))),
                      mkResponse 200 "Thread updated successfully" NoPayload)
               end) in
            status result.2 ≠ 500%nat → tagsConsistent result.1)
    as Hgo.
  { intros db1 Ht1 Hth1. cbn [threads set_tags]. rewrite Ht1, Hth1.
    destruct tagNames as [names|].
    - rewrite processTagsOnEdit_processTags.
      pose proof (tagsConsistent_detach db threadId thread (users db)
                    (categories db) Hc E) as Hmid.
      assert (freshFrom newTagId 0 (releaseTags (t_tags thread) (tags db)))
        as Hf'.
      { destruct Hc as (Hnd & _). destruct Hf as [_ Hfresh].
        rewrite releaseTags_spec by done. unfold freshFrom.
        by rewrite idsOfTags_withCounters. }
      destruct (processTags newTagId 0 names
                  (releaseTags (t_tags thread) (tags db)))
        as [docs' [tagIds|]] eqn:Hps; [|done].
      destruct (String.eqb (trim title) "" || String.eqb (trim content) "");
        [done|].
      intros _.
      pose proof (tagsConsistent_attach _ threadId
                    (mkThread (trim title) (trim content) (t_author thread)
                       category tagIds
                       (t_votes thread) (t_replies thread) (t_views thread)
                       (t_isPinned thread) (t_isLocked thread)
                       (t_lastActivity thread))
                    newTagId names docs' tagIds (users db1) (categories db1)
                    Hmid (lookup_delete_eq _ _) Hinj Hf' Hps eq_refl) as Hgo.
      cbn [threads tags] in Hgo. rewrite insert_delete_eq in Hgo.
      revert Hgo. by apply tagsConsistent_parts.
    - destruct (String.eqb (trim title) "" || String.eqb (trim content) "");
        [done|].
      intros _.
      destruct Hc as (Hnd & Hc & Hr). unfold tagsConsistent, references.
      cbn [fst tags threads set_tags set_threads].
      rewrite fmap_insert. cbn [t_tags].
      rewrite (insert_id (t_tags <$> threads db))
        by by rewrite lookup_fmap, E.
      split_and!; [done | done |].
      apply map_Forall_insert_2; [|done].
      exact (Hr threadId thread E). }
  destruct (negb (String.eqb category (t_category thread))); [|by apply Hgo].
  destruct (categories db !! category) as [newCategory|]; [|done].
  destruct (categories db !! t_category thread) as [oldCategory|]; [|done].
  by apply Hgo.
Qed.

Lemma tagsConsistent_deleteTag (db : DB) (tagId : ObjectId) :
  tagsConsistent db → tagsConsistent (deleteTag db tagId).1.
Proof.
  intros (Hnd & Hc & Hr). unfold deleteTag.
  destruct (findTagById tagId (tags db)) as [tag|] eqn:E; [|done].
  destruct (Z.ltb_spec 0 (tag_usageCount tag)) as [|Hle]; [done|].
  destruct (findTagById_Some _ _ _ E) as (l1 & l2 & Hdocs & <- & Hl1).
  unfold tagsConsistent. cbn [fst tags threads set_tags].
  rewrite Hdocs in *. rewrite deleteTagById_middle by done.
  assert (references (tag_id tag) (threads db) = 0%nat) as Hzero.
  { apply Forall_app in Hc as [_ Hc]. apply Forall_cons in Hc as [Hc _]. lia. }
  unfold idsOfTags in *. rewrite fmap_app in *. rewrite fmap_cons in *.
  split_and!.
  - apply NoDup_app in Hnd as (H1 & H2 & H3).
    apply NoDup_cons in H3 as [_ H3]. apply NoDup_app. split_and!; [done | | done].
    intros x Hx Hx'. apply (H2 x Hx). by apply list_elem_of_further.
  - apply Forall_app in Hc as [Hc1 Hc2]. apply Forall_cons in Hc2 as [_ Hc2].
    by apply Forall_app.
  - intros k th Ek. pose proof (Hr k th Ek) as Hth. simpl in Hth.
    apply Forall_forall. intros id Hin.
    eapply Forall_forall in Hth; [|done].
    rewrite elem_of_app in *. rewrite elem_of_cons in Hth.
    destruct Hth as [?|[->|?]]; [by left | | by right].
    by apply (references_none _ _ _ _ Hzero Ek) in Hin.
Qed.

Lemma tagsConsistent_serve (db : DB) (req : ForumRequest) :
  tagsConsistent db → tagsConsistent (serve db req).
Proof.
  intros (Hnd & Hc & Hr).
  destruct (serve_leaves_the_rest db req) as (Hs & _ & Ht & _).
  pose proof (sameThreads_tags _ _ Hs) as Htags.
  unfold tagsConsistent, references. rewrite Ht, Htags. split_and!; [done..|].
  intros k th' E. specialize (Hs k). rewrite E in Hs.
  destruct (threads db !! k) as [th|] eqn:E0; [|done].
  destruct Hs as (_ & _ & _ & _ & -> & _). by apply (Hr k).
Qed.

(** X22.  The usage counters stay true to the threads: when the tag ids
    are unique, every usage counter is the number of references to its
    tag in the tag arrays of the threads and every reference is to an
    existing tag, then the same holds after a thread is deleted, after a
    tag is deleted, after any reply or vote requests, and after every
    request to create a thread (under a new id, the ids for new tags
    being new) or to edit one that is not answered 500.  A create or edit
    request that is answered 500 may have saved tag counters without the
    thread. *)
Theorem usage_counters_match_references (db : DB) :
  tagsConsistent db →
  (∀ user title content category tagNames threadId newTagId now,
     threads db !! threadId = None →
     (∀ i j, newTagId i = newTagId j → i = j) →
     freshFrom newTagId 0 (tags db) →
     status (createThread db user title content category tagNames threadId
               newTagId now).2 ≠ 500%nat →
     tagsConsistent
       (createThread db user title content category tagNames threadId
          newTagId now).1)
  ∧ (∀ user threadId, tagsConsistent (deleteThread db user threadId).1)
  ∧ (∀ user threadId title content category tagNames newTagId,
       (∀ i j, newTagId i = newTagId j → i = j) →
       freshFrom newTagId 0 (tags db) →
       status (updateThread db user threadId title content category tagNames
                 newTagId).2 ≠ 500%nat →
       tagsConsistent
         (updateThread db user threadId title content category tagNames
            newTagId).1)
  ∧ (∀ tagId, tagsConsistent (deleteTag db tagId).1)
  ∧ (∀ reqs, tagsConsistent (foldl serve db reqs)).
Proof.
  intros Hc. split_and!.
  - intros. by apply tagsConsistent_create.
  - intros. by apply tagsConsistent_deleteThread.
  - intros. by apply tagsConsistent_updateThread.
  - intros. by apply tagsConsistent_deleteTag.
  - intros reqs. revert db Hc.
    induction reqs as [|req reqs IH]; intros db Hc; [done|].
    simpl. by apply IH, tagsConsistent_serve.
Qed.

Lemma exampleDB_tagsConsistent : tagsConsistent exampleDB.
Proof.
  split_and!.
  - by apply (bool_decide_unpack _).
  - repeat constructor.
  - intros k th E.
    change (threads exampleDB)
      with ({[ "t1" := exampleThread; "t2" := freshThread;
               "t3" := lockedThread ]} : gmap ObjectId Thread) in E.
    apply lookup_insert_Some in E as [[_ <-]|[_ E]];
      [|apply lookup_insert_Some in E as [[_ <-]|[_ E]];
        [|apply lookup_singleton_Some in E as [_ <-]]];
      repeat constructor; by apply (bool_decide_unpack _).
Qed.

Lemma usage_counters_match_references_witness :
  tagsConsistent reactDB.
Proof.
  apply (proj1 (usage_counters_match_references exampleDB
                  exampleDB_tagsConsistent)).
  - reflexivity.
  - apply exampleNewId_inj.
  - apply exampleDB_fresh.
  - vm_compute. lia.
Defined.

(** A create request answered 500 after a tag was saved: the counter of
    the tag javascript is 3, and the threads refer to it twice. *)
Example refused_create_breaks_the_count :
  tagsConsistent exampleDB
  ∧ ¬ tagsConsistent
        (createThread exampleDB user1 "Hooks" "How do hooks work?" "general"
           ["javascript"; "  "] "t9" exampleNewId 9).1.
Proof.
  split; [apply exampleDB_tagsConsistent|].
  intros (_ & Hc & _). apply Forall_cons in Hc as [Hc _].
  vm_compute in Hc. discriminate.
Qed.


(** ** The thread page *)

Lemma locate_cons_other (replyId id : string) (d : nat) (r : Reply)
    (nested rest : Replies) :
  r_id r = Some id →
  String.eqb id replyId = false →
  locate replyId d (rcons (set_replies r nested) rest)
  = match locate replyId (S d) nested with
    | loc_none => locate replyId d rest
    | found => found
    end.
Proof.
  intros Eid H. destruct r as [f k]. unfold r_id in Eid. simpl in Eid.
  simpl. unfold r_id. simpl. by rewrite Eid, H.
Qed.

(** Where a search replaces the reply it finds by one with the same id,
    the replacement is what is found afterwards, at the same depth. *)
Lemma locate_visit_replace {R} (replyId : string) (atHit : Reply → R * Edit)
    (newOf : Reply → Reply) (replies : Replies) :
  (∀ r, (atHit r).2 = edit_replace (newOf r)) →
  (∀ r, r_id (newOf r) = r_id r) →
  ∀ d,
    locate replyId d (visit replyId atHit replies).2
    = match locate replyId d replies with
      | loc_hit d' t => loc_hit d' (newOf t)
      | other => other
      end.
Proof.
  intros Hedit Hid.
  induction replies as [|r rest IHk IHr] using Replies_tree_ind; intros d;
    [done|].
  pose proof (visit_spec replyId atHit (r_replies r) (S d)) as Hk.
  simpl visit. simpl (locate replyId d (rcons r rest)).
  destruct (r_id r) as [id|] eqn:Eid.
  2:{ cbn [snd]. simpl. by rewrite Eid. }
  destruct (String.eqb id replyId) eqn:Heq.
  - rewrite Hedit. cbn [snd applyEdit]. simpl. by rewrite Hid, Eid, Heq.
  - specialize (IHk (S d)).
    destruct (locate replyId (S d) (r_replies r)) as [d' t| |] eqn:El.
    + destruct Hk as (_ & _ & k' & _ & _ & Ev & _).
      rewrite Ev in IHk |- *. cbn [snd] in IHk |- *.
      by rewrite (locate_cons_other replyId id), IHk.
    + rewrite Hk in IHk |- *. cbn [snd] in IHk |- *.
      specialize (IHr d).
      destruct (visit replyId atHit rest) as [res rest'].
      cbn [snd] in IHr |- *.
      by rewrite (locate_cons_other replyId id), IHk.
    + rewrite Hk in IHk |- *. cbn [snd] in IHk |- *.
      by rewrite (locate_cons_other replyId id), IHk.
Qed.

(** The page shows, for an id, the reply the searches of the handlers come
    to. *)
Lemma locateView_locate (db : DB) (user : option Requester)
    (replyId : string) (replies : Replies) :
  ∀ top d,
    match locate replyId d replies with
    | loc_hit d' target =>
        ∃ shown,
          locateView replyId (processReplies db user top replies) = Some shown
          ∧ rv_id (v_fields shown) = Some replyId
          ∧ rv_content (v_fields shown) = r_content target
          ∧ rv_voteScore (v_fields shown) = voteScore (r_votes target)
          ∧ rv_userVote (v_fields shown) = userVoteOf user (r_votes target)
    | loc_none => locateView replyId (processReplies db user top replies) = None
    | loc_thrown => True
    end.
Proof.
  induction replies as [|r rest IHk IHr] using Replies_tree_ind; intros top d;
    [done|].
  simpl. destruct (r_id r) as [id|] eqn:Eid; [|done].
  destruct (String.eqb_spec id replyId) as [->|Hne].
  - rewrite bool_decide_eq_true_2 by done. eexists. by split_and!.
  - rewrite bool_decide_eq_false_2 by congruence.
    specialize (IHk false (S d)).
    destruct (locate replyId (S d) (r_replies r)) as [d' t| |].
    + destruct IHk as (shown & -> & H). by exists shown.
    + rewrite IHk. apply IHr.
    + done.
Qed.

Lemma getThread_found (db : DB) (user : option Requester)
    (threadId : ObjectId) (thread : Thread) :
  threads db !! threadId = Some thread →
  user = None ∨ is_Some (users db !! t_author thread) →
  ∃ db' page,
    getThread db user threadId = (db', thread_ok page)
    ∧ tv_voteScore page = voteScore (t_votes thread)
    ∧ tv_userVote page = userVoteOf user (t_votes thread)
    ∧ tv_replies page = processReplies db user true (t_replies thread)
    ∧ tv_views page
      = t_views thread
        + (if bool_decide ((q_id <$> user) ≠ Some (t_author thread))
           then 1 else 0)
    ∧ db' = (if bool_decide ((q_id <$> user) ≠ Some (t_author thread))
             then set_threads db
                    (<[threadId := set_thread_views thread (t_views thread + 1)]>
                       (threads db))
             else db).
Proof.
  intros E Hu. unfold getThread. rewrite E.
  assert (countsAsView db thread user
          = Some (bool_decide ((q_id <$> user) ≠ Some (t_author thread))))
    as ->.
  { unfold countsAsView. destruct user as [u|]; [|done].
    destruct Hu as [?|Hu]; [done|].
    unfold populateUser, hasUser. rewrite bool_decide_eq_true_2 by done.
    f_equal. simpl.
    destruct (String.eqb_spec (t_author thread) (q_id u)) as [->|Hne]; simpl.
    - by rewrite bool_decide_eq_false_2 by (intros H; by apply H).
    - rewrite bool_decide_eq_true_2; [done|]. congruence. }
  destruct (bool_decide ((q_id <$> user) ≠ Some (t_author thread)));
    eexists _, _; (split; [reflexivity|]); simpl; split_and!; try done; lia.
Qed.

Lemma updateAuthorReputation_known (id author : ObjectId) (delta : Z)
    (us : gmap ObjectId User) :
  is_Some (us !! author) →
  is_Some (updateAuthorReputation id delta us !! author).
Proof.
  rewrite <- !elem_of_dom. by rewrite updateAuthorReputation_dom.
Qed.

(** X23.  The thread page shows what the vote handlers answered, for the
    thread and for the replies of its [replies] array: when the author of
    the thread has a user document, after a vote on the thread the page
    requested by the voter carries the score and the voter's own vote of
    the vote response, and after a vote on a reply that the search finds
    at the top level the entry of that reply on the page carries them.
    After a vote on a reply that the search finds below the top level the
    entry of that reply carries the score and the voter's vote of before
    the request. *)
Theorem page_shows_returned_vote (db : DB) (user : Requester)
    (threadId : ObjectId) (ty : VoteType) (thread : Thread) :
  threads db !! threadId = Some thread →
  is_Some (users db !! t_author thread) →
  (∃ db1 newScore userVote db2 page,
     voteOnThread db user threadId (showVoteType ty)
     = (db1, mkResponse 200 "Vote recorded successfully"
               (VotePayload newScore userVote))
     ∧ getThread db1 (Some user) threadId = (db2, thread_ok page)
     ∧ tv_voteScore page = newScore
     ∧ tv_userVote page = userVote)
  ∧ (∀ replyId now target,
       locate replyId 0 (t_replies thread) = loc_hit 0 target →
       ∃ db1 newScore userVote db2 page shown,
         voteOnReply db user threadId replyId (showVoteType ty) now
         = (db1, mkResponse 200 "Vote recorded successfully"
                   (VotePayload newScore userVote))
         ∧ getThread db1 (Some user) threadId = (db2, thread_ok page)
         ∧ locateView replyId (tv_replies page) = Some shown
         ∧ rv_voteScore (v_fields shown) = newScore
         ∧ rv_userVote (v_fields shown) = userVote)
  ∧ (∀ replyId now depth target,
       locate replyId 0 (t_replies thread) = loc_hit (S depth) target →
       ∃ db1 res db2 page shown,
         voteOnReply db user threadId replyId (showVoteType ty) now
         = (db1, res)
         ∧ status res = 200%nat
         ∧ getThread db1 (Some user) threadId = (db2, thread_ok page)
         ∧ locateView replyId (tv_replies page) = Some shown
         ∧ rv_voteScore (v_fields shown) = voteScore (r_votes target)
         ∧ rv_userVote (v_fields shown)
           = userVoteOf (Some user) (r_votes target)).
Proof.
  intros E Hau. split_and!.
  - rewrite (voteOnThread_found _ _ _ _ _ E). cbv zeta.
    edestruct (getThread_found
                 (mkDB (<[threadId := set_thread_votes thread
                                        (castVote (t_votes thread) (q_id user) ty).1]>
                          (threads db))
                    (updateAuthorReputation (t_author thread)
                       (castVote (t_votes thread) (q_id user) ty).2 (users db))
                    (categories db) (tags db))
                 (Some user) threadId)
      as (db2 & page & Hg & Hs & Hu & _); [apply lookup_insert_eq | |].
    { right. cbn [users t_author set_thread_votes].
      by apply updateAuthorReputation_known. }
    eexists _, _, _, db2, page. by split_and!.
  - intros replyId now target Hl.
    destruct (voteOnReply_hit db user threadId replyId ty now thread 0 target
                E Hl) as (l1 & l2 & replies' & _ & _ & _ & Hf & ->).
    cbv zeta. cbn [savesFieldsAt Nat.eqb].
    pose proof (locate_visit_replace replyId (voteAction user ty)
                  (λ r, set_votes r (castVote (r_votes r) (q_id user) ty).1)
                  (t_replies thread) (λ r, eq_refl)
                  (λ r, ltac:(by destruct r)) 0) as Hloc.
    rewrite findAndVoteReply_visit in Hf.
    assert (replies' = (visit replyId (voteAction user ty) (t_replies thread)).2)
      as Er by (by injection Hf).
    rewrite <- Er, Hl in Hloc.
    edestruct (getThread_found
                 (mkDB (<[threadId := set_thread_replies thread replies' now]>
                          (threads db))
                    (updateAuthorReputation (r_author target)
                       (castVote (r_votes target) (q_id user) ty).2 (users db))
                    (categories db) (tags db))
                 (Some user) threadId)
      as (db2 & page & Hg & _ & _ & Hr & _); [apply lookup_insert_eq | |].
    { right. cbn [users t_author set_thread_replies].
      by apply updateAuthorReputation_known. }
    pose proof (locateView_locate
                  (mkDB (<[threadId := set_thread_replies thread replies' now]>
                           (threads db))
                     (updateAuthorReputation (r_author target)
                        (castVote (r_votes target) (q_id user) ty).2 (users db))
                     (categories db) (tags db))
                  (Some user) replyId replies' true 0) as Hv.
    rewrite Hloc in Hv. destruct Hv as (shown & Hv & _ & _ & Hs & Hu).
    eexists _, _, _, db2, page, shown. split; [reflexivity|].
    split; [exact Hg|]. rewrite Hr. cbn [t_replies set_thread_replies].
    split; [exact Hv|]. split; [exact Hs | exact Hu].
  - intros replyId now depth target Hl.
    destruct (voteOnReply_hit db user threadId replyId ty now thread (S depth)
                target E Hl) as (l1 & l2 & replies' & _ & _ & _ & _ & ->).
    cbv zeta. cbn [savesFieldsAt Nat.eqb].
    edestruct (getThread_found
                 (mkDB (threads db)
                    (updateAuthorReputation (r_author target)
                       (castVote (r_votes target) (q_id user) ty).2 (users db))
                    (categories db) (tags db))
                 (Some user) threadId)
      as (db2 & page & Hg & _ & _ & Hr & _); [exact E | |].
    { right. cbn [users]. by apply updateAuthorReputation_known. }
    pose proof (locateView_locate
                  (mkDB (threads db)
                     (updateAuthorReputation (r_author target)
                        (castVote (r_votes target) (q_id user) ty).2 (users db))
                     (categories db) (tags db))
                  (Some user) replyId (t_replies thread) true 0) as Hv.
    rewrite Hl in Hv. destruct Hv as (shown & Hv & _ & _ & Hs & Hu).
    eexists _, _, db2, page, shown. split; [reflexivity|].
    split; [done|]. split; [exact Hg|]. rewrite Hr. by split_and!.
Qed.

Lemma page_shows_returned_vote_witness :
  ∃ db1 newScore userVote db2 page shown,
    voteOnReply seededDB user3 "t1" "A" (showVoteType downvote) 9
    = (db1, mkResponse 200 "Vote recorded successfully"
              (VotePayload newScore userVote))
    ∧ getThread db1 (Some user3) "t1" = (db2, thread_ok page)
    ∧ locateView "A" (tv_replies page) = Some shown
    ∧ rv_voteScore (v_fields shown) = newScore
    ∧ rv_userVote (v_fields shown) = userVote.
Proof.
  refine (proj1 (proj2 (page_shows_returned_vote seededDB user3 "t1" downvote
                          exampleThread eq_refl _)) "A" 9%N _ _).
  - by apply (bool_decide_unpack _).
  - reflexivity.
Defined.

(** A vote on the nested reply [B] is answered with the new score, and
    the page still shows the score of before. *)
Example page_keeps_old_score_below_top_level :
  (voteOnReply seededDB user3 "t1" "B" "upvote" 9).2
  = mkResponse 200 "Vote recorded successfully" (VotePayload 0 (Some upvote))
  ∧ (rv_voteScore ∘ v_fields)
      <$> (match (getThread (voteOnReply seededDB user3 "t1" "B" "upvote" 9).1
                    (Some user3) "t1").2 with
           | thread_ok page => locateView "B" (tv_replies page)
           | thread_error _ _ => None
           end)
    = Some (-1).
Proof. by vm_compute. Qed.

Lemma shownScores_processReplies (db : DB) (user : option Requester)
    (replies : Replies) :
  ∀ top,
    shownScores (processReplies db user top replies)
    = scoreOf (calculateReplyStats replies).
Proof.
  rewrite (calculateReplyStats_tally replies 0). generalize 0%nat.
  induction replies as [|r rest IHk IHr] using Replies_tree_ind; intros d top;
    [done|].
  rewrite outline_cons. unfold outlineOf.
  rewrite scoreOf_tally_app, scoreOf_tally_cons.
  simpl. rewrite (IHk (S d) false), (IHr d top). unfold r_votes, voteScore. lia.
Qed.

(** X24.  The thread page and the statistics agree: for a reader without
    login, and for every reader when the author of the thread has a user
    document, the score the page shows for the thread is the score of the
    statistics' thread block, the scores it shows for the replies add up
    to the score of the replies block, and both together to the total;
    requesting the page does not change the statistics. *)
Theorem page_and_stats_agree (db : DB) (user : option Requester)
    (threadId : ObjectId) (thread : Thread) :
  threads db !! threadId = Some thread →
  user = None ∨ is_Some (users db !! t_author thread) →
  ∃ db' page th rp tot,
    getThread db user threadId = (db', thread_ok page)
    ∧ getVoteStats db threadId = stats_ok th rp tot
    ∧ tv_voteScore page = s_score th
    ∧ shownScores (tv_replies page) = s_score rp
    ∧ tv_voteScore page + shownScores (tv_replies page) = s_score tot
    ∧ getVoteStats db' threadId = getVoteStats db threadId.
Proof.
  intros E Hu.
  destruct (getThread_found db user threadId thread E Hu)
    as (db' & page & Hg & Hs & _ & Hr & _ & Hdb).
  exists db', page. rewrite Hg, Hs, Hr, shownScores_processReplies.
  unfold getVoteStats. rewrite E. cbv zeta.
  eexists _, _, _. split; [reflexivity|]. split; [reflexivity|].
  cbn [s_score]. unfold voteScore, scoreOf. split_and!; [done..|].
  rewrite Hdb.
  destruct (bool_decide ((q_id <$> user) ≠ Some (t_author thread)));
    [|by rewrite E].
  cbn [threads set_threads]. by rewrite lookup_insert_eq.
Qed.

Lemma page_and_stats_agree_witness :
  ∃ db' page th rp tot,
    getThread seededDB (Some user1) "t1" = (db', thread_ok page)
    ∧ getVoteStats seededDB "t1" = stats_ok th rp tot
    ∧ tv_voteScore page = s_score th
    ∧ shownScores (tv_replies page) = s_score rp
    ∧ tv_voteScore page + shownScores (tv_replies page) = s_score tot
    ∧ getVoteStats db' "t1" = getVoteStats seededDB "t1".
Proof.
  apply (page_and_stats_agree seededDB (Some user1) "t1" exampleThread).
  - reflexivity.
  - right. by apply (bool_decide_unpack _).
Defined.

(** Without a user document of the author the page of a reader with a
    login is answered 500, and that of a reader without login is served. *)
Example page_of_unknown_author :
  getThread (set_users exampleDB ∅) (Some user1) "t1"
  = (set_users exampleDB ∅, thread_error 500 "Server error")
  ∧ ∃ db' page, getThread (set_users exampleDB ∅) None "t1"
                = (db', thread_ok page).
Proof. split; [by vm_compute | by eexists _, _]. Qed.

Lemma set_thread_views_same (thread : Thread) :
  set_thread_views thread (t_views thread) = thread.
Proof. by destruct thread. Qed.

(** X25.  The view counter counts the readers who are not the author:
    when the author of the thread has a user document, after the thread
    page has been requested by a sequence of readers, logged in or not,
    the counter has risen by the number of those who are not the thread's
    author, and nothing else in the database has changed. *)
Theorem views_count_other_readers (readers : list (option Requester))
    (db : DB) (threadId : ObjectId) (thread : Thread) :
  threads db !! threadId = Some thread →
  is_Some (users db !! t_author thread) →
  let db' := readBy db threadId readers in
  threads db'
  = <[threadId :=
        set_thread_views thread
          (t_views thread
           + Z.of_nat (length (otherReaders (t_author thread) readers)))]>
      (threads db)
  ∧ users db' = users db
  ∧ categories db' = categories db
  ∧ tags db' = tags db.
Proof.
  revert db thread. unfold readBy.
  induction readers as [|user readers IH]; intros db thread E Hau; simpl.
  - split_and!; [|done..]. rewrite Z.add_0_r, set_thread_views_same.
    by rewrite insert_id.
  - unfold otherReaders. rewrite filter_cons.
    fold (otherReaders (t_author thread) readers).
    destruct (getThread_found db user threadId thread E (or_intror Hau))
      as (db1 & page & Hg & _ & _ & _ & _ & Hdb).
    rewrite Hg. cbn [fst]. rewrite Hdb.
    destruct (decide ((q_id <$> user) ≠ Some (t_author thread))) as [Ho|Ho].
    + rewrite (bool_decide_eq_true_2 _ Ho).
      destruct (IH (set_threads db
                      (<[threadId := set_thread_views thread
                                       (t_views thread + 1)]> (threads db)))
                  (set_thread_views thread (t_views thread + 1)))
        as (Ht & Hu & Hc & Hgs).
      { cbn [threads set_threads]. apply lookup_insert_eq. }
      { exact Hau. }
      cbn [t_author t_views set_thread_views threads users categories tags
           set_threads] in Ht, Hu, Hc, Hgs.
      split_and!; [| exact Hu | exact Hc | exact Hgs].
      rewrite Ht, insert_insert_eq. f_equal. unfold set_thread_views. simpl.
      f_equal. lia.
    + rewrite (bool_decide_eq_false_2 _ Ho).
      by apply IH.
Qed.

Lemma views_count_other_readers_witness :
  threads (readBy seededDB "t1"
             [None; Some user1; Some (mkRequester "author" role_user); None])
  = <[ "t1" :=
         set_thread_views exampleThread
           (t_views exampleThread
            + Z.of_nat
                (length
                   (otherReaders (t_author exampleThread)
                      [None; Some user1;
                       Some (mkRequester "author" role_user); None])))]>
      (threads seededDB)
  ∧ users (readBy seededDB "t1"
             [None; Some user1; Some (mkRequester "author" role_user); None])
    = users seededDB
  ∧ categories (readBy seededDB "t1"
                  [None; Some user1; Some (mkRequester "author" role_user);
                   None])
    = categories seededDB
  ∧ tags (readBy seededDB "t1"
            [None; Some user1; Some (mkRequester "author" role_user); None])
    = tags seededDB.
Proof.
  apply (views_count_other_readers
           [None; Some user1; Some (mkRequester "author" role_user); None]
           seededDB "t1" exampleThread).
  - reflexivity.
  - by apply (bool_decide_unpack _).
Defined.

Example views_count_three_of_four :
  t_views <$> threads (readBy seededDB "t1"
                         [None; Some user1;
                          Some (mkRequester "author" role_user); None]) !! "t1"
  = Some 3.
Proof. vm_compute. reflexivity. Qed.

(** ** Thread counters and threads *)

Lemma threadsIn_insert (category k : ObjectId) (t : Thread)
    (m : gmap ObjectId Thread) :
  m !! k = None →
  threadsIn category (<[k := t]> m)
  = ((if decide (t_category t = category) then 1 else 0)
     + threadsIn category m)%nat.
Proof.
  intros E. unfold threadsIn. rewrite fmap_insert.
  apply (map_fold_insert_L
           (λ _ c acc, ((if decide (c = category) then 1 else 0) + acc)%nat)).
  - intros. lia.
  - by rewrite lookup_fmap, E.
Qed.

Lemma threadsIn_delete (category k : ObjectId) (t : Thread)
    (m : gmap ObjectId Thread) :
  m !! k = Some t →
  threadsIn category m
  = ((if decide (t_category t = category) then 1 else 0)
     + threadsIn category (delete k m))%nat.
Proof.
  intros E. unfold threadsIn. rewrite fmap_delete.
  apply (map_fold_delete_L
           (λ _ c acc, ((if decide (c = category) then 1 else 0) + acc)%nat)).
  - intros. lia.
  - by rewrite lookup_fmap, E.
Qed.

Lemma threadsIn_replace (category k : ObjectId) (t t' : Thread)
    (m : gmap ObjectId Thread) :
  m !! k = Some t →
  threadsIn category (<[k := t']> m)
  = ((if decide (t_category t' = category) then 1 else 0)
     + threadsIn category (delete k m))%nat.
Proof.
  intros E. rewrite <- insert_delete_eq.
  apply threadsIn_insert, lookup_delete_eq.
Qed.

Lemma threadsIn_none (category k : ObjectId) (t : Thread)
    (m : gmap ObjectId Thread) :
  threadsIn category m = 0%nat → m !! k = Some t → t_category t ≠ category.
Proof.
  intros Hz E Heq. rewrite (threadsIn_delete category k t m E) in Hz.
  rewrite decide_True in Hz by done. lia.
Qed.

Lemma is_Some_insert {A} (m : gmap ObjectId A) (i j : ObjectId) (x : A) :
  is_Some (m !! j) → is_Some (<[i := x]> m !! j).
Proof.
  intros H. apply lookup_insert_is_Some.
  destruct (decide (i = j)); [by left | by right].
Qed.

(** The invariant reads the categories and the category of every thread
    only. *)
Lemma categoriesConsistent_parts (db db' : DB) :
  categories db' = categories db →
  t_category <$> threads db' = t_category <$> threads db →
  categoriesConsistent db → categoriesConsistent db'.
Proof.
  intros Hc Ht (H1 & H2). unfold categoriesConsistent, threadsIn.
  rewrite Hc, Ht. split; [done|].
  apply (map_Forall_fmap (λ _ c, is_Some (categories db !! c))).
  rewrite Ht.
  by apply (map_Forall_fmap (λ _ c, is_Some (categories db !! c))).
Qed.

Lemma sameThreads_categories (db db' : DB) :
  sameThreads db db' → t_category <$> threads db' = t_category <$> threads db.
Proof.
  intros Hs. apply map_eq. intros k. rewrite !lookup_fmap.
  specialize (Hs k).
  destruct (threads db !! k), (threads db' !! k); simpl; try done.
  destruct Hs as (_ & _ & _ & Hcat & _). by rewrite Hcat.
Qed.

Lemma categoriesConsistent_create (db : DB) (user : Requester)
    (title content : string) (category : ObjectId) (tagNames : list string)
    (threadId : ObjectId) (newTagId : nat → ObjectId) (now : N) :
  categoriesConsistent db →
  threads db !! threadId = None →
  categoriesConsistent
    (createThread db user title content category tagNames threadId
       newTagId now).1.
Proof.
  intros (Hc & Hr) Et. unfold createThread.
  destruct (validateThread title content (Some tagNames)); [|done].
  simpl negb. cbv iota.
  destruct (categories db !! category) as [c|] eqn:Ec; [|done].
  destruct (processTags newTagId 0 tagNames (tags db)) as [docs' [tagIds|]];
    [|done].
  destruct (String.eqb (trim title) "" || String.eqb (trim content) "");
    [done|].
  unfold categoriesConsistent.
  cbn [fst threads categories set_tags set_threads set_categories]. split.
  - intros id c' Hl. rewrite threadsIn_insert by done. cbn [t_category].
    apply lookup_insert_Some in Hl as [[<- <-]|[Hne Hl]].
    + rewrite decide_True by done. apply Hc in Ec. simpl in *. lia.
    + rewrite decide_False by done. apply Hc in Hl. simpl in *. lia.
  - apply map_Forall_insert_2.
    + cbn [t_category]. by rewrite lookup_insert_eq.
    + intros k th E. apply is_Some_insert. by apply (Hr k).
Qed.

Lemma categoriesConsistent_deleteThread (db : DB) (user : Requester)
    (threadId : ObjectId) :
  categoriesConsistent db →
  categoriesConsistent (deleteThread db user threadId).1.
Proof.
  intros (Hc & Hr). unfold deleteThread.
  destruct (threads db !! threadId) as [thread|] eqn:E; [|done].
  destruct (threadNotAuthorized user thread); [done|]. cbv zeta.
  destruct (Hr threadId thread E) as [c Ec]. rewrite Ec.
  unfold categoriesConsistent.
  cbn [fst threads categories set_tags set_threads set_categories]. split.
  - intros id c' Hl.
    apply lookup_insert_Some in Hl as [[<- <-]|[Hne Hl]].
    + apply Hc in Ec. simpl in *.
      rewrite (threadsIn_delete _ threadId thread _ E) in Ec.
      rewrite decide_True in Ec by done. lia.
    + apply Hc in Hl. simpl in *.
      rewrite (threadsIn_delete _ threadId thread _ E) in Hl.
      rewrite decide_False in Hl by done. lia.
  - intros k th Ek. apply lookup_delete_Some in Ek as [_ Ek].
    apply is_Some_insert. by apply (Hr k).
Qed.

Lemma categoriesConsistent_updateThread (db : DB) (user : Requester)
    (threadId : ObjectId) (title content : string) (category : ObjectId)
    (tagNames : option (list string)) (newTagId : nat → ObjectId) :
  categoriesConsistent db →
  status (updateThread db user threadId title content category tagNames
            newTagId).2 ≠ 500%nat →
  categoriesConsistent
    (updateThread db user threadId title content category tagNames
       newTagId).1.
Proof.
  intros (Hc & Hr). unfold updateThread.
  destruct (validateThread title content tagNames); [|done].
  simpl negb. cbv iota.
  destruct (threads db !! threadId) as [thread|] eqn:E; [|done].
  destruct (threadNotAuthorized user thread); [done|]. cbv zeta.
  destruct (String.eqb_spec category (t_category thread)) as [Heq|Hne];
    cbn [negb].
  - destruct (match tagNames with
              | Some names => _
              | None => _
              end) as [docs' [tagIds|]]; [|done].
    destruct (String.eqb (trim title) "" || String.eqb (trim content) "");
      [done|].
    intros _.
    apply (categoriesConsistent_parts db); [done | | by split].
    cbn [fst threads set_tags set_threads].
    rewrite fmap_insert. cbn [t_category]. apply insert_id.
    by rewrite lookup_fmap, E, Heq.
  - destruct (categories db !! category) as [newCategory|] eqn:En; [|done].
    destruct (categories db !! t_category thread) as [oldCategory|] eqn:Eo;
      [|done].
    destruct (match tagNames with
              | Some names => _
              | None => _
              end) as [docs' [tagIds|]]; [|done].
    destruct (String.eqb (trim title) "" || String.eqb (trim content) "");
      [done|].
    intros _.
    unfold categoriesConsistent.
    cbn [fst threads categories set_tags set_threads set_categories]. split.
    + intros id c' Hl. rewrite (threadsIn_replace _ _ thread) by done.
      cbn [t_category].
      apply lookup_insert_Some in Hl as [[<- <-]|[Hn Hl]].
      * rewrite decide_True by done. apply Hc in En. simpl in *.
        rewrite (threadsIn_delete _ threadId thread _ E) in En.
        rewrite decide_False in En by done. lia.
      * rewrite decide_False by done.
        apply lookup_insert_Some in Hl as [[<- <-]|[Ho Hl]].
        -- apply Hc in Eo. simpl in *.
           rewrite (threadsIn_delete _ threadId thread _ E) in Eo.
           rewrite decide_True in Eo by done. lia.
        -- apply Hc in Hl. simpl in *.
           rewrite (threadsIn_delete _ threadId thread _ E) in Hl.
           rewrite decide_False in Hl by done. lia.
    + apply map_Forall_insert_2.
      * cbn [t_category]. by rewrite lookup_insert_eq.
      * intros k th Ek. do 2 apply is_Some_insert. by apply (Hr k).
Qed.

Lemma categoriesConsistent_deleteCategory (db : DB) (categoryId : ObjectId) :
  categoriesConsistent db →
  categoriesConsistent (deleteCategory db categoryId).1.
Proof.
  intros (Hc & Hr). unfold deleteCategory.
  destruct (categories db !! categoryId) as [c|] eqn:Ec; [|done].
  destruct (Z.ltb_spec 0 (c_threadCount c)) as [|Hle]; [done|].
  assert (threadsIn categoryId (threads db) = 0%nat) as Hzero.
  { apply Hc in Ec. simpl in Ec. lia. }
  unfold categoriesConsistent. cbn [fst threads categories set_categories].
  split.
  - by apply map_Forall_delete.
  - intros k th Ek. rewrite lookup_delete_ne; [by apply (Hr k)|].
    intros Heq. by apply (threadsIn_none _ _ _ _ Hzero Ek).
Qed.

Lemma categoriesConsistent_mergeTags (db : DB) (tagId : ObjectId)
    (targetTagId : option string) :
  categoriesConsistent db →
  categoriesConsistent (mergeTags db tagId targetTagId).1.
Proof.
  intros Hc. unfold mergeTags.
  destruct (truthy targetTagId) as [targetId|]; [|done].
  destruct (findTagById tagId (tags db)) as [s|]; [|done].
  destruct (findTagById targetId (tags db)) as [t|]; [|done].
  destruct (String.eqb (tag_id s) (tag_id t)); [done|].
  apply (categoriesConsistent_parts db); [done | | done].
  cbn [fst threads set_tags set_threads]. unfold repointThreads.
  rewrite <- map_fmap_compose. by apply map_fmap_ext.
Qed.

Lemma categoriesConsistent_deleteTag (db : DB) (tagId : ObjectId) :
  categoriesConsistent db → categoriesConsistent (deleteTag db tagId).1.
Proof.
  intros Hc. unfold deleteTag.
  destruct (findTagById tagId (tags db)) as [t|]; [|done].
  destruct (0 <? tag_usageCount t); [done|].
  by apply (categoriesConsistent_parts db).
Qed.

Lemma categoriesConsistent_serve (db : DB) (req : ForumRequest) :
  categoriesConsistent db → categoriesConsistent (serve db req).
Proof.
  intros Hc. destruct (serve_leaves_the_rest db req) as (Hs & Hcs & _).
  apply (categoriesConsistent_parts db); [done | | done].
  by apply sameThreads_categories.
Qed.

(** X26.  The thread counters stay true to the threads: when the thread
    counter of every category is the number of threads of that category
    and the category of every thread exists, then the same holds after
    every request to create a thread (under a new id), after a thread is
    deleted, after every request to edit a thread that is not answered
    500, also when the edit moves it to another category, after a
    category or a tag is deleted, after tags are merged, and after any
    reply or vote requests.  An edit that moves the thread and is then
    answered 500 has moved the counters without the thread. *)
Theorem thread_counters_match_threads (db : DB) :
  categoriesConsistent db →
  (∀ user title content category tagNames threadId newTagId now,
     threads db !! threadId = None →
     categoriesConsistent
       (createThread db user title content category tagNames threadId
          newTagId now).1)
  ∧ (∀ user threadId, categoriesConsistent (deleteThread db user threadId).1)
  ∧ (∀ user threadId title content category tagNames newTagId,
       status (updateThread db user threadId title content category tagNames
                 newTagId).2 ≠ 500%nat →
       categoriesConsistent
         (updateThread db user threadId title content category tagNames
            newTagId).1)
  ∧ (∀ categoryId, categoriesConsistent (deleteCategory db categoryId).1)
  ∧ (∀ tagId targetTagId,
       categoriesConsistent (mergeTags db tagId targetTagId).1)
  ∧ (∀ tagId, categoriesConsistent (deleteTag db tagId).1)
  ∧ (∀ reqs, categoriesConsistent (foldl serve db reqs)).
Proof.
  intros Hc. split_and!.
  - intros. by apply categoriesConsistent_create.
  - intros. by apply categoriesConsistent_deleteThread.
  - intros. by apply categoriesConsistent_updateThread.
  - intros. by apply categoriesConsistent_deleteCategory.
  - intros. by apply categoriesConsistent_mergeTags.
  - intros. by apply categoriesConsistent_deleteTag.
  - intros reqs. revert db Hc.
    induction reqs as [|req reqs IH]; intros db Hc; [done|].
    simpl. by apply IH, categoriesConsistent_serve.
Qed.

Lemma exampleDB_categoriesConsistent : categoriesConsistent exampleDB.
Proof.
  split.
  - intros id c Hc.
    change (categories exampleDB)
      with ({[ "general" := mkCategory "General" 3 ]} : gmap ObjectId Category)
      in Hc.
    apply lookup_singleton_Some in Hc as [<- <-]. vm_compute. reflexivity.
  - intros k th E.
    change (threads exampleDB)
      with ({[ "t1" := exampleThread; "t2" := freshThread;
               "t3" := lockedThread ]} : gmap ObjectId Thread) in E.
    apply lookup_insert_Some in E as [[_ <-]|[_ E]];
      [|apply lookup_insert_Some in E as [[_ <-]|[_ E]];
        [|apply lookup_singleton_Some in E as [_ <-]]];
      by eexists.
Qed.

Lemma thread_counters_match_threads_witness :
  categoriesConsistent
    (deleteThread exampleDB (mkRequester "author" role_user) "t1").1.
Proof.
  apply (proj1 (proj2 (thread_counters_match_threads exampleDB
                         exampleDB_categoriesConsistent))).
Defined.

(** With a second category: an edit by the author that moves the thread
    and whose tag name the tag schema refuses is answered 500 with the
    counters moved. *)
Example moved_and_refused_breaks_the_count :
  let db := set_categories exampleDB
              (<["news" := mkCategory "News" 0]> (categories exampleDB)) in
  categoriesConsistent db
  ∧ (updateThread db (mkRequester "author" role_user) "t1" "A question"
       "How does it work?" "news" (Some ["  "]) exampleNewId).2
    = mkResponse 500 "Server error" NoPayload
  ∧ ¬ categoriesConsistent
        (updateThread db (mkRequester "author" role_user) "t1" "A question"
           "How does it work?" "news" (Some ["  "]) exampleNewId).1.
Proof.
  cbv zeta. split_and!.
  - split.
    + intros id c Hc. cbn [categories set_categories] in Hc.
      apply lookup_insert_Some in Hc as [[<- <-]|[_ Hc]];
        [vm_compute; reflexivity|].
      change (categories exampleDB)
        with ({[ "general" := mkCategory "General" 3 ]} : gmap ObjectId Category)
        in Hc.
      apply lookup_singleton_Some in Hc as [<- <-]. vm_compute. reflexivity.
    + intros k th E. cbn [categories set_categories].
      apply is_Some_insert.
      exact (proj2 exampleDB_categoriesConsistent k th E).
  - by vm_compute.
  - intros [Hc _]. specialize (Hc "news" (mkCategory "News" 1)).
    vm_compute in Hc. by specialize (Hc eq_refl).
Qed.

(** ** Editing a thread *)

(** The tag loop goes through when every name is one the tag schema
    accepts. *)
Lemma processTags_accepted (newId : nat → ObjectId) (tagNames : list string) :
  ∀ created docs,
    Forall (λ n, validTagName (tagKey n) = true) tagNames →
    ∃ docs' tagIds,
      processTags newId created tagNames docs = (docs', Some tagIds).
Proof.
  induction tagNames as [|tagName more IH]; intros created docs Hv;
    [by eexists _, _|].
  apply Forall_cons in Hv as [Hv Hmore]. simpl.
  unfold processTag. fold (tagKey tagName). rewrite Hv.
  destruct (findOneByName (tagKey tagName) docs) as [tag|].
  - edestruct (IH created) as (docs' & tagIds & ->); [done|].
    by eexists _, _.
  - edestruct (IH (S created)) as (docs' & tagIds & ->); [done|].
    by eexists _, _.
Qed.

(** X27.  An edit that is refused writes nothing: 400 for a body the
    validation refuses, 404 for a missing thread, 403 for a requester who
    is neither the author nor an admin, 400 when the thread is to move to
    a category that does not exist, 500 when it is to move and its present
    category does not exist.  An edit with an accepted body that passes
    these is served and rewrites that thread only: title and content are
    those of the request, trimmed, the category is that of the request,
    the tag array is kept when the request carries no tags, and author,
    votes, replies, view counter, pin, lock and date of last activity are
    untouched, as are the users.  Whatever the answer, the users are
    untouched, and an edit answered 500 leaves the threads as they
    were. *)
Theorem edit_thread_effect (db : DB) (user : Requester) (threadId : ObjectId)
    (title content : string) (category : ObjectId)
    (tagNames : option (list string)) (newTagId : nat → ObjectId) :
  (validateThread title content tagNames = false →
   updateThread db user threadId title content category tagNames newTagId
   = (db, mkResponse 400 "Validation failed" NoPayload))
  ∧ (validateThread title content tagNames = true →
     threads db !! threadId = None →
     updateThread db user threadId title content category tagNames newTagId
     = (db, mkResponse 404 "Thread not found" NoPayload))
  ∧ (∀ thread,
       validateThread title content tagNames = true →
       threads db !! threadId = Some thread →
       (q_id user ≠ t_author thread → q_role user ≠ role_admin →
        updateThread db user threadId title content category tagNames newTagId
        = (db, mkResponse 403 "Not authorized to edit this thread" NoPayload))
       ∧ (q_id user = t_author thread ∨ q_role user = role_admin →
          (category ≠ t_category thread →
           categories db !! category = None →
           updateThread db user threadId title content category tagNames
             newTagId
           = (db, mkResponse 400 "Invalid category" NoPayload))
          ∧ (category ≠ t_category thread →
             is_Some (categories db !! category) →
             categories db !! t_category thread = None →
             updateThread db user threadId title content category tagNames
               newTagId
             = (db, mkResponse 500 "Server error" NoPayload))
          ∧ (acceptedThread title content tagNames = true →
             category = t_category thread
             ∨ (is_Some (categories db !! category)
                ∧ is_Some (categories db !! t_category thread)) →
             ∃ db' thread',
               updateThread db user threadId title content category tagNames
                 newTagId
               = (db', mkResponse 200 "Thread updated successfully" NoPayload)
               ∧ threads db' = <[threadId := thread']> (threads db)
               ∧ users db' = users db
               ∧ t_title thread' = trim title
               ∧ t_content thread' = trim content
               ∧ t_category thread' = category
               ∧ (tagNames = None →
                  t_tags thread' = t_tags thread ∧ tags db' = tags db)
               ∧ (category = t_category thread →
                  categories db' = categories db)
               ∧ t_author thread' = t_author thread
               ∧ t_votes thread' = t_votes thread
               ∧ t_replies thread' = t_replies thread
               ∧ t_views thread' = t_views thread
               ∧ t_isPinned thread' = t_isPinned thread
               ∧ t_isLocked thread' = t_isLocked thread
               ∧ t_lastActivity thread' = t_lastActivity thread)))
  ∧ users (updateThread db user threadId title content category tagNames
             newTagId).1 = users db
  ∧ (status (updateThread db user threadId title content category tagNames
               newTagId).2 = 500%nat →
     threads (updateThread db user threadId title content category tagNames
                newTagId).1 = threads db).
Proof.
  split_and!.
  - intros Hv. unfold updateThread. by rewrite Hv.
  - intros Hv E. unfold updateThread. by rewrite Hv, E.
  - intros thread Hv E. split.
    + intros Hna Hnr. unfold updateThread. rewrite Hv, E. simpl negb. cbv iota.
      destruct (threadNotAuthorized user thread) eqn:Hauth; [done|].
      apply (proj1 (threadNotAuthorized_false _ _)) in Hauth as [?|?]; done.
    + intros Hauth. apply (proj2 (threadNotAuthorized_false _ _)) in Hauth.
      unfold updateThread. rewrite Hv, E, Hauth. simpl negb. cbv iota zeta.
      split_and!.
      * intros Hne En.
        destruct (String.eqb_spec category (t_category thread)); [done|].
        cbn [negb]. by rewrite En.
      * intros Hne [nc En] Eo.
        destruct (String.eqb_spec category (t_category thread)); [done|].
        cbn [negb]. by rewrite En, Eo.
      * intros (_ & Ht & Hc & Hnames)%acceptedThread_parts Hok.
        assert (String.eqb (trim title) "" || String.eqb (trim content) ""
                = false) as Hsave.
        { destruct (String.eqb_spec (trim title) ""); [done|].
          by destruct (String.eqb_spec (trim content) ""). }
        destruct (String.eqb_spec category (t_category thread)) as [Heq|Hne];
          cbn [negb].
        -- destruct tagNames as [names|].
           ++ rewrite processTagsOnEdit_processTags.
              destruct (processTags_accepted newTagId names 0
                          (releaseTags (t_tags thread) (tags db)) Hnames)
                as (docs' & tagIds & ->).
              rewrite Hsave.
              eexists _, _. split; [reflexivity|].
              cbn [threads users categories tags set_threads set_tags].
              by split_and!.
           ++ rewrite Hsave. eexists _, _. split; [reflexivity|].
              cbn [threads users categories tags set_threads set_tags].
              by split_and!.
        -- destruct Hok as [?|[[nc En] [oc Eo]]]; [done|]. rewrite En, Eo.
           destruct tagNames as [names|].
           ++ rewrite processTagsOnEdit_processTags.
              cbn [tags set_categories].
              destruct (processTags_accepted newTagId names 0
                          (releaseTags (t_tags thread) (tags db)) Hnames)
                as (docs' & tagIds & ->).
              rewrite Hsave.
              eexists _, _. split; [reflexivity|].
              cbn [threads users categories tags set_threads set_tags
                   set_categories].
              by split_and!.
           ++ rewrite Hsave. eexists _, _. split; [reflexivity|].
              cbn [threads users categories tags set_threads set_tags
                   set_categories].
              by split_and!.
  - unfold updateThread.
    destruct (validateThread title content tagNames); [|done].
    simpl negb. cbv iota zeta.
    destruct (threads db !! threadId) as [thread|]; [|done].
    destruct (threadNotAuthorized user thread); [done|].
    destruct (negb (String.eqb category (t_category thread)));
      [destruct (categories db !! category); [|done];
       destruct (categories db !! t_category thread); [|done]|];
      (destruct (match tagNames with
                 | Some names => _
                 | None => _
                 end) as [docs' [tagIds|]]; [|done]);
      by destruct (String.eqb (trim title) "" || String.eqb (trim content) "").
  - unfold updateThread.
    destruct (validateThread title content tagNames); [|done].
    simpl negb. cbv iota zeta.
    destruct (threads db !! threadId) as [thread|]; [|done].
    destruct (threadNotAuthorized user thread); [done|].
    destruct (negb (String.eqb category (t_category thread)));
      [destruct (categories db !! category); [|done];
       destruct (categories db !! t_category thread); [|done]|];
      (destruct (match tagNames with
                 | Some names => _
                 | None => _
                 end) as [docs' [tagIds|]]; [|done]);
      by destruct (String.eqb (trim title) "" || String.eqb (trim content) "").
Qed.

Lemma edit_thread_effect_witness :
  updateThread exampleDB user1 "t1" "A new title" "A new content" "general"
    (Some ["React"]) exampleNewId
  = (exampleDB, mkResponse 403 "Not authorized to edit this thread" NoPayload).
Proof.
  apply (proj1 (proj1 (proj2 (proj2 (edit_thread_effect exampleDB user1 "t1"
                                       "A new title" "A new content" "general"
                                       (Some ["React"]) exampleNewId)))
                  exampleThread eq_refl eq_refl));
    discriminate.
Defined.

(** An edit with new tags moves the counts from the old tags to the new. *)
Example edit_thread_moves_tag_counts :
  tags (updateThread exampleDB (mkRequester "author" role_user) "t1"
          "A question" "How does it work?" "general" (Some ["React"; "React"])
          exampleNewId).1
  = [mkTag "tag-js" "javascript" 1; mkTag "tag-reactjs" "reactjs" 0;
     mkTag "#" "react" 2].
Proof. vm_compute. reflexivity. Qed.

(** An edit whose second tag name the tag schema refuses is answered 500
    after the old tags were released and the first name was counted. *)
Example edit_thread_refused_tag_name :
  updateThread exampleDB (mkRequester "author" role_user) "t1"
    "A question" "How does it work?" "general" (Some ["React"; "  "])
    exampleNewId
  = (set_tags exampleDB
       [mkTag "tag-js" "javascript" 1; mkTag "tag-reactjs" "reactjs" 0;
        mkTag "#" "react" 1],
     mkResponse 500 "Server error" NoPayload).
Proof. vm_compute. reflexivity. Qed.

(** ** Votes and deletes on the replies of the top level *)

Lemma set_votes_votes (r : Reply) (votes : list Vote) :
  r_votes (set_votes r votes) = votes.
Proof. by destruct r as [[]]. Qed.

Lemma set_votes_back (r : Reply) (votes : list Vote) :
  set_votes (set_votes r votes) (r_votes r) = r.
Proof. by destruct r as [[]]. Qed.

(** After a vote on a reply of the top level the search comes to the reply
    with the new ledger. *)
Lemma voteOnReply_top (db : DB) (user : Requester) (threadId : ObjectId)
    (replyId : string) (ty : VoteType) (now : N) (thread : Thread)
    (target : Reply) :
  threads db !! threadId = Some thread →
  locate replyId 0 (t_replies thread) = loc_hit 0 target →
  ∃ replies',
    voteOnReply db user threadId replyId (showVoteType ty) now
    = (let cast := castVote (r_votes target) (q_id user) ty in
       (mkDB (<[threadId := set_thread_replies thread replies' now]>
                (threads db))
             (updateAuthorReputation (r_author target) cast.2 (users db))
             (categories db) (tags db),
        mkResponse 200 "Vote recorded successfully"
          (VotePayload (voteScore cast.1)
             (v_type <$> findVote (q_id user) cast.1))))
    ∧ locate replyId 0 replies'
      = loc_hit 0
          (set_votes target (castVote (r_votes target) (q_id user) ty).1).
Proof.
  intros E Hl.
  destruct (voteOnReply_hit db user threadId replyId ty now thread 0 target
              E Hl) as (l1 & l2 & replies' & _ & _ & _ & Hf & Hv).
  exists replies'. split; [exact Hv|].
  pose proof (locate_visit_replace replyId (voteAction user ty)
                (λ r, set_votes r (castVote (r_votes r) (q_id user) ty).1)
                (t_replies thread) (λ r, eq_refl)
                (λ r, ltac:(by destruct r)) 0) as Hloc.
  rewrite findAndVoteReply_visit in Hf.
  assert (replies' = (visit replyId (voteAction user ty) (t_replies thread)).2)
    as Er by (by injection Hf).
  by rewrite <- Er, Hl in Hloc.
Qed.

(** X28.  Casting the same type twice, where the votes are stored: on a
    ledger the voter has no vote in, the first cast moves the score by +1
    (upvote) or -1 (downvote) and the second gives the ledger back; the
    score also returns when the voter already holds a vote of the type
    cast, on a ledger with one vote per voter; switching an existing vote
    to the opposite type moves the score by +2 or -2.  Two equal vote
    requests on a thread, and on a reply that the search finds at the top
    level, by a voter who has not voted on it, are answered with the score
    plus the delta of a new vote and then with the score of before and no
    vote of the voter, and leave the votes of the thread and the reply
    with everything below it as they were. *)
Theorem toggle_twice_where_stored :
  (∀ votes voter type,
     voter ∉ voters votes →
     voteScore (castVote votes voter type).1 = voteScore votes + deltaAdd type
     ∧ (castVote (castVote votes voter type).1 voter type).1 = votes
     ∧ voteScore (castVote (castVote votes voter type).1 voter type).1
       = voteScore votes)
  ∧ (∀ votes voter type,
       oneVotePerVoter votes →
       mkVote voter (opposite type) ∉ votes →
       voteScore (castVote (castVote votes voter type).1 voter type).1
       = voteScore votes)
  ∧ (∀ before after voter old type,
       old ≠ type →
       voter ∉ voters before →
       voteScore (castVote (before ++ mkVote voter old :: after) voter type).1
       - voteScore (before ++ mkVote voter old :: after) = deltaFlip type
       ∧ Z.abs (deltaFlip type) = 2)
  ∧ (∀ db user threadId ty thread,
       threads db !! threadId = Some thread →
       q_id user ∉ voters (t_votes thread) →
       ∃ db1 db2,
         voteOnThread db user threadId (showVoteType ty)
         = (db1, mkResponse 200 "Vote recorded successfully"
                   (VotePayload (voteScore (t_votes thread) + deltaAdd ty)
                      (Some ty)))
         ∧ voteOnThread db1 user threadId (showVoteType ty)
           = (db2, mkResponse 200 "Vote recorded successfully"
                     (VotePayload (voteScore (t_votes thread)) None))
         ∧ threads db2 !! threadId = Some thread)
  ∧ (∀ db user threadId replyId ty now1 now2 thread target,
       threads db !! threadId = Some thread →
       locate replyId 0 (t_replies thread) = loc_hit 0 target →
       q_id user ∉ voters (r_votes target) →
       ∃ db1 db2 thread2,
         voteOnReply db user threadId replyId (showVoteType ty) now1
         = (db1, mkResponse 200 "Vote recorded successfully"
                   (VotePayload (voteScore (r_votes target) + deltaAdd ty)
                      (Some ty)))
         ∧ voteOnReply db1 user threadId replyId (showVoteType ty) now2
           = (db2, mkResponse 200 "Vote recorded successfully"
                     (VotePayload (voteScore (r_votes target)) None))
         ∧ threads db2 !! threadId = Some thread2
         ∧ locate replyId 0 (t_replies thread2) = loc_hit 0 target).
Proof.
  split_and!.
  - intros votes voter type Hno. rewrite castVote_twice by done.
    rewrite (castVote_new votes) by done. simpl. by rewrite voteScore_new.
  - apply castVote_twice_score.
  - intros before after voter old type Hne Hb.
    rewrite castVote_score, castVote_other by done. simpl.
    split; [lia | by destruct type].
  - intros db user threadId ty thread E Hno.
    rewrite (voteOnThread_found _ _ _ _ _ E).
    rewrite castVote_new by done. simpl.
    eexists _, _. split; [by rewrite voteScore_new, findVote_new|].
    erewrite voteOnThread_found by apply lookup_insert_eq. simpl.
    rewrite castVote_same by done. simpl. rewrite app_nil_r.
    rewrite findVote_None by done.
    split; [done|]. cbn [threads]. rewrite lookup_insert_eq. by destruct thread.
  - intros db user threadId replyId ty now1 now2 thread target E Hl Hno.
    destruct (voteOnReply_top db user threadId replyId ty now1 thread target
                E Hl) as (r1 & Hv1 & Hl1).
    edestruct (voteOnReply_top
                 (mkDB (<[threadId := set_thread_replies thread r1 now1]>
                          (threads db))
                    (updateAuthorReputation (r_author target)
                       (castVote (r_votes target) (q_id user) ty).2 (users db))
                    (categories db) (tags db))
                 user threadId replyId ty now2
                 (set_thread_replies thread r1 now1))
      as (r2 & Hv2 & Hl2); [apply lookup_insert_eq | exact Hl1 |].
    cbv zeta in Hv1, Hv2. rewrite set_votes_votes in Hl2, Hv2.
    rewrite castVote_twice in Hl2, Hv2 by done.
    rewrite (castVote_new (r_votes target)) in Hv1, Hv2 by done.
    cbn [fst snd] in Hv1, Hv2, Hl2.
    rewrite voteScore_new, findVote_new in Hv1 by done.
    rewrite findVote_None in Hv2 by done.
    rewrite set_votes_back in Hl2.
    eexists _, _, _. split; [exact Hv1|]. split; [exact Hv2|].
    cbn [threads]. split; [apply lookup_insert_eq | exact Hl2].
Qed.

Lemma toggle_twice_where_stored_witness :
  ∃ db1 db2 thread2,
    voteOnReply seededDB user3 "t1" "A" (showVoteType upvote) 20
    = (db1, mkResponse 200 "Vote recorded successfully"
              (VotePayload (voteScore (r_votes replyA) + deltaAdd upvote)
                 (Some upvote)))
    ∧ voteOnReply db1 user3 "t1" "A" (showVoteType upvote) 21
      = (db2, mkResponse 200 "Vote recorded successfully"
                (VotePayload (voteScore (r_votes replyA)) None))
    ∧ threads db2 !! "t1" = Some thread2
    ∧ locate "A" 0 (t_replies thread2) = loc_hit 0 replyA.
Proof.
  apply (proj2 (proj2 (proj2 (proj2 toggle_twice_where_stored))) seededDB
           user3 "t1" "A" upvote 20%N 21%N exampleThread replyA).
  - reflexivity.
  - reflexivity.
  - by apply (bool_decide_unpack _).
Defined.

(** X29.  A vote request on a reply the search comes to is answered with
    the score of the reply plus the delta, and the delta, which is never
    0, is what the reputation of the reply's author is adjusted by.  At
    the top level the vote is stored: the reply is afterwards found with
    the ledger of the cast, whose score is the one returned.  Below the
    top level the threads are left as they were. *)
Theorem reply_vote_score_and_reputation (db : DB) (user : Requester)
    (threadId : ObjectId) (replyId : string) (ty : VoteType) (now : N)
    (thread : Thread) (depth : nat) (target : Reply) :
  threads db !! threadId = Some thread →
  locate replyId 0 (t_replies thread) = loc_hit depth target →
  ∃ db' delta userVote,
    voteOnReply db user threadId replyId (showVoteType ty) now
    = (db', mkResponse 200 "Vote recorded successfully"
              (VotePayload (voteScore (r_votes target) + delta) userVote))
    ∧ users db' = updateAuthorReputation (r_author target) delta (users db)
    ∧ delta ≠ 0
    ∧ (depth = 0%nat →
       ∃ thread' target',
         threads db' !! threadId = Some thread'
         ∧ locate replyId 0 (t_replies thread') = loc_hit 0 target'
         ∧ r_votes target' = (castVote (r_votes target) (q_id user) ty).1
         ∧ voteScore (r_votes target') = voteScore (r_votes target) + delta)
    ∧ ((1 ≤ depth)%nat → threads db' = threads db).
Proof.
  intros E Hl. destruct depth as [|d].
  - destruct (voteOnReply_top db user threadId replyId ty now thread target
                E Hl) as (r1 & -> & Hl1).
    cbv zeta. eexists _, (castVote (r_votes target) (q_id user) ty).2, _.
    split_and!; [by rewrite castVote_score | done | | | intros; lia].
    + apply castVote_delta_nonzero.
    + intros _. eexists _, _. cbn [threads].
      split; [apply lookup_insert_eq|]. split; [exact Hl1|].
      rewrite set_votes_votes. split; [done | apply castVote_score].
  - destruct (voteOnReply_hit db user threadId replyId ty now thread (S d)
                target E Hl) as (l1 & l2 & r' & _ & _ & _ & _ & ->).
    cbv zeta. cbn [savesFieldsAt Nat.eqb].
    eexists _, (castVote (r_votes target) (q_id user) ty).2, _.
    split_and!; [by rewrite castVote_score | done | | done | done].
    apply castVote_delta_nonzero.
Qed.

Lemma reply_vote_score_and_reputation_witness :
  ∃ db' delta userVote,
    voteOnReply seededDB user3 "t1" "B" (showVoteType upvote) 20
    = (db', mkResponse 200 "Vote recorded successfully"
              (VotePayload (voteScore (r_votes replyB) + delta) userVote))
    ∧ users db'
      = updateAuthorReputation (r_author replyB) delta (users seededDB)
    ∧ delta ≠ 0
    ∧ (1%nat = 0%nat →
       ∃ thread' target',
         threads db' !! "t1" = Some thread'
         ∧ locate "B" 0 (t_replies thread') = loc_hit 0 target'
         ∧ r_votes target' = (castVote (r_votes replyB) (q_id user3) upvote).1
         ∧ voteScore (r_votes target') = voteScore (r_votes replyB) + delta)
    ∧ ((1 ≤ 1)%nat → threads db' = threads seededDB).
Proof.
  apply (reply_vote_score_and_reputation seededDB user3 "t1" "B" upvote 20%N
           exampleThread 1%nat replyB).
  - reflexivity.
  - reflexivity.
Defined.

Lemma addStats_remove (b x a : Z * Z) :
  addStats (addStats b a) x = addStats b (addStats x a).
Proof. unfold addStats. simpl. f_equal; lia. Qed.

(** X30.  A delete request on a reply the search finds at the top level
    or one level below it, by its author or an admin, stores the tree
    without the reply and everything below it: the outline loses the
    stretch of the reply and its descendants, every other reply keeps its
    place and its depth, and the statistics of the stored tree are those
    of before minus the tallies of the deleted replies.  On the tree
    A -> [B -> [C]], deleting B leaves A with no replies below it. *)
Theorem delete_near_top_removes_subtree :
  (∀ db user threadId replyId now thread depth removed,
     threads db !! threadId = Some thread →
     locate replyId 0 (t_replies thread) = loc_hit depth removed →
     mayChange user (r_fields removed) →
     (depth ≤ 1)%nat →
     ∃ before after replies',
       outline 0 (t_replies thread) = before ++ outlineOf depth removed ++ after
       ∧ deleteReply db user threadId replyId now
         = (set_threads db
              (<[threadId := set_thread_replies thread replies' now]>
                 (threads db)),
            mkResponse 200 "Reply deleted successfully" NoPayload)
       ∧ outline 0 replies' = before ++ after
       ∧ calculateReplyStats replies' = tally (before ++ after)
       ∧ addStats (calculateReplyStats replies') (tally (outlineOf depth removed))
         = calculateReplyStats (t_replies thread))
  ∧ (∀ user a b c ida idb,
       f_id a = Some ida → f_id b = Some idb →
       ida ≠ idb →
       mayChange user b →
       findAndRemoveReply user idb
         (rcons (mkReply a (rcons (mkReply b (rcons (mkReply c rnil) rnil)) rnil))
            rnil)
       = (remove_true, rcons (mkReply a rnil) rnil))
  ∧ t_replies
      <$> threads (deleteReply seededDB user2 "t1" "B" 20).1 !! "t1"
    = Some (rcons (mkReply (r_fields replyA) rnil) rnil).
Proof.
  split_and!.
  - intros db user threadId replyId now thread d t E Hl Hmay%notAuthorized_false
      Hd.
    destruct (deleteReply_hit db user threadId replyId now thread d t E Hl Hmay)
      as (l1 & l2 & r' & Ho & _ & Ho' & _ & ->).
    assert (savesSpliceAt d = true) as ->
      by (destruct d as [|[|?]]; [done | done | lia]).
    exists l1, l2, r'. split_and!; [done..| |].
    + by rewrite (calculateReplyStats_tally _ 0), Ho'.
    + rewrite !(calculateReplyStats_tally _ 0), Ho, Ho', !tally_app.
      apply addStats_remove.
  - intros user a b c ida idb Ea Eb Hne Hmay. simpl. unfold r_id. simpl.
    rewrite Ea, Eb.
    destruct (String.eqb_spec ida idb); [done|].
    rewrite String.eqb_refl.
    by rewrite (proj2 (notAuthorized_false user (mkReply b _)) Hmay).
  - by vm_compute.
Qed.

Lemma delete_near_top_removes_subtree_witness :
  ∃ before after replies',
    outline 0 (t_replies exampleThread)
    = before ++ outlineOf 1 replyB ++ after
    ∧ deleteReply seededDB user2 "t1" "B" 20
      = (set_threads seededDB
           (<["t1" := set_thread_replies exampleThread replies' 20]>
              (threads seededDB)),
         mkResponse 200 "Reply deleted successfully" NoPayload)
    ∧ outline 0 replies' = before ++ after
    ∧ calculateReplyStats replies' = tally (before ++ after)
    ∧ addStats (calculateReplyStats replies') (tally (outlineOf 1 replyB))
      = calculateReplyStats (t_replies exampleThread).
Proof.
  apply (proj1 delete_near_top_removes_subtree seededDB user2 "t1" "B" 20%N
           exampleThread 1%nat replyB).
  - reflexivity.
  - reflexivity.
  - left. reflexivity.
  - lia.
Defined.
